(** * A shallow embedding of the V2 runtime job lifecycle and of the
    backend configuration model of qiskit-ibm-runtime.

    - [RuntimeJobV2] embeds [qiskit_ibm_runtime/runtime_job_v2.py]:
      status mapping, status refresh, polling wait, result retrieval and
      cancellation, over an explicit job state and a scripted transport.
    - [BackendConfiguration] embeds the parts of
      [qiskit_ibm_runtime/models/backend_configuration.py] used by the
      channel lookups and by the [from_dict]/[to_dict] round trip, with
      Python floats as IEEE binary64 primitive floats. *)

From Stdlib Require Import String Ascii ZArith List Bool Lia Floats Permutation.
Import ListNotations.

Module RuntimeJobV2.

Local Open Scope string_scope.

(** ** Strings *)

(** [str.upper] restricted to ASCII letters. *)
Definition ascii_upper (c : ascii) : ascii :=
  let n := nat_of_ascii c in
  if (97 <=? n)%nat && (n <=? 122)%nat then ascii_of_nat (n - 32) else c.

Fixpoint upper (s : string) : string :=
  match s with
  | EmptyString => EmptyString
  | String c s' => String (ascii_upper c) (upper s')
  end.

(** Python truthiness of an optional string ([None] and [""] are falsy). *)
Definition truthy (o : option string) : bool :=
  match o with
  | Some s => negb (String.eqb s "")
  | None => false
  end.

(** [f"{x}"] for an optional string. *)
Definition py_str (o : option string) : string :=
  match o with
  | Some s => s
  | None => "None"
  end.

(** ** Status table *)

(** [JobStatus] is a [Literal] of strings; the code keeps it a string. *)
Definition JobStatus := string.

Definition API_TO_JOB_STATUS : list (string * JobStatus) :=
  [("QUEUED", "QUEUED"); ("RUNNING", "RUNNING"); ("COMPLETED", "DONE");
   ("FAILED", "ERROR"); ("CANCELLED", "CANCELLED")].

Fixpoint lookup (k : string) (m : list (string * JobStatus)) : option JobStatus :=
  match m with
  | [] => None
  | (k', v) :: m' => if String.eqb k k' then Some v else lookup k m'
  end.

Definition JOB_FINAL_STATES : list JobStatus := ["DONE"; "CANCELLED"; "ERROR"].

(** [status in self.JOB_FINAL_STATES] *)
Definition in_final_states (s : string) : bool :=
  existsb (String.eqb s) JOB_FINAL_STATES.

(** ** Job state and transport *)

(** A status response [{"state": {"status": .., "reason": .., "reason_code": ..}}]. *)
Record response := mk_response {
  resp_status : string;
  resp_reason : option string;
  resp_reason_code : option Z;
  resp_error_message : option string
}.

(** The fields of a [RuntimeJobV2] object the methods read or write.
    [polls] counts round trips to the status endpoint and [now] is the
    wall clock read by [time.time()], in milliseconds. *)
Record job := mk_job {
  _status : JobStatus;
  _reason : option string;
  _reason_code : option Z;
  _error_message : option string;
  polls : nat;
  now : Z
}.

(** [self._status = "INITIALIZING"] in [__init__]. *)
Definition new_job (t0 : Z) : job :=
  mk_job "INITIALIZING" None None None 0 t0.

(** A [RequestsApiError] raised by the transport. *)
Inductive api_outcome :=
| ApiOk
| ApiError (status_code : Z) (text : string).

(** The answer of the transport to [job_logs]: the log text, or a
    [RequestsApiError] with its status code. *)
Inductive logs_outcome :=
| LogsOk (text : string)
| LogsError (status_code : Z) (text : string).

(** The transport client, as scripted responses: [job_get i] is the
    response to the [i]-th status round trip and [rtt i] its duration. *)
Record transport := mk_transport {
  job_get : nat -> response;
  rtt : nat -> Z;
  job_results : option string;
  job_cancel : api_outcome
}.

Inductive error :=
| RuntimeJobFailureError (msg : string)
| RuntimeInvalidStateError (msg : string)
| IBMRuntimeError (msg : string)
| RuntimeJobMaxTimeoutError (msg : string)
| RuntimeJobTimeoutError (timeout : option Z)
| DecodeError (msg : string)
(** not a Python outcome: the model ran out of fuel while the Python
    loop would still be polling *)
| OutOfFuel.

(** ** A state and error monad over the job *)

Definition M (A : Type) := job -> (A + error) * job.

Definition ret {A} (a : A) : M A := fun j => (inl a, j).
Definition raise {A} (e : error) : M A := fun j => (inr e, j).
Definition bind {A B} (m : M A) (k : A -> M B) : M B :=
  fun j => match m j with
           | (inl a, j') => k a j'
           | (inr e, j') => (inr e, j')
           end.
Definition gets {A} (f : job -> A) : M A := fun j => (inl (f j), j).
Definition modify (f : job -> job) : M unit := fun j => (inl tt, f j).

Notation "x <- m ;; k" := (bind m (fun x => k))
  (at level 61, m at next level, right associativity).
Notation "m ;;; k" := (bind m (fun _ => k))
  (at level 61, right associativity).

Definition set_status (s : JobStatus) (j : job) : job :=
  mk_job s j.(_reason) j.(_reason_code) j.(_error_message) j.(polls) j.(now).

Definition sleep (ms : Z) (j : job) : job :=
  mk_job j.(_status) j.(_reason) j.(_reason_code) j.(_error_message) j.(polls)
    (j.(now) + ms)%Z.

Definition is_1305 (rc : option Z) : bool :=
  match rc with Some c => Z.eqb c 1305 | None => false end.

(** [RuntimeJobV2._status_from_job_response] *)
Definition _status_from_job_response (j : job) (response : response) : string :=
  let api_status := upper response.(resp_status) in
  match lookup api_status API_TO_JOB_STATUS with
  | Some mapped_job_status =>
      if String.eqb mapped_job_status "CANCELLED" && is_1305 j.(_reason_code)
      then "ERROR" else mapped_job_status
  | None => api_status
  end.

(** [self._reason if self._reason else self._error_message] *)
Definition error_message_of (j : job) : string :=
  if truthy j.(_reason) then py_str j.(_reason) else py_str j.(_error_message).

Section Job.

Variable tr : transport.
Variable job_id : string.

(** Modelled from the spec: [BaseRuntimeJob._set_status_and_error_message]
    is not part of the sources. Per the spec's status refresh protocol, a
    job already in a final state is a pure read; otherwise one round trip
    to the status endpoint records the reason, the reason code and the
    error message and maps the status through [_status_from_job_response]. *)
Definition _set_status_and_error_message (j : job) : job :=
  if in_final_states j.(_status) then j
  else
    let r := tr.(job_get) j.(polls) in
    let j1 := mk_job j.(_status) r.(resp_reason) r.(resp_reason_code)
                     r.(resp_error_message) (S j.(polls))
                     (j.(now) + tr.(rtt) j.(polls))%Z in
    set_status (_status_from_job_response j1 r) j1.

(** [RuntimeJobV2.status] *)
Definition status : M JobStatus :=
  modify _set_status_and_error_message ;;;
  gets _status.

(** [RuntimeJobV2.cancelled] *)
Definition cancelled : M bool :=
  s <- status ;;
  ret (String.eqb s "CANCELLED").

(** [RuntimeJobV2.cancel] *)
Definition cancel : M unit :=
  match tr.(job_cancel) with
  | ApiError status_code ex =>
      if Z.eqb status_code 409
      then raise (RuntimeInvalidStateError ("Job cannot be cancelled: " ++ ex))
      else raise (IBMRuntimeError ("Failed to cancel job: " ++ ex))
  | ApiOk => modify (set_status "CANCELLED")
  end.

(** [RuntimeJobV2.done], [.errored], [.in_final_state] and [.running] *)
Definition done : M bool :=
  s <- status ;;
  ret (String.eqb s "DONE").

Definition errored : M bool :=
  s <- status ;;
  ret (String.eqb s "ERROR").

Definition in_final_state : M bool :=
  s <- status ;;
  ret (in_final_states s).

Definition running : M bool :=
  s <- status ;;
  ret (String.eqb s "RUNNING").

(** [RuntimeJobV2.logs], with [job_logs] the transport's answer to the
    logs request; for a job not in a final state it only logs a warning. *)
Definition logs (job_logs : logs_outcome) : M string :=
  status ;;;
  match job_logs with
  | LogsOk text => ret text
  | LogsError status_code ex =>
      if Z.eqb status_code 404 then ret ""
      else raise (IBMRuntimeError ("Failed to get job logs: " ++ ex))
  end.

(** The [while] loop of [wait_for_final_state]; [time.sleep(0.1)] is
    [sleep 100]. *)
Fixpoint wait_loop (fuel : nat) (timeout : option Z) (start_time : Z)
         (st : JobStatus) : M unit :=
  if in_final_states st then ret tt
  else match fuel with
       | O => raise OutOfFuel
       | S fuel' =>
           t <- gets now ;;
           let elapsed_time := (t - start_time)%Z in
           match timeout with
           | Some tmo =>
               if Z.leb tmo elapsed_time
               then raise (RuntimeJobTimeoutError timeout)
               else modify (sleep 100) ;;; st' <- status ;;
                    wait_loop fuel' timeout start_time st'
           | None =>
               modify (sleep 100) ;;; st' <- status ;;
               wait_loop fuel' timeout start_time st'
           end
       end.

(** [RuntimeJobV2.wait_for_final_state] *)
Definition wait_for_final_state (fuel : nat) (timeout : option Z) : M unit :=
  start_time <- gets now ;;
  st <- status ;;
  wait_loop fuel timeout start_time st.

Section Result.

Variable R : Type.
(** A [ResultDecoder]: its [decode] returns a value or fails with a
    decode error message. *)
Definition decoder := string -> R + string.
Variable _final_result_decoder : decoder.

Definition decode_result (d : decoder) (raw : string) : M (option R) :=
  match d raw with
  | inl r => ret (Some r)
  | inr m => raise (DecodeError m)
  end.

(** [RuntimeJobV2.result] after its call to [wait_for_final_state]. *)
Definition result_after_wait (_decoder : decoder) : M (option R) :=
  st <- gets _status ;;
  if String.eqb st "ERROR" then
    j <- gets (fun j => j) ;;
    let error_message := error_message_of j in
    if is_1305 j.(_reason_code)
    then raise (RuntimeJobMaxTimeoutError error_message)
    else raise (RuntimeJobFailureError ("Unable to retrieve job result. " ++ error_message))
  else if String.eqb st "CANCELLED" then
    raise (RuntimeInvalidStateError
             ("Unable to retrieve result for job " ++ job_id ++ ". Job was cancelled."))
  else
    let result_raw := tr.(job_results) in
    if truthy result_raw then decode_result _decoder (py_str result_raw)
    else ret None.

(** [RuntimeJobV2.result] *)
Definition result (fuel : nat) (timeout : option Z) (decoder : option decoder)
  : M (option R) :=
  let _decoder := match decoder with Some d => d | None => _final_result_decoder end in
  wait_for_final_state fuel timeout ;;;
  result_after_wait _decoder.

End Result.

End Job.

(** The status table as the spec words it: the five server statuses map
    to QUEUED, RUNNING, DONE, ERROR, CANCELLED, anything else passes
    through, and CANCELLED with the max-execution-time reason code 1305
    becomes ERROR. *)
Definition spec_mapped_status (reason_code : option Z) (api_status : string) : string :=
  if String.eqb api_status "QUEUED" then "QUEUED"
  else if String.eqb api_status "RUNNING" then "RUNNING"
  else if String.eqb api_status "COMPLETED" then "DONE"
  else if String.eqb api_status "FAILED" then "ERROR"
  else if String.eqb api_status "CANCELLED" then
    (if is_1305 reason_code then "ERROR" else "CANCELLED")
  else api_status.

(** ** The timeline of [wait_for_final_state] *)

(** The status a poll records from the response [r]: the mapping reads the
    reason code the poll has just stored, that of [r]. *)
Definition polled_status (r : response) : JobStatus :=
  _status_from_job_response (mk_job "INITIALIZING" None (resp_reason_code r) None 0 0) r.

(** The total duration of the [n] status round trips numbered from [p]. *)
Fixpoint request_time (tr : transport) (p n : nat) : Z :=
  match n with
  | O => 0
  | S n' => request_time tr p n' + tr.(rtt) (p + n')
  end.

(** The wall-clock time elapsed since the call of [wait_for_final_state],
    right after its [n]-th poll ([n >= 1]) when the first poll has number
    [p]: [n] round trips and [n - 1] sleeps of 100 ms. *)
Definition elapsed_after (tr : transport) (p n : nat) : Z :=
  (request_time tr p n + 100 * (Z.of_nat n - 1))%Z.

End RuntimeJobV2.

Module BackendConfiguration.

Local Open Scope string_scope.

(** ** Python values *)

(** The values a wire dictionary and a configuration object hold: JSON
    data, plus the [GateConfig] and [UchannelLO] objects [from_dict]
    builds (each as its attribute dictionary or its two fields), and
    [PObject name] for an object the model does not represent further
    (a method, a class, a channel map), read through [getattr] under
    [name]. *)
Inductive pyval :=
| PNone
| PBool (b : bool)
| PInt (z : Z)
| PFloat (f : float)
| PStr (s : string)
| PList (l : list pyval)
| PDict (d : list (string * pyval))
| PGate (attrs : list (string * pyval))
| PUchan (q scale : pyval)
| PObject (name : string).

(** A Python [dict] with string keys, in insertion order. *)
Definition dict := list (string * pyval).

Fixpoint dget (d : dict) (k : string) : option pyval :=
  match d with
  | [] => None
  | (k', v) :: d' => if String.eqb k k' then Some v else dget d' k
  end.

(** [d[k] = v]: replaces the value in place, or appends a new key. *)
Fixpoint dset (d : dict) (k : string) (v : pyval) : dict :=
  match d with
  | [] => [(k, v)]
  | (k', v') :: d' => if String.eqb k k' then (k', v) :: d' else (k', v') :: dset d' k v
  end.

Fixpoint ddel (d : dict) (k : string) : dict :=
  match d with
  | [] => []
  | (k', v') :: d' => if String.eqb k k' then d' else (k', v') :: ddel d' k
  end.

(** [d.update(e)] *)
Definition dupdate (d e : dict) : dict :=
  fold_left (fun acc kv => dset acc (fst kv) (snd kv)) e d.

Definition dmem (d : dict) (k : string) : bool :=
  match dget d k with Some _ => true | None => false end.

(** Exceptions raised by the configuration code. [NotModelled] is not a
    Python exception: it stops a run where Python goes on with a value the
    model does not represent, so that no property is proved of such runs. *)
Inductive pyerror :=
| TypeError (msg : string)
| KeyError (key : string)
| ValueError (msg : string)
| AttributeError (msg : string)
| QiskitError (msg : string)
| BackendConfigurationError (msg : string)
| ZeroDivisionError (msg : string)
| NotModelled (what : string).

Definition Res (A : Type) := (A + pyerror)%type.

Definition rbind {A B} (m : Res A) (k : A -> Res B) : Res B :=
  match m with inl a => k a | inr e => inr e end.

Local Notation "x <- m ;; k" := (rbind m (fun x => k))
  (at level 61, m at next level, right associativity).

Fixpoint mapM {A B} (f : A -> Res B) (l : list A) : Res (list B) :=
  match l with
  | [] => inl []
  | x :: l' => y <- f x ;; ys <- mapM f l' ;; inl (y :: ys)
  end.

(** [d[k]] and [d.pop(k)] *)
Definition getitem (d : dict) (k : string) : Res pyval :=
  match dget d k with Some v => inl v | None => inr (KeyError k) end.

Definition pop (d : dict) (k : string) : Res (pyval * dict) :=
  v <- getitem d k ;; inl (v, ddel d k).

(** Python truthiness. *)
Definition py_truthy (v : pyval) : bool :=
  match v with
  | PNone => false
  | PBool b => b
  | PInt z => negb (Z.eqb z 0)
  | PFloat f => negb (PrimFloat.eqb f 0)
  | PStr s => negb (String.eqb s "")
  | PList l => negb (Nat.eqb (length l) 0)
  | PDict d => negb (Nat.eqb (length d) 0)
  | PGate _ | PUchan _ _ => true
  | PObject _ => true
  end.

Definition is_None (v : pyval) : bool :=
  match v with PNone => true | _ => false end.

(** ** Floating-point unit conversions *)

(** [float(z)]: round to nearest even. *)
Definition float_of_Z (z : Z) : float :=
  FloatOps.SF2Prim (SpecFloat.binary_normalize FloatOps.prec FloatOps.emax z 0 false).

(** [isinstance(v, numbers.Number)] *)
Definition is_number (v : pyval) : bool :=
  match v with PBool _ | PInt _ | PFloat _ => true | _ => false end.

(** [v * c] for a float constant [c]. *)
Definition py_mul (v : pyval) (c : float) : Res pyval :=
  match v with
  | PInt z => inl (PFloat (float_of_Z z * c)%float)
  | PFloat f => inl (PFloat (f * c)%float)
  | PBool b => inl (PFloat ((if b then 1 else 0) * c)%float)
  | _ => inr (TypeError "unsupported operand type(s) for *")
  end.

(** [[x * c for x in v]] *)
Definition scale_list (c : float) (v : pyval) : Res pyval :=
  match v with
  | PList l => l' <- mapM (fun x => py_mul x c) l ;; inl (PList l')
  | _ => inr (TypeError "object is not iterable")
  end.

(** [[[lo * c, hi * c] for (lo, hi) in v]] *)
Definition scale_pairs (c : float) (v : pyval) : Res pyval :=
  match v with
  | PList l =>
      l' <- mapM (fun x => match x with
                           | PList [lo; hi] =>
                               lo' <- py_mul lo c ;; hi' <- py_mul hi c ;; inl (PList [lo'; hi'])
                           | _ => inr (ValueError "cannot unpack")
                           end) l ;;
      inl (PList l')
  | _ => inr (TypeError "object is not iterable")
  end.


(** ** Rendering for messages *)

Fixpoint digits (fuel : nat) (n : N) (acc : string) : string :=
  match fuel with
  | O => acc
  | S f =>
      let acc' := String (ascii_of_N (48 + N.modulo n 10)) acc in
      if N.ltb n 10 then acc' else digits f (N.div n 10) acc'
  end.

(** [str(z)] for integers of at most 64 digits. *)
Definition z_str (z : Z) : string :=
  if Z.ltb z 0 then "-" ++ digits 64 (Z.to_N (- z)) "" else digits 64 (Z.to_N z) "".

(** [str(t)] of a tuple of integers. *)
Definition tuple_str (t : list Z) : string :=
  match t with
  | [] => "()"
  | [x] => "(" ++ z_str x ++ ",)"
  | x :: t' => "(" ++ fold_left (fun acc y => acc ++ ", " ++ z_str y) t' (z_str x) ++ ")"
  end.

(** [f"{v}"] for the scalar values the messages print. *)
Definition val_str (v : pyval) : string :=
  match v with
  | PInt z => z_str z
  | PStr s => s
  | PNone => "None"
  | PBool true => "True"
  | PBool false => "False"
  | _ => "<value>"
  end.

(** ** Pulse channels *)

Inductive channel :=
| DriveChannel (index : Z)
| ControlChannel (index : Z)
| MeasureChannel (index : Z)
| AcquireChannel (index : Z).

Definition channel_eqb (a b : channel) : bool :=
  match a, b with
  | DriveChannel i, DriveChannel j | ControlChannel i, ControlChannel j
  | MeasureChannel i, MeasureChannel j | AcquireChannel i, AcquireChannel j => Z.eqb i j
  | _, _ => false
  end.

Fixpoint zlist_eqb (a b : list Z) : bool :=
  match a, b with
  | [], [] => true
  | x :: a', y :: b' => Z.eqb x y && zlist_eqb a' b'
  | _, _ => false
  end.

(** A [dict] or [defaultdict(list)] keyed by [K], as an association list. *)
Fixpoint mlookup {K V} (eqb : K -> K -> bool) (m : list (K * list V)) (k : K)
  : option (list V) :=
  match m with
  | [] => None
  | (k', vs) :: m' => if eqb k k' then Some vs else mlookup eqb m' k
  end.

(** [m[k].extend(vs)] on a [defaultdict(list)] *)
Fixpoint mextend {K V} (eqb : K -> K -> bool) (m : list (K * list V)) (k : K) (vs : list V)
  : list (K * list V) :=
  match m with
  | [] => [(k, vs)]
  | (k', vs') :: m' =>
      if eqb k k' then (k', (vs' ++ vs)%list) :: m' else (k', vs') :: mextend eqb m' k vs
  end.

(** [self._control_channels]: a plain [dict] after [_parse_channels], a
    [defaultdict(list)] when the configuration has no [channels]. *)
Inductive ctrl_map :=
| PlainDict (m : list (list Z * list channel))
| DefaultDictList (m : list (list Z * list channel)).

(** The class of a configuration object. *)
Inductive pyclass := QasmClass | PulseClass.

(** A configuration object: its instance attributes, [_data] (the extra
    keyword arguments) and the channel maps [_parse_channels] builds. *)
Record obj := mk_obj {
  attrs : dict;
  _data : dict;
  _qubit_channel_map : option (list (list Z * list channel));
  _channel_qubit_map : option (list (channel * list Z));
  _control_channels : option ctrl_map;
  cls : pyclass
}.

(** A [QasmBackendConfiguration] and a [PulseBackendConfiguration] before
    [__init__] sets any attribute. *)
Definition empty_obj : obj := mk_obj [] [] None None None QasmClass.
Definition empty_pulse_obj : obj := mk_obj [] [] None None None PulseClass.

Definition setattr (o : obj) (k : string) (v : pyval) : obj :=
  mk_obj (dset o.(attrs) k v) o.(_data) o.(_qubit_channel_map) o.(_channel_qubit_map)
    o.(_control_channels) o.(cls).

(** ** Attribute lookup *)

(** The attributes every instance inherits from [object]. *)
Definition object_attrs : list string :=
  ["__class__"; "__delattr__"; "__dir__"; "__doc__"; "__eq__"; "__format__"; "__ge__";
   "__getattribute__"; "__getstate__"; "__gt__"; "__hash__"; "__init__";
   "__init_subclass__"; "__le__"; "__lt__"; "__ne__"; "__new__"; "__reduce__";
   "__reduce_ex__"; "__repr__"; "__setattr__"; "__sizeof__"; "__str__";
   "__subclasshook__"].

(** The attributes [QasmBackendConfiguration] defines or adds to those of
    [object]. *)
Definition Qasm_class_attrs : list string :=
  ["__contains__"; "__dict__"; "__doc__"; "__eq__"; "__getattr__"; "__hash__"; "__init__";
   "__module__"; "__weakref__"; "from_dict"; "num_qubits"; "to_dict"].

(** The attributes [PulseBackendConfiguration] adds to those of
    [QasmBackendConfiguration]. *)
Definition Pulse_class_attrs : list string :=
  ["_get_channel_prefix_index"; "_parse_channels"; "acquire"; "control"; "control_channels";
   "describe"; "drive"; "get_channel_qubits"; "get_qubit_channels"; "measure"; "sample_rate"].

(** The names [dir(type(o))] lists. *)
Definition class_attrs (c : pyclass) : list string :=
  object_attrs ++ Qasm_class_attrs ++
  match c with QasmClass => [] | PulseClass => Pulse_class_attrs end.

(** [QasmBackendConfiguration.__getattr__]: [self._data[name]]. *)
Definition py__getattr__ (o : obj) (k : string) : Res pyval :=
  match dget o.(_data) k with
  | Some v => inl v
  | None => inr (AttributeError ("Attribute " ++ k ++ " is not defined"))
  end.

Definition is_set {A} (m : option A) : bool :=
  match m with Some _ => true | None => false end.

(** [o.__dict__[k]]: [_data], the channel maps once set, and the
    attributes set by [__init__]. *)
Definition instance_dict_get (o : obj) (k : string) : option pyval :=
  if String.eqb k "_data" then Some (PDict o.(_data))
  else if String.eqb k "_qubit_channel_map" && is_set o.(_qubit_channel_map) then Some (PObject k)
  else if String.eqb k "_channel_qubit_map" && is_set o.(_channel_qubit_map) then Some (PObject k)
  else if String.eqb k "_control_channels" && is_set o.(_control_channels) then Some (PObject k)
  else dget o.(attrs) k.

(** The lookup of a name that is not a data descriptor of the class: the
    instance dictionary, then the class ([__hash__] is [None] there, the
    classes defining [__eq__]), then [__getattr__]. *)
Definition getattr_instance (o : obj) (k : string) : Res pyval :=
  match instance_dict_get o k with
  | Some v => inl v
  | None =>
      if String.eqb k "__hash__" then inl PNone
      else if existsb (String.eqb k) (class_attrs o.(cls)) then inl (PObject k)
      else py__getattr__ o k
  end.

(** [c / v] for a float [c]. *)
Definition py_div (c : float) (v : pyval) : Res pyval :=
  match v with
  | PFloat f =>
      if PrimFloat.eqb f 0 then inr (ZeroDivisionError "float division by zero")
      else inl (PFloat (c / f)%float)
  | PInt z =>
      if Z.eqb z 0 then inr (ZeroDivisionError "float division by zero")
      else inl (PFloat (c / float_of_Z z)%float)
  | PBool b => if b then inl (PFloat c) else inr (ZeroDivisionError "float division by zero")
  | _ => inr (TypeError "unsupported operand type(s) for /")
  end.

(** The data descriptors of the class, which come before the instance
    dictionary: the properties [num_qubits] ([self.n_qubits]) and, on a
    [PulseBackendConfiguration], [sample_rate] ([1.0 / self.dt]) and
    [control_channels] ([self._control_channels]), and [__class__],
    [__dict__] and [__weakref__] ([None] without weak references). *)
Definition data_descriptor (o : obj) (k : string) : option (Res pyval) :=
  if String.eqb k "num_qubits" then Some (getattr_instance o "n_qubits")
  else if String.eqb k "__class__" || String.eqb k "__dict__" then Some (inl (PObject k))
  else if String.eqb k "__weakref__" then Some (inl PNone)
  else match o.(cls) with
       | QasmClass => None
       | PulseClass =>
           if String.eqb k "sample_rate" then
             Some (dt <- getattr_instance o "dt" ;; py_div 1.0 dt)
           else if String.eqb k "control_channels" then
             Some (getattr_instance o "_control_channels")
           else None
       end.

(** [getattr(o, k)] *)
Definition getattr (o : obj) (k : string) : Res pyval :=
  match data_descriptor o k with
  | Some r => r
  | None => getattr_instance o k
  end.

(** [hasattr(o, k)]: only [AttributeError] counts as a missing
    attribute; other exceptions propagate. *)
Definition hasattr (o : obj) (k : string) : Res bool :=
  match getattr o k with
  | inl _ => inl true
  | inr (AttributeError _) => inl false
  | inr e => inr e
  end.

(** The lookup of an ordinary name: the attributes, then [_data]. *)
Definition getattr_plain (o : obj) (k : string) : Res pyval :=
  match dget o.(attrs) k with
  | Some v => inl v
  | None => py__getattr__ o k
  end.

(** The names [getattr] treats apart from the attributes and [_data]. *)
Definition special_names : list string :=
  object_attrs ++ Qasm_class_attrs ++ Pulse_class_attrs ++
  ["_data"; "_qubit_channel_map"; "_channel_qubit_map"; "_control_channels"].

Definition plain_name (k : string) : bool := negb (existsb (String.eqb k) special_names).

(** Whether [o] has an attribute or a [_data] entry [k]. *)
Definition has_plain (o : obj) (k : string) : bool :=
  dmem o.(attrs) k || dmem o.(_data) k.

(** ** Calls with keyword arguments *)

(** The value bound to a parameter with default [None]. *)
Definition arg (kw : dict) (k : string) : pyval :=
  match dget kw k with Some v => v | None => PNone end.

(** Python's binding of keyword arguments [kw] to [f(self, ...)], in the
    order CPython checks them: the keywords first, in order, the first one
    named [self] (already bound) or, when [f] takes no [**kwargs], not a
    parameter, raising [TypeError]; then a missing required parameter,
    also a [TypeError]. The messages leave out the function's name and
    the names of the missing parameters. *)
Definition check_call (params required : list string) (var_kw : bool) (kw : dict) : Res unit :=
  match find (fun kv => String.eqb (fst kv) "self" ||
                          negb var_kw && negb (existsb (String.eqb (fst kv)) params)) kw with
  | Some (k, _) =>
      if String.eqb k "self" then inr (TypeError "got multiple values for argument 'self'")
      else inr (TypeError ("got an unexpected keyword argument '" ++ k ++ "'"))
  | None =>
      if existsb (fun k => negb (dmem kw k)) required
      then inr (TypeError "missing required positional argument")
      else inl tt
  end.

(** The keyword arguments that fall into [**kwargs]. *)
Definition extra_kwargs (params : list string) (kw : dict) : dict :=
  filter (fun kv => negb (existsb (String.eqb (fst kv)) params)) kw.

(** ** [GateConfig] and [UchannelLO] *)

Definition GateConfig_params : list string :=
  ["name"; "parameters"; "qasm_def"; "coupling_map"; "latency_map"; "conditional";
   "description"].

(** [GateConfig.__init__] *)
Definition GateConfig_init (kw : dict) : Res pyval :=
  _ <- check_call GateConfig_params ["name"; "parameters"; "qasm_def"] false kw ;;
  let a := [("name", arg kw "name"); ("parameters", arg kw "parameters");
            ("qasm_def", arg kw "qasm_def")] in
  let a := if py_truthy (arg kw "coupling_map") then dset a "coupling_map" (arg kw "coupling_map") else a in
  let a := if py_truthy (arg kw "latency_map") then dset a "latency_map" (arg kw "latency_map") else a in
  let a := if negb (is_None (arg kw "conditional")) then dset a "conditional" (arg kw "conditional") else a in
  let a := if negb (is_None (arg kw "description")) then dset a "description" (arg kw "description") else a in
  inl (PGate a).

(** [GateConfig.from_dict]: the call of [cls] with the keys of [data] *)
Definition GateConfig_from_dict (data : pyval) : Res pyval :=
  match data with
  | PDict d => GateConfig_init d
  | _ => inr (TypeError "argument after ** must be a mapping")
  end.

(** [GateConfig.to_dict] *)
Definition GateConfig_to_dict (x : pyval) : Res pyval :=
  match x with
  | PGate a =>
      let get k := match dget a k with Some v => v | None => PNone end in
      let out := [("name", get "name"); ("parameters", get "parameters");
                  ("qasm_def", get "qasm_def")] in
      let out := fold_left (fun out k => if dmem a k then dset out k (get k) else out)
                   ["coupling_map"; "latency_map"; "conditional"; "description"] out in
      inl (PDict out)
  | _ => inr (AttributeError "object has no attribute 'to_dict'")
  end.

(** [UchannelLO.__init__] and [UchannelLO.from_dict] *)
Definition UchannelLO_init (kw : dict) : Res pyval :=
  _ <- check_call ["q"; "scale"] ["q"; "scale"] false kw ;;
  let q := arg kw "q" in
  negative <- match q with
              | PInt z => inl (Z.ltb z 0)
              | PFloat f => inl (PrimFloat.ltb f 0)
              | PBool _ => inl false
              | _ => inr (TypeError "'<' not supported")
              end ;;
  if negative then inr (QiskitError "q must be >=0") else inl (PUchan q (arg kw "scale")).

Definition UchannelLO_from_dict (data : pyval) : Res pyval :=
  match data with
  | PDict d => UchannelLO_init d
  | _ => inr (TypeError "argument after ** must be a mapping")
  end.

(** [UchannelLO.to_dict] *)
Definition UchannelLO_to_dict (x : pyval) : Res pyval :=
  match x with
  | PUchan q scale => inl (PDict [("q", q); ("scale", scale)])
  | _ => inr (AttributeError "object has no attribute 'to_dict'")
  end.

(** [[f(x) for x in v]] *)
Definition map_iter (f : pyval -> Res pyval) (v : pyval) : Res pyval :=
  match v with
  | PList l => l' <- mapM f l ;; inl (PList l')
  | _ => inr (TypeError "object is not iterable")
  end.

(** ** [QasmBackendConfiguration] *)

Definition Qasm_required : list string :=
  ["backend_name"; "backend_version"; "n_qubits"; "basis_gates"; "gates"; "local";
   "simulator"; "conditional"; "open_pulse"; "memory"; "max_shots"; "coupling_map"].

Definition Qasm_params : list string :=
  Qasm_required ++
  ["supported_instructions"; "dynamic_reprate_enabled"; "rep_delay_range";
   "default_rep_delay"; "max_experiments"; "sample_name"; "n_registers"; "register_map";
   "configurable"; "credits_required"; "online_date"; "display_name"; "description";
   "tags"; "dt"; "dtm"; "processor_type"; "parametric_pulses"].

Definition set_if (b : bool) (o : obj) (k : string) (v : pyval) : obj :=
  if b then setattr o k v else o.

(** [setattr(self, k, conv(v))] when [b] holds. *)
Definition set_conv_if (b : bool) (o : obj) (k : string) (conv : Res pyval) : Res obj :=
  if b then v <- conv ;; inl (setattr o k v) else inl o.

(** [kwargs[k] = conv(kwargs[k])] when [k in kwargs]. *)
Definition conv_kwarg (kwargs : dict) (k : string) (conv : pyval -> Res pyval) : Res dict :=
  match dget kwargs k with
  | Some v => v' <- conv v ;; inl (dset kwargs k v')
  | None => inl kwargs
  end.

(** [QasmBackendConfiguration.__init__], run on the object [o] (fresh, or
    prepared by the subclass's [__init__]) with the keyword arguments [kw]. *)
Definition Qasm_init (kw : dict) (o : obj) : Res obj :=
  _ <- check_call Qasm_params Qasm_required true kw ;;
  let a := arg kw in
  let o := mk_obj o.(attrs) [] o.(_qubit_channel_map) o.(_channel_qubit_map)
             o.(_control_channels) o.(cls) in
  let o := fold_left (fun o k => setattr o k (a k)) Qasm_required o in
  let o := set_if (py_truthy (a "supported_instructions")) o "supported_instructions"
             (a "supported_instructions") in
  let o := setattr o "dynamic_reprate_enabled"
             (match dget kw "dynamic_reprate_enabled" with Some v => v | None => PBool false end) in
  o <- set_conv_if (py_truthy (a "rep_delay_range")) o "rep_delay_range"
         (scale_list 1e-6 (a "rep_delay_range")) ;;
  o <- set_conv_if (negb (is_None (a "default_rep_delay"))) o "default_rep_delay"
         (py_mul (a "default_rep_delay") 1e-6) ;;
  let o := set_if (py_truthy (a "max_experiments")) o "max_experiments" (a "max_experiments") in
  let o := set_if (negb (is_None (a "sample_name"))) o "sample_name" (a "sample_name") in
  let o := set_if (py_truthy (a "n_registers")) o "n_registers" (PInt 1) in
  let o := set_if (py_truthy (a "register_map")) o "register_map" (a "register_map") in
  let o := fold_left (fun o k => set_if (negb (is_None (a k))) o k (a k))
             ["configurable"; "credits_required"; "online_date"; "display_name";
              "description"; "tags"] o in
  o <- set_conv_if (negb (is_None (a "dt"))) o "dt" (py_mul (a "dt") 1e-9) ;;
  o <- set_conv_if (negb (is_None (a "dtm"))) o "dtm" (py_mul (a "dtm") 1e-9) ;;
  let o := set_if (negb (is_None (a "processor_type"))) o "processor_type" (a "processor_type") in
  let o := set_if (negb (is_None (a "parametric_pulses"))) o "parametric_pulses"
             (a "parametric_pulses") in
  let kwargs := extra_kwargs Qasm_params kw in
  kwargs <- conv_kwarg kwargs "qubit_lo_range" (scale_pairs 1e9) ;;
  kwargs <- conv_kwarg kwargs "meas_lo_range" (scale_pairs 1e9) ;;
  kwargs <- conv_kwarg kwargs "rep_times" (scale_list 1e-6) ;;
  inl (mk_obj o.(attrs) (dupdate o.(_data) kwargs) o.(_qubit_channel_map)
         o.(_channel_qubit_map) o.(_control_channels) o.(cls)).

(** [QasmBackendConfiguration.from_dict] *)
Definition Qasm_from_dict (data : dict) : Res obj :=
  p <- pop data "gates" ;;
  gates <- map_iter GateConfig_from_dict (fst p) ;;
  let in_data := dset (snd p) "gates" gates in
  Qasm_init in_data empty_obj.

(** [out_dict[k] = conv(out_dict[k])] when [k in out_dict]. *)
Definition conv_key (out : dict) (k : string) (conv : pyval -> Res pyval) : Res dict :=
  conv_kwarg out k conv.

(** [out_dict[k] = conv(getattr(self, k))] when [hasattr(self, k)]. *)
Definition emit_attr (o : obj) (out : dict) (k : string) (conv : pyval -> Res pyval) : Res dict :=
  b <- hasattr o k ;;
  if b then v <- getattr o k ;; v' <- conv v ;; inl (dset out k v') else inl out.

Fixpoint emit_attrs (o : obj) (out : dict) (ks : list string) : Res dict :=
  match ks with
  | [] => inl out
  | k :: ks' => out <- emit_attr o out k inl ;; emit_attrs o out ks'
  end.

Fixpoint getattrs (o : obj) (ks : list string) : Res dict :=
  match ks with
  | [] => inl []
  | k :: ks' => v <- getattr o k ;; rest <- getattrs o ks' ;; inl ((k, v) :: rest)
  end.

(** [QasmBackendConfiguration.to_dict] *)
Definition Qasm_to_dict (o : obj) : Res dict :=
  head <- getattrs o ["backend_name"; "backend_version"; "n_qubits"; "basis_gates"] ;;
  g <- getattr o "gates" ;;
  gates <- map_iter GateConfig_to_dict g ;;
  tail <- getattrs o ["local"; "simulator"; "conditional"; "open_pulse"; "memory";
                      "max_shots"; "coupling_map"; "dynamic_reprate_enabled"] ;;
  let out := (head ++ [("gates", gates)] ++ tail)%list in
  out <- emit_attr o out "supported_instructions" inl ;;
  out <- emit_attr o out "rep_delay_range" (scale_list 1e6) ;;
  out <- emit_attr o out "default_rep_delay" (fun v => py_mul v 1e6) ;;
  out <- emit_attrs o out
           ["max_experiments"; "sample_name"; "n_registers"; "register_map"; "configurable";
            "credits_required"; "online_date"; "display_name"; "description"; "tags"; "dt";
            "dtm"; "processor_type"; "parametric_pulses"] ;;
  let out := dupdate out o.(_data) in
  out <- conv_key out "dt" (fun v => py_mul v 1e9) ;;
  out <- conv_key out "dtm" (fun v => py_mul v 1e9) ;;
  out <- conv_key out "qubit_lo_range" (scale_pairs 1e-9) ;;
  conv_key out "meas_lo_range" (scale_pairs 1e-9).

(** ** [PulseBackendConfiguration] *)

(** The regular expression [(?P<channel>[a-z]+)(?P<index>[0-9]+)] under
    [re.match]: a maximal run of lower-case letters, then of digits. *)
Fixpoint span (p : ascii -> bool) (s : string) : string * string :=
  match s with
  | EmptyString => (EmptyString, EmptyString)
  | String c s' =>
      if p c then let (a, b) := span p s' in (String c a, b) else (EmptyString, s)
  end.

Definition is_lower (c : ascii) : bool :=
  let n := nat_of_ascii c in (97 <=? n)%nat && (n <=? 122)%nat.

Definition is_digit (c : ascii) : bool :=
  let n := nat_of_ascii c in (48 <=? n)%nat && (n <=? 57)%nat.

(** [int(s)] of a string of decimal digits. *)
Definition int_of_digits (s : string) : Z :=
  fold_left (fun acc c => (10 * acc + (Z.of_nat (nat_of_ascii c) - 48))%Z) (list_ascii_of_string s) 0%Z.

(** [PulseBackendConfiguration._get_channel_prefix_index] *)
Definition _get_channel_prefix_index (channel : string) : Res (string * Z) :=
  let (letters, rest) := span is_lower channel in
  let (ds, _) := span is_digit rest in
  if String.eqb letters "" || String.eqb ds ""
  then inr (BackendConfigurationError ("Invalid channel name - '" ++ channel ++ "' found."))
  else inl (letters, int_of_digits ds).

(** [channels_dict[channel_prefix]] *)
Definition channels_dict (prefix : string) : Res (Z -> channel) :=
  if String.eqb prefix "d" then inl DriveChannel
  else if String.eqb prefix "u" then inl ControlChannel
  else if String.eqb prefix "m" then inl MeasureChannel
  else if String.eqb prefix "acquire" then inl AcquireChannel
  else inr (KeyError prefix).

(** [v[k]] for a string key [k]. *)
Definition subscript (v : pyval) (k : string) : Res pyval :=
  match v with
  | PDict d => getitem d k
  | PList _ | PStr _ => inr (TypeError "indices must be integers")
  | _ => inr (TypeError "object is not subscriptable")
  end.

(** An element of [qubits] used in a dict key: the tuple is hashed when it
    indexes [qubit_channel_map], right after [tuple(...)], so a list,
    dict or [GateConfig]/[UchannelLO] element (unhashable, the classes
    defining [__eq__]) raises [TypeError]. The model represents integer
    qubits only. *)
Definition qubit_of (q : pyval) : Res Z :=
  match q with
  | PInt z => inl z
  | PList _ | PDict _ | PGate _ | PUchan _ _ => inr (TypeError "unhashable type")
  | _ => inr (NotModelled "a qubit that is not an int")
  end.

(** [tuple(config["operates"]["qubits"])], as it is then used as a key.
    Iterating a string or a dict gives strings, of which only the empty
    tuple is represented. *)
Definition operates_qubits (config : pyval) : Res (list Z) :=
  ops <- subscript config "operates" ;;
  qs <- subscript ops "qubits" ;;
  match qs with
  | PList l => mapM qubit_of l
  | PStr "" | PDict [] => inl []
  | PStr _ | PDict _ | PObject _ => inr (NotModelled "qubits that are not a list")
  | _ => inr (TypeError "object is not iterable")
  end.

Definition channel_maps : Type :=
  (list (list Z * list channel) * list (channel * list Z) * list (list Z * list channel))%type.

(** [PulseBackendConfiguration._parse_channels] *)
Definition _parse_channels (channels : dict) : Res channel_maps :=
  fold_left
    (fun acc (entry : string * pyval) =>
       maps <- acc ;;
       let '(qubit_channel_map, channel_qubit_map, control_channels) := maps in
       let (channel, config) := entry in
       pi <- _get_channel_prefix_index channel ;;
       let (channel_prefix, index) := pi in
       channel_type <- channels_dict channel_prefix ;;
       qubits <- operates_qubits config ;;
       let qubit_channel_map :=
         mextend zlist_eqb qubit_channel_map qubits [channel_type index] in
       let channel_qubit_map :=
         mextend channel_eqb channel_qubit_map (channel_type index) qubits in
       let control_channels :=
         if String.eqb channel_prefix "u"
         then mextend zlist_eqb control_channels qubits [channel_type index]
         else control_channels in
       inl (qubit_channel_map, channel_qubit_map, control_channels))
    channels (inl ([], [], [])).

Definition Pulse_required : list string :=
  Qasm_required ++
  ["n_uchannels"; "u_channel_lo"; "meas_levels"; "qubit_lo_range"; "meas_lo_range"; "dt";
   "dtm"; "rep_times"; "meas_kernels"; "discriminators"].

Definition Pulse_params : list string :=
  Pulse_required ++
  ["hamiltonian"; "channel_bandwidth"; "acquisition_latency"; "conditional_latency";
   "meas_map"; "max_experiments"; "sample_name"; "n_registers"; "register_map";
   "configurable"; "credits_required"; "online_date"; "display_name"; "description";
   "tags"; "channels"].

(** The keyword arguments [PulseBackendConfiguration.__init__] passes by
    name to [super().__init__]. *)
Definition Pulse_super_args : list string :=
  Qasm_required ++
  ["max_experiments"; "sample_name"; "n_registers"; "register_map"; "configurable";
   "credits_required"; "online_date"; "display_name"; "description"; "tags"].

(** [{k: v * c if isinstance(v, numbers.Number) else v for k, v in vars.items()}] *)
Definition scale_vars (c : float) (vars : pyval) : Res pyval :=
  match vars with
  | PDict d =>
      d' <- mapM (fun kv => if is_number (snd kv)
                            then v <- py_mul (snd kv) c ;; inl (fst kv, v)
                            else inl kv) d ;;
      inl (PDict d')
  | _ => inr (AttributeError "object has no attribute 'items'")
  end.

(** [PulseBackendConfiguration.__init__] *)
Definition Pulse_init (kw : dict) : Res obj :=
  _ <- check_call Pulse_params Pulse_required true kw ;;
  let a := arg kw in
  let o := fold_left (fun o k => setattr o k (a k))
             ["n_uchannels"; "u_channel_lo"; "meas_levels"] empty_pulse_obj in
  o <- set_conv_if true o "qubit_lo_range" (scale_pairs 1e9 (a "qubit_lo_range")) ;;
  o <- set_conv_if true o "meas_lo_range" (scale_pairs 1e9 (a "meas_lo_range")) ;;
  let o := setattr o "meas_kernels" (a "meas_kernels") in
  let o := setattr o "discriminators" (a "discriminators") in
  let o := setattr o "hamiltonian" (a "hamiltonian") in
  o <- (match a "hamiltonian" with
        | PNone => inl o
        | PDict h =>
            vars <- getitem h "vars" ;;
            vars' <- scale_vars 1e9 vars ;;
            inl (setattr o "hamiltonian" (PDict (dset h "vars" vars')))
        | _ => inr (TypeError "cannot convert to dict")
        end) ;;
  o <- set_conv_if true o "rep_times" (scale_list 1e-6 (a "rep_times")) ;;
  o <- set_conv_if true o "dt" (py_mul (a "dt") 1e-9) ;;
  o <- set_conv_if true o "dtm" (py_mul (a "dtm") 1e-9) ;;
  o <- (match a "channels" with
        | PNone => inl (mk_obj o.(attrs) o.(_data) o.(_qubit_channel_map)
                         o.(_channel_qubit_map) (Some (DefaultDictList [])) o.(cls))
        | PDict channels =>
            let o := setattr o "channels" (PDict channels) in
            maps <- _parse_channels channels ;;
            let '(qcm, cqm, cc) := maps in
            inl (mk_obj o.(attrs) o.(_data) (Some qcm) (Some cqm) (Some (PlainDict cc)) o.(cls))
        | _ => inr (AttributeError "object has no attribute 'items'")
        end) ;;
  o <- set_conv_if (negb (is_None (a "channel_bandwidth"))) o "channel_bandwidth"
         (scale_pairs 1e9 (a "channel_bandwidth")) ;;
  let o := fold_left (fun o k => set_if (negb (is_None (a k))) o k (a k))
             ["acquisition_latency"; "conditional_latency"; "meas_map"] o in
  let super_kw := (map (fun k => (k, a k)) Pulse_super_args ++
                   extra_kwargs Pulse_params kw)%list in
  Qasm_init super_kw o.

(** [PulseBackendConfiguration.from_dict] *)
Definition Pulse_from_dict (data : dict) : Res obj :=
  p <- pop data "gates" ;;
  gates <- map_iter GateConfig_from_dict (fst p) ;;
  let in_data := dset (snd p) "gates" gates in
  p <- pop in_data "u_channel_lo" ;;
  u_channels <- map_iter (map_iter UchannelLO_from_dict) (fst p) ;;
  let in_data := dset (snd p) "u_channel_lo" u_channels in
  Pulse_init in_data.

(** [out_dict[k] *= c] *)
Definition mul_key (out : dict) (k : string) (c : float) : Res dict :=
  v <- getitem out k ;; v' <- py_mul v c ;; inl (dset out k v').

(** [PulseBackendConfiguration.to_dict] *)
Definition Pulse_to_dict (o : obj) : Res dict :=
  out <- Qasm_to_dict o ;;
  ucl <- getattr o "u_channel_lo" ;;
  u_channel_lo <- map_iter (map_iter UchannelLO_to_dict) ucl ;;
  upd <- getattrs o ["n_uchannels"] ;;
  upd2 <- getattrs o ["meas_levels"; "qubit_lo_range"; "meas_lo_range"; "meas_kernels";
                      "discriminators"; "rep_times"; "dt"; "dtm"] ;;
  let out := dupdate out ((upd ++ [("u_channel_lo", u_channel_lo)]) ++ upd2)%list in
  out <- emit_attrs o out ["channel_bandwidth"; "meas_map"; "acquisition_latency";
                           "conditional_latency"] ;;
  out <- (if dmem out "channels"
          then p <- pop out "_qubit_channel_map" ;; p <- pop (snd p) "_channel_qubit_map" ;;
               p <- pop (snd p) "_control_channels" ;; inl (snd p)
          else inl out) ;;
  qlr <- getattr o "qubit_lo_range" ;;
  out <- (if py_truthy qlr then v <- scale_pairs 1e-9 qlr ;; inl (dset out "qubit_lo_range" v)
          else inl out) ;;
  mlr <- getattr o "meas_lo_range" ;;
  out <- (if py_truthy mlr then v <- scale_pairs 1e-9 mlr ;; inl (dset out "meas_lo_range" v)
          else inl out) ;;
  rt <- getattr o "rep_times" ;;
  out <- (if py_truthy rt then v <- scale_list 1e6 rt ;; inl (dset out "rep_times" v)
          else inl out) ;;
  out <- mul_key out "dt" 1e9 ;;
  out <- mul_key out "dtm" 1e9 ;;
  out <- emit_attr o out "channel_bandwidth" (scale_pairs 1e-9) ;;
  h <- getattr o "hamiltonian" ;;
  out <- (if py_truthy h
          then match h with
               | PDict hd =>
                   vars <- getitem hd "vars" ;;
                   vars' <- scale_vars 1e-9 vars ;;
                   inl (dset out "hamiltonian" (PDict (dset hd "vars" vars')))
               | _ => inr (TypeError "'hamiltonian' is not a dict")
               end
          else inl out) ;;
  emit_attr o out "channels" inl.

(** ** Channel lookups *)

Definition qubit_index_channel (mk : Z -> channel) (what : string) (o : obj) (qubit : Z)
  : Res channel :=
  let err := inr (BackendConfigurationError ("Invalid index for " ++ z_str qubit ++ what)) in
  if Z.leb 0 qubit then
    n <- getattr o "n_qubits" ;;
    match n with
    | PInt n_qubits => if Z.ltb qubit n_qubits then inl (mk qubit) else err
    | _ => inr (TypeError "'<' not supported")
    end
  else err.

(** [PulseBackendConfiguration.drive], [.measure] and [.acquire] *)
Definition drive : obj -> Z -> Res channel :=
  qubit_index_channel DriveChannel "-qubit system.".
Definition measure : obj -> Z -> Res channel :=
  qubit_index_channel MeasureChannel "-qubit system.".
Definition acquire : obj -> Z -> Res channel :=
  qubit_index_channel AcquireChannel "-qubit systems.".

(** [PulseBackendConfiguration.control]; a miss on the [defaultdict]
    inserts the empty list under the key. *)
Definition control (o : obj) (qubits : list Z) : Res (list channel) * obj :=
  match o.(_control_channels) with
  | None =>
      let name := match getattr o "backend_name" with inl v => val_str v | inr _ => "" end in
      (inr (BackendConfigurationError
              ("This backend - '" ++ name ++ "' does not provide channel information.")), o)
  | Some (PlainDict m) =>
      match mlookup zlist_eqb m qubits with
      | Some cs => (inl cs, o)
      | None =>
          let n := match getattr o "n_qubits" with inl v => val_str v | inr _ => "" end in
          (inr (BackendConfigurationError
                  ("Couldn't find the ControlChannel operating on qubits " ++ tuple_str qubits ++
                   " on " ++ n ++ "-qubit system. The ControlChannel information is retrieved " ++
                   "from the backend.")), o)
      end
  | Some (DefaultDictList m) =>
      match mlookup zlist_eqb m qubits with
      | Some cs => (inl cs, o)
      | None =>
          (inl [], mk_obj o.(attrs) o.(_data) o.(_qubit_channel_map) o.(_channel_qubit_map)
                     (Some (DefaultDictList (m ++ [(qubits, [])])%list)) o.(cls))
      end
  end.

(** ** Membership and channel-map lookups *)

(** [QasmBackendConfiguration.__contains__]: [item in self.__dict__], the
    instance attributes, [_data] and the channel maps set on the object. *)
Definition contains (o : obj) (item : string) : bool :=
  dmem o.(attrs) item || String.eqb item "_data" ||
  (String.eqb item "_qubit_channel_map" &&
     match o.(_qubit_channel_map) with Some _ => true | None => false end) ||
  (String.eqb item "_channel_qubit_map" &&
     match o.(_channel_qubit_map) with Some _ => true | None => false end) ||
  (String.eqb item "_control_channels" &&
     match o.(_control_channels) with Some _ => true | None => false end).

(** [repr] of a channel, as [f"{channel}"] prints it. *)
Definition channel_str (c : channel) : string :=
  match c with
  | DriveChannel i => "DriveChannel(" ++ z_str i ++ ")"
  | ControlChannel i => "ControlChannel(" ++ z_str i ++ ")"
  | MeasureChannel i => "MeasureChannel(" ++ z_str i ++ ")"
  | AcquireChannel i => "AcquireChannel(" ++ z_str i ++ ")"
  end.

(** The [BackendConfigurationError] raised when reading a channel map gives
    [AttributeError]. *)
Definition no_channel_information (o : obj) : pyerror :=
  let name := match getattr o "backend_name" with inl v => val_str v | inr _ => "" end in
  BackendConfigurationError
    ("This backend - '" ++ name ++ "' does not provide channel information.").

(** [PulseBackendConfiguration.get_channel_qubits]. Without a channel map
    the read of [self._channel_qubit_map] goes through [__getattr__] to
    [_data]: a dict found there has string keys, so the channel is a
    missing key, and other values cannot be subscripted by a channel. *)
Definition get_channel_qubits (o : obj) (c : channel) : Res (list Z) :=
  let not_found := inr (BackendConfigurationError ("Couldn't find the Channel - " ++ channel_str c)) in
  match o.(_channel_qubit_map) with
  | Some m => match mlookup channel_eqb m c with Some qs => inl qs | None => not_found end
  | None =>
      match dget o.(_data) "_channel_qubit_map" with
      | None => inr (no_channel_information o)
      | Some (PDict _) => not_found
      | Some _ => inr (TypeError "object is not subscriptable")
      end
  end.

(** The argument of [get_qubit_channels]: an [int], a [list] or a [tuple]. *)
Inductive qubit_arg :=
| QInt (q : Z)
| QList (qs : list Z)
| QTuple (qs : list Z).

(** [s.update(cs)] on a [set] of channels. The set is kept as a list
    without duplicates in insertion order; [list(s)] orders a Python set by
    hash, so the properties below speak of its members only. *)
Definition set_update (s cs : list channel) : list channel :=
  fold_left (fun s c => if existsb (channel_eqb c) s then s else (s ++ [c])%list) cs s.

(** [PulseBackendConfiguration.get_qubit_channels]. Without a channel map
    the read of [self._qubit_channel_map] goes through [__getattr__] to
    [_data], as in [get_channel_qubits]. For an integer qubit an empty
    dict found there yields no channel, a non-empty one has string keys on
    which [qubit in key] raises [TypeError], and other values have no
    [.items()] ([AttributeError]); for a tuple a dict misses the key and
    other values cannot be subscripted by it. *)
Definition get_qubit_channels (o : obj) (qubit : qubit_arg) : Res (list channel) :=
  match qubit with
  | QInt q =>
      let not_found := inr (BackendConfigurationError ("Couldn't find the qubit - " ++ z_str q)) in
      match o.(_qubit_channel_map) with
      | Some m =>
          let channels :=
            fold_left (fun s kv => if existsb (Z.eqb q) (fst kv) then set_update s (snd kv) else s)
              m [] in
          if Nat.eqb (length channels) 0 then not_found else inl channels
      | None =>
          match dget o.(_data) "_qubit_channel_map" with
          | Some (PDict []) => not_found
          | Some (PDict _) => inr (TypeError "'in <string>' requires string as left operand, not int")
          | _ => inr (no_channel_information o)
          end
      end
  | QList qs | QTuple qs =>
      let not_found := inr (BackendConfigurationError ("Couldn't find the qubit - " ++ tuple_str qs)) in
      match o.(_qubit_channel_map) with
      | Some m =>
          match mlookup zlist_eqb m qs with Some cs => inl (set_update [] cs) | None => not_found end
      | None =>
          match dget o.(_data) "_qubit_channel_map" with
          | None => inr (no_channel_information o)
          | Some (PDict _) => not_found
          | Some _ => inr (TypeError "object is not subscriptable")
          end
      end
  end.

(** ** [describe] *)

(** The exceptions [describe] raises: those of the configuration code, the
    [IndexError] of a list subscript and the [PulseError] of a channel
    constructor. *)
Inductive describe_error :=
| DescribeError (e : pyerror)
| IndexError (msg : string)
| PulseError (msg : string).

(** [l[i]] on a Python list. *)
Definition list_index {A} (l : list A) (i : Z) : option A :=
  let n := Z.of_nat (length l) in
  if (i <? - n)%Z || (n <=? i)%Z then None
  else nth_error l (Z.to_nat (if (i <? 0)%Z then i + n else i)%Z).

(** [DriveChannel(q)]: the channel constructor takes a nonnegative integer
    index ([True] and [False] are the integers 1 and 0). *)
Definition drive_channel_of (q : pyval) : option channel :=
  match q with
  | PInt z => if (0 <=? z)%Z then Some (DriveChannel z) else None
  | PBool b => Some (DriveChannel (if b then 1 else 0)%Z)
  | _ => None
  end.

(** [result[c] = v] on a dict keyed by channels. *)
Fixpoint cset (m : list (channel * pyval)) (c : channel) (v : pyval) : list (channel * pyval) :=
  match m with
  | [] => [(c, v)]
  | (c', v') :: m' => if channel_eqb c c' then (c', v) :: m' else (c', v') :: cset m' c v
  end.

(** [PulseBackendConfiguration.describe]. [from_dict] stores
    [u_channel_lo] as a list of lists of [UchannelLO]; any other value is
    reported as not subscriptable. *)
Definition describe (o : obj) (c : channel) : (list (channel * pyval) + describe_error)%type :=
  match c with
  | ControlChannel index =>
      match getattr o "u_channel_lo" with
      | inr e => inr (DescribeError e)
      | inl (PList ucl) =>
          match list_index ucl index with
          | None => inr (IndexError "list index out of range")
          | Some (PList us) =>
              fold_left
                (fun acc u =>
                   match acc with
                   | inr e => inr e
                   | inl result =>
                       match u with
                       | PUchan q scale =>
                           match drive_channel_of q with
                           | Some d => inl (cset result d scale)
                           | None => inr (PulseError "Channel index must be a nonnegative integer")
                           end
                       | _ => inr (DescribeError (AttributeError "object has no attribute 'q'"))
                       end
                   end) us (inl [])
          | Some _ => inr (DescribeError (TypeError "object is not iterable"))
          end
      | inl _ => inr (DescribeError (TypeError "object is not subscriptable"))
      end
  | _ => inr (DescribeError (BackendConfigurationError "Can only describe ControlChannels."))
  end.

(** ** Helpers for stating properties *)

(** The fields of an object other than its attributes. *)
Definition rest (o : obj) :=
  (_data o, _qubit_channel_map o, _channel_qubit_map o, _control_channels o, cls o).

(** [getattr(self, k)], with [None] where it raises. *)
Definition attr_value (o : obj) (k : string) : pyval :=
  match getattr o k with inl v => v | inr _ => PNone end.

(** A list of [[lo, hi]] float pairs, as in [qubit_lo_range]. *)
Definition float_pairs (l : list (float * float)) : pyval :=
  PList (map (fun p => PList [PFloat (fst p); PFloat (snd p)]) l).

(** Both bounds of each pair multiplied by [c]. *)
Definition scale_float_pairs (c : float) (l : list (float * float)) : list (float * float) :=
  map (fun p => (fst p * c, snd p * c)%float) l.

(** A list of floats, as in [rep_times]. *)
Definition float_list (l : list float) : pyval := PList (map PFloat l).

(** One iteration of the loop of [_parse_channels]: the prefix, the
    channel and the qubits of an entry of [channels]. *)
Definition parse_entry (entry : string * pyval) : Res (string * channel * list Z) :=
  let (channel, config) := entry in
  pi <- _get_channel_prefix_index channel ;;
  let (channel_prefix, index) := pi in
  channel_type <- channels_dict channel_prefix ;;
  qubits <- operates_qubits config ;;
  inl (channel_prefix, channel_type index, qubits).

(** [result[c]] on a dict keyed by channels, with [None] for a missing key. *)
Fixpoint clookup (m : list (channel * pyval)) (c : channel) : option pyval :=
  match m with
  | [] => None
  | (c', v) :: m' => if channel_eqb c c' then Some v else clookup m' c
  end.


(** Every character of [s] satisfies [p]. *)
Fixpoint all_chars (p : ascii -> bool) (s : string) : bool :=
  match s with
  | EmptyString => true
  | String c s' => p c && all_chars p s'
  end.


End BackendConfiguration.

(** ** Concrete transports used to exercise the job model *)
Module JobFixtures.

Import RuntimeJobV2.
Local Open Scope string_scope.

(** The server reports FAILED with the max-execution-time reason code. *)
Definition tr_max_time : transport :=
  mk_transport (fun _ => mk_response "FAILED" (Some "ran too long") (Some 1305%Z) None)
    (fun _ => 0%Z) None ApiOk.

(** The server reports COMPLETED with a payload. *)
Definition tr_done (payload : option string) : transport :=
  mk_transport (fun _ => mk_response "COMPLETED" None None None)
    (fun _ => 0%Z) payload ApiOk.

(** Instantaneous round trips; RUNNING for the first [k - 1] polls and
    COMPLETED from poll [k] on. *)
Definition tr_after (k : nat) : transport :=
  mk_transport
    (fun i => if (i <? k - 1)%nat then mk_response "RUNNING" None None None
              else mk_response "COMPLETED" None None None)
    (fun _ => 0%Z) None ApiOk.

(** Round trips of one second; RUNNING on the first poll, COMPLETED after. *)
Definition tr_slow : transport :=
  mk_transport
    (fun i => if (i <? 1)%nat then mk_response "RUNNING" None None None
              else mk_response "COMPLETED" None None None)
    (fun _ => 1000%Z) None ApiOk.

(** A decoder that returns the payload itself. *)
Definition id_decoder : decoder string := fun s => inl s.

End JobFixtures.

(** ** Concrete configurations used to exercise the configuration model *)
Module ConfigFixtures.

Import BackendConfiguration.
Local Open Scope string_scope.

(** The [channels] entry of a channel operating on [qs]. *)
Definition operates (qs : list Z) (purpose : string) (type_ : string) : pyval :=
  PDict [("operates", PDict [("qubits", PList (map PInt qs))]); ("purpose", PStr purpose);
         ("type", PStr type_)].

Definition channels_d0_u1 : pyval :=
  PDict [("d0", operates [0%Z] "drive" "drive");
         ("u1", operates [0%Z; 1%Z] "cross-resonance" "control")].

(** A two-qubit backend in wire format, with a given [n_registers]. *)
Definition qasm_wire (n_registers : pyval) : dict :=
  [("backend_name", PStr "fake_2q"); ("backend_version", PStr "1.0.0"); ("n_qubits", PInt 2);
   ("basis_gates", PList [PStr "cx"; PStr "x"]);
   ("gates", PList [PDict [("name", PStr "cx"); ("parameters", PList []);
                           ("qasm_def", PStr "gate cx c,t { CX c,t; }");
                           ("coupling_map", PList [PList [PInt 0; PInt 1]])]]);
   ("local", PBool false); ("simulator", PBool false); ("conditional", PBool false);
   ("open_pulse", PBool true); ("memory", PBool true); ("max_shots", PInt 8192);
   ("coupling_map", PList [PList [PInt 0; PInt 1]]); ("n_registers", n_registers)].

(** The same backend with the OpenPulse fields, a given [dt] (ns) and extra keys. *)
Definition pulse_wire (dt : float) (extra : dict) : dict :=
  (qasm_wire (PInt 1) ++
   [("n_uchannels", PInt 1);
    ("u_channel_lo", PList [PList [PDict [("q", PInt 1); ("scale", PList [PFloat 1; PFloat 0])]]]);
    ("meas_levels", PList [PInt 1; PInt 2]);
    ("qubit_lo_range", float_pairs [(4.5, 5.5)%float]);
    ("meas_lo_range", float_pairs [(6.5, 7.0)%float]);
    ("dt", PFloat dt); ("dtm", PFloat 0.222); ("rep_times", PList [PFloat 1000]);
    ("meas_kernels", PList [PStr "boxcar"]); ("discriminators", PList [PStr "max_1Q_fidelity"])]
   ++ extra)%list.

(** The object or dictionary a call returns ([empty_obj] or [[]] where it raises). *)
Definition cfg_of (r : Res obj) : obj := match r with inl o => o | inr _ => empty_obj end.
Definition dict_of (r : Res dict) : dict := match r with inl d => d | inr _ => [] end.

Definition wire_dt_0222 : dict := pulse_wire 0.222 [].
Definition wire_dt_01 : dict := pulse_wire 0.1 [].
Definition wire_channels : dict := pulse_wire 0.222 [("channels", channels_d0_u1)].

Definition cfg_plain : obj := cfg_of (Pulse_from_dict wire_dt_0222).
Definition cfg_dt_01 : obj := cfg_of (Pulse_from_dict wire_dt_01).
Definition cfg_channels : obj := cfg_of (Pulse_from_dict wire_channels).

(** The plain backend with a key neither [__init__] knows. *)
Definition wire_custom : dict := pulse_wire 0.222 [("custom_field", PStr "kept")].
Definition cfg_custom : obj := cfg_of (Pulse_from_dict wire_custom).
Definition qasm_cfg_5 : obj := cfg_of (Qasm_from_dict (qasm_wire (PInt 5))).
Definition qasm_cfg_0 : obj := cfg_of (Qasm_from_dict (qasm_wire (PInt 0))).

(** A [GateConfig] in wire format. *)
Definition gate_cx : dict :=
  [("name", PStr "cx"); ("parameters", PList []); ("qasm_def", PStr "gate cx c,t { CX c,t; }");
   ("coupling_map", PList [PList [PInt 0; PInt 1]])].

(** [UchannelLO] entries in wire format. *)
Definition uchan_q1 : dict := [("q", PInt 1); ("scale", PList [PFloat 1; PFloat 0])].
Definition uchan_neg : dict := [("q", PInt (-1)); ("scale", PList [PFloat 1; PFloat 0])].

(** The two-qubit backend with the converted ranges and a key the model
    does not know. *)
Definition qasm_wire_extra : dict :=
  (qasm_wire (PInt 0) ++
   [("qubit_lo_range", float_pairs [(4.5, 5.5)%float]); ("rep_times", float_list [1000%float]);
    ("custom_field", PStr "kept")])%list.
Definition qasm_cfg_extra : obj := cfg_of (Qasm_from_dict qasm_wire_extra).

(** The entries of [channels_d0_u1], and the [u_channel_lo] of the fixtures. *)
Definition channels_d0_u1_dict : dict :=
  match channels_d0_u1 with PDict d => d | _ => [] end.
Definition ucl_channels : list pyval := [PList [PDict uchan_q1]].

End ConfigFixtures.

Module JobFacts.

Import RuntimeJobV2.
Local Open Scope string_scope.

Example status_from_response_completed :
  _status_from_job_response (new_job 0) (mk_response "completed" None None None) = "DONE".
Proof. reflexivity. Qed.

Example status_from_response_cancelled_1305 :
  _status_from_job_response (mk_job "RUNNING" None (Some 1305%Z) None 1 0)
    (mk_response "Cancelled" None None None) = "ERROR".
Proof. reflexivity. Qed.

(** C1: for every response and every recorded reason code,
    [_status_from_job_response] maps the upper-cased server status
    QUEUED, RUNNING, COMPLETED, FAILED, CANCELLED to QUEUED, RUNNING,
    DONE, ERROR, CANCELLED, passes any other upper-cased string through
    unchanged, and turns CANCELLED into ERROR exactly when the recorded
    reason code is 1305. *)
Theorem status_from_job_response_table (j : job) (r : response) :
  _status_from_job_response j r = spec_mapped_status j.(_reason_code) (upper r.(resp_status)).
Proof.
  unfold _status_from_job_response, spec_mapped_status; simpl.
  destruct (String.eqb (upper (resp_status r)) "QUEUED"); [reflexivity|].
  destruct (String.eqb (upper (resp_status r)) "RUNNING"); [reflexivity|].
  destruct (String.eqb (upper (resp_status r)) "COMPLETED"); [reflexivity|].
  destruct (String.eqb (upper (resp_status r)) "FAILED"); [reflexivity|].
  destruct (String.eqb (upper (resp_status r)) "CANCELLED"); [|reflexivity].
  simpl. destruct (is_1305 (_reason_code j)); reflexivity.
Qed.

(** ** Status refresh and the wait loop *)

Lemma status_eq (tr : transport) (j : job) :
  status tr j = (inl (_status (_set_status_and_error_message tr j)),
                 _set_status_and_error_message tr j).
Proof. reflexivity. Qed.

Lemma set_status_final (tr : transport) (j : job) :
  in_final_states (_status j) = true -> _set_status_and_error_message tr j = j.
Proof. intros H. unfold _set_status_and_error_message. rewrite H. reflexivity. Qed.

Lemma set_status_polls (tr : transport) (j : job) :
  in_final_states (_status j) = false ->
  polls (_set_status_and_error_message tr j) = S (polls j).
Proof. intros H. unfold _set_status_and_error_message. rewrite H. reflexivity. Qed.

Lemma in_final_states_cases (s : string) :
  in_final_states s = true -> s = "DONE" \/ s = "CANCELLED" \/ s = "ERROR".
Proof.
  unfold in_final_states; simpl.
  destruct (String.eqb_spec s "DONE"); [auto|].
  destruct (String.eqb_spec s "CANCELLED"); [auto|].
  destruct (String.eqb_spec s "ERROR"); [auto|].
  discriminate.
Qed.

Lemma wait_loop_final (tr : transport) (fuel : nat) :
  forall timeout start st j j',
  st = _status j ->
  wait_loop tr fuel timeout start st j = (inl tt, j') ->
  in_final_states (_status j') = true.
Proof.
  induction fuel as [|fuel IH]; intros timeout start st j j' Hst Hrun; simpl in Hrun.
  - destruct (in_final_states st) eqn:E; [|discriminate].
    injection Hrun as <-. subst st. exact E.
  - destruct (in_final_states st) eqn:E.
    + injection Hrun as <-. subst st. exact E.
    + unfold bind, gets, modify in Hrun.
      destruct timeout as [tmo|].
      * destruct (Z.leb tmo (now j - start)); [discriminate|].
        rewrite status_eq in Hrun. eapply IH; [reflexivity|exact Hrun].
      * rewrite status_eq in Hrun. eapply IH; [reflexivity|exact Hrun].
Qed.

Lemma wait_final (tr : transport) fuel timeout j j' :
  wait_for_final_state tr fuel timeout j = (inl tt, j') ->
  in_final_states (_status j') = true.
Proof.
  unfold wait_for_final_state, bind, gets. rewrite status_eq.
  intros H. eapply wait_loop_final; [reflexivity|exact H].
Qed.

Lemma result_after_wait_eq (tr : transport) job_id R dflt fuel timeout
      (dec : option (decoder R)) j j1 :
  wait_for_final_state tr fuel timeout j = (inl tt, j1) ->
  result tr job_id R dflt fuel timeout dec j =
  result_after_wait tr job_id R (match dec with Some d => d | None => dflt end) j1.
Proof. intros H. unfold result, bind. rewrite H. reflexivity. Qed.

(** Errors that report the job's final state. *)
Definition final_state_error (e : error) : bool :=
  match e with
  | RuntimeJobFailureError _ | RuntimeJobMaxTimeoutError _
  | RuntimeInvalidStateError _ => true
  | _ => false
  end.

(** C2: once [wait_for_final_state] has returned, [result()] raises
    [RuntimeJobMaxTimeoutError] on ERROR with reason code 1305,
    [RuntimeJobFailureError] with the server's message on ERROR with any
    other reason code, [RuntimeInvalidStateError] on CANCELLED, and none
    of the three on DONE; these cases are exhaustive. *)
Theorem result_final_state_errors (tr : transport) job_id R dflt fuel timeout
      (dec : option (decoder R)) (j j1 : job)
      (Hwait : wait_for_final_state tr fuel timeout j = (inl tt, j1)) :
  let out := fst (result tr job_id R dflt fuel timeout dec j) in
  (_status j1 = "ERROR" /\ is_1305 (_reason_code j1) = true /\
     out = inr (RuntimeJobMaxTimeoutError (error_message_of j1))) \/
  (_status j1 = "ERROR" /\ is_1305 (_reason_code j1) = false /\
     out = inr (RuntimeJobFailureError
                  ("Unable to retrieve job result. " ++ error_message_of j1))) \/
  (_status j1 = "CANCELLED" /\ exists m, out = inr (RuntimeInvalidStateError m)) \/
  (_status j1 = "DONE" /\ forall e, out = inr e -> final_state_error e = false).
Proof.
  cbv zeta. rewrite (result_after_wait_eq _ _ _ _ _ _ _ _ _ Hwait).
  set (d := match dec with Some d => d | None => dflt end).
  destruct (in_final_states_cases _ (wait_final _ _ _ _ _ Hwait)) as [E|[E|E]];
    unfold result_after_wait, bind, gets; rewrite E; simpl.
  - right; right; right. split; [reflexivity|].
    destruct (truthy (job_results tr)).
    + unfold decode_result. destruct (d (py_str (job_results tr))); simpl;
        intros e He; [discriminate|injection He as <-; reflexivity].
    + simpl. intros e He; discriminate.
  - right; right; left. split; [reflexivity|]. eexists. reflexivity.
  - destruct (is_1305 (_reason_code j1)) eqn:R1.
    + left. auto.
    + right; left. auto.
Qed.

Lemma status_from_response_reason_code (j j' : job) (r : response) :
  _reason_code j = _reason_code j' ->
  _status_from_job_response j r = _status_from_job_response j' r.
Proof. intros H. unfold _status_from_job_response. rewrite H. reflexivity. Qed.

(** A poll of a job not in a final state: one round trip, whose response
    is recorded and mapped, and whose duration is added to the clock. *)
Lemma status_poll (tr : transport) (j : job) :
  in_final_states (_status j) = false ->
  status tr j =
    (inl (polled_status (job_get tr (polls j))),
     mk_job (polled_status (job_get tr (polls j)))
            (resp_reason (job_get tr (polls j)))
            (resp_reason_code (job_get tr (polls j)))
            (resp_error_message (job_get tr (polls j)))
            (S (polls j)) (now j + rtt tr (polls j))%Z).
Proof.
  intros F. rewrite status_eq. unfold _set_status_and_error_message. rewrite F.
  unfold polled_status.
  rewrite (status_from_response_reason_code
             (mk_job (_status j) (resp_reason (job_get tr (polls j)))
                (resp_reason_code (job_get tr (polls j)))
                (resp_error_message (job_get tr (polls j))) (S (polls j))
                (now j + rtt tr (polls j))%Z)
             (mk_job "INITIALIZING" None (resp_reason_code (job_get tr (polls j))) None 0 0)
             _ eq_refl).
  reflexivity.
Qed.

Lemma wait_loop_step (tr : transport) fuel timeout start st (j : job) :
  in_final_states st = false ->
  wait_loop tr (S fuel) timeout start st j =
  match timeout with
  | Some tmo =>
      if Z.leb tmo (now j - start) then (inr (RuntimeJobTimeoutError timeout), j)
      else match status tr (sleep 100 j) with
           | (inl st', j2) => wait_loop tr fuel timeout start st' j2
           | (inr e, j2) => (inr e, j2)
           end
  | None =>
      match status tr (sleep 100 j) with
      | (inl st', j2) => wait_loop tr fuel timeout start st' j2
      | (inr e, j2) => (inr e, j2)
      end
  end.
Proof.
  intros F. cbn [wait_loop]. rewrite F. unfold bind, gets, modify.
  destruct timeout; [destruct (Z.leb _ _)|]; reflexivity.
Qed.

Lemma elapsed_after_S (tr : transport) (p n : nat) :
  (1 <= n)%nat ->
  elapsed_after tr p (S n) = (elapsed_after tr p n + 100 + rtt tr (p + n))%Z.
Proof. intros H. unfold elapsed_after. cbn [request_time]. lia. Qed.

Lemma elapsed_after_zero_latency (tr : transport) (p n : nat) :
  (forall i, rtt tr i = 0%Z) -> elapsed_after tr p n = (100 * (Z.of_nat n - 1))%Z.
Proof.
  intros H. unfold elapsed_after.
  assert (R : request_time tr p n = 0%Z)
    by (induction n as [|n IH]; [reflexivity|cbn [request_time]; rewrite IH, H; reflexivity]).
  rewrite R. lia.
Qed.

Section Timeline.

Variable tr : transport.
Variable timeout : option Z.
Variables (p k : nat) (start : Z).
Hypothesis Hrun : forall i, (i < k - 1)%nat ->
  in_final_states (polled_status (job_get tr (p + i))) = false.
Hypothesis Hfin : in_final_states (polled_status (job_get tr (p + (k - 1)))) = true.

(** The first non-terminal poll, among those numbered [n .. n + m - 1],
    after which the timeout has elapsed. *)
Definition timeout_poll (n m : nat) : option nat :=
  match timeout with
  | Some T => find (fun x => (T <=? elapsed_after tr p x)%Z) (seq n m)
  | None => None
  end.

(** The loop entered after the [n]-th poll. *)
Lemma wait_loop_timeline :
  forall m n fuel j,
  (n + m = k)%nat -> (1 <= n)%nat -> (m <= fuel)%nat ->
  polls j = (p + n)%nat -> now j = (start + elapsed_after tr p n)%Z ->
  _status j = polled_status (job_get tr (p + (n - 1))) ->
  let (out, j') := wait_loop tr fuel timeout start (_status j) j in
  match timeout_poll n m with
  | Some x => out = inr (RuntimeJobTimeoutError timeout) /\ polls j' = (p + x)%nat /\
              now j' = (start + elapsed_after tr p x)%Z
  | None => out = inl tt /\ polls j' = (p + k)%nat /\
            now j' = (start + elapsed_after tr p k)%Z /\
            _status j' = polled_status (job_get tr (p + (k - 1)))
  end.
Proof.
  induction m as [|m IH]; intros n fuel j Hk Hn Hf Hp Hnow Hs.
  - assert (E : n = k) by lia. subst n.
    assert (F : in_final_states (_status j) = true) by (rewrite Hs; exact Hfin).
    unfold timeout_poll. destruct fuel; cbn [wait_loop]; rewrite F; unfold ret;
      (destruct timeout; cbn [seq find]); repeat split; try reflexivity; assumption.
  - destruct fuel as [|fuel]; [lia|].
    assert (F : in_final_states (_status j) = false)
      by (rewrite Hs; apply Hrun; lia).
    rewrite (wait_loop_step tr fuel timeout start _ j F).
    assert (Hsl : in_final_states (_status (sleep 100 j)) = false) by exact F.
    set (j2 := mk_job (polled_status (job_get tr (p + n)))
                 (resp_reason (job_get tr (p + n))) (resp_reason_code (job_get tr (p + n)))
                 (resp_error_message (job_get tr (p + n))) (S (p + n))
                 (now j + 100 + rtt tr (p + n))%Z).
    assert (Step : forall T',
      match status tr (sleep 100 j) with
      | (inl st', j3) => wait_loop tr fuel T' start st' j3
      | (inr e, j3) => (inr e, j3)
      end = wait_loop tr fuel T' start (_status j2) j2).
    { intros T'. rewrite (status_poll tr (sleep 100 j) Hsl). cbn [polls now sleep].
      rewrite Hp. reflexivity. }
    pose proof (IH (S n) fuel j2 ltac:(lia) ltac:(lia) ltac:(lia) ltac:(unfold j2; cbn [polls]; lia)
                  ltac:(unfold j2; cbn [now]; rewrite Hnow, elapsed_after_S by exact Hn; lia)
                  ltac:(unfold j2; cbn [_status]; f_equal; f_equal; lia)) as IH2.
    unfold timeout_poll in IH2 |- *.
    destruct timeout as [T|].
    + cbn [seq find]. rewrite Hnow.
      replace (start + elapsed_after tr p n - start)%Z with (elapsed_after tr p n) by lia.
      destruct (T <=? elapsed_after tr p n)%Z.
      * repeat split; [exact Hp|exact Hnow].
      * rewrite Step. exact IH2.
    + rewrite Step. exact IH2.
Qed.

End Timeline.

Import JobFixtures.

Lemma find_seq_zero_latency (T : Z) (k : nat) :
  (1 <= k)%nat ->
  find (fun x => (T <=? 100 * (Z.of_nat x - 1))%Z) (seq 1 (k - 1)) = None <->
  (k = 1%nat \/ ((Z.of_nat k - 2) * 100 < T)%Z).
Proof.
  intros Hk. split.
  - intros H. destruct (Nat.eq_dec k 1) as [E|E]; [left; exact E|right].
    pose proof (find_none _ _ H (k - 1)%nat ltac:(apply in_seq; lia)) as H1.
    apply Z.leb_gt in H1. lia.
  - intros H. destruct (find _ _) as [x|] eqn:E; [|reflexivity].
    apply find_some in E as [Hx E]. apply in_seq in Hx. apply Z.leb_le in E.
    destruct H as [->|H]; [lia|]. lia.
Qed.




(** Witness of C2 at a job that fails for exceeding its maximum time. *)
Lemma result_final_state_errors_witness :
  wait_for_final_state tr_max_time 1 (Some 1000%Z) (new_job 0) =
    (inl tt, mk_job "ERROR" (Some "ran too long") (Some 1305%Z) None 1 0) /\
  let j1 := mk_job "ERROR" (Some "ran too long") (Some 1305%Z) None 1 0 in
  let out := fst (result tr_max_time "job-1" string id_decoder 1 (Some 1000%Z) None (new_job 0)) in
  (_status j1 = "ERROR" /\ is_1305 (_reason_code j1) = true /\
     out = inr (RuntimeJobMaxTimeoutError (error_message_of j1))) \/
  (_status j1 = "ERROR" /\ is_1305 (_reason_code j1) = false /\
     out = inr (RuntimeJobFailureError
                  ("Unable to retrieve job result. " ++ error_message_of j1))) \/
  (_status j1 = "CANCELLED" /\ exists m, out = inr (RuntimeInvalidStateError m)) \/
  (_status j1 = "DONE" /\ forall e, out = inr e -> final_state_error e = false).
Proof.
  split; [reflexivity|].
  exact (result_final_state_errors tr_max_time "job-1" string id_decoder 1 (Some 1000%Z)
           None (new_job 0) _ eq_refl).
Defined.

(** C3 (status refresh, modelled from the spec): a [status()] call on a
    non-terminal job makes exactly one round trip to the status endpoint;
    on a terminal job it makes none and leaves the job unchanged; and once
    [status()] has returned a terminal value, every later call returns
    that value with no round trip. *)
Theorem status_terminal_cached (tr : transport) (j j1 : job) (s : JobStatus)
      (H : status tr j = (inl s, j1)) :
  (in_final_states (_status j) = false -> polls j1 = S (polls j)) /\
  (in_final_states (_status j) = true -> j1 = j /\ s = _status j) /\
  (in_final_states s = true ->
     forall n, Nat.iter n (fun p => status tr (snd p)) (inl s, j1) = (inl s, j1)).
Proof.
  rewrite status_eq in H. injection H as Hs Hj. subst j1.
  split; [|split].
  - apply set_status_polls.
  - intros F. rewrite set_status_final by exact F. rewrite set_status_final in Hs by exact F.
    auto.
  - intros F n. induction n as [|n IH]; [reflexivity|].
    simpl. rewrite IH. simpl. rewrite status_eq.
    rewrite set_status_final by (rewrite Hs; exact F).
    rewrite Hs. reflexivity.
Qed.

Lemma status_terminal_cached_witness :
  status (tr_done None) (new_job 0) = (inl "DONE", mk_job "DONE" None None None 1 0) /\
  ((in_final_states (_status (new_job 0)) = false ->
      polls (mk_job "DONE" None None None 1 0) = S (polls (new_job 0))) /\
   (in_final_states (_status (new_job 0)) = true ->
      mk_job "DONE" None None None 1 0 = new_job 0 /\ "DONE" = _status (new_job 0)) /\
   (in_final_states "DONE" = true ->
      forall n, Nat.iter n (fun p => status (tr_done None) (snd p))
                  (inl "DONE", mk_job "DONE" None None None 1 0)
                = (inl "DONE", mk_job "DONE" None None None 1 0))).
Proof.
  split; [reflexivity|].
  exact (status_terminal_cached (tr_done None) (new_job 0) _ _ eq_refl).
Defined.

(** C5 (the last part relies on the status refresh modelled from the
    spec): [cancel()] raises [RuntimeInvalidStateError] when the transport
    fails with status code 409, wraps any other transport failure as
    [IBMRuntimeError], and on success sets the status to CANCELLED without
    polling, so that [cancelled()] returns true at once with no round trip. *)
Theorem cancel_outcomes (tr : transport) (j : job) :
  (forall ex, job_cancel tr = ApiError 409 ex ->
     cancel tr j = (inr (RuntimeInvalidStateError ("Job cannot be cancelled: " ++ ex)), j)) /\
  (forall code ex, job_cancel tr = ApiError code ex -> code <> 409%Z ->
     cancel tr j = (inr (IBMRuntimeError ("Failed to cancel job: " ++ ex)), j)) /\
  (job_cancel tr = ApiOk ->
     exists j1, cancel tr j = (inl tt, j1) /\ _status j1 = "CANCELLED" /\
                polls j1 = polls j /\ cancelled tr j1 = (inl true, j1)).
Proof.
  unfold cancel. split; [|split].
  - intros ex E. rewrite E. reflexivity.
  - intros code ex E Hc. rewrite E.
    destruct (Z.eqb_spec code 409); [contradiction|reflexivity].
  - intros E. rewrite E. eexists. split; [reflexivity|].
    split; [reflexivity|]. split; [reflexivity|].
    unfold cancelled, bind. rewrite status_eq.
    rewrite set_status_final by reflexivity. reflexivity.
Qed.

(** C6: when the wait ends in a state other than ERROR and CANCELLED,
    [result()] returns [None] without consulting any decoder if the raw
    payload is absent or empty, and otherwise exactly what [decode] of
    the selected decoder returns on the payload, the explicit [decoder]
    argument taking precedence over the job's bound decoder. *)
Theorem result_decodes_payload (tr : transport) job_id R dflt fuel timeout
      (dec : option (decoder R)) (j j1 : job)
      (Hwait : wait_for_final_state tr fuel timeout j = (inl tt, j1))
      (Herr : _status j1 <> "ERROR") (Hcan : _status j1 <> "CANCELLED") :
  ((job_results tr = None \/ job_results tr = Some "") ->
     forall dec' dflt',
       fst (result tr job_id R dflt' fuel timeout dec' j) = inl None) /\
  (forall p d, job_results tr = Some p -> p <> "" -> dec = Some d ->
     fst (result tr job_id R dflt fuel timeout dec j) =
       match d p with inl r => inl (Some r) | inr m => inr (DecodeError m) end) /\
  (forall p, job_results tr = Some p -> p <> "" -> dec = None ->
     fst (result tr job_id R dflt fuel timeout dec j) =
       match dflt p with inl r => inl (Some r) | inr m => inr (DecodeError m) end).
Proof.
  assert (Hd : forall (d : decoder R),
             fst (result_after_wait tr job_id R d j1) =
             if truthy (job_results tr)
             then match d (py_str (job_results tr)) with
                  | inl r => inl (Some r) | inr m => inr (DecodeError m) end
             else inl None).
  { intros d. unfold result_after_wait, bind, gets.
    destruct (String.eqb_spec (_status j1) "ERROR"); [contradiction|].
    destruct (String.eqb_spec (_status j1) "CANCELLED"); [contradiction|].
    destruct (truthy (job_results tr)); [|reflexivity].
    unfold decode_result. destruct (d _); reflexivity. }
  split; [|split].
  - intros Hp dec' dflt'. rewrite (result_after_wait_eq _ _ _ _ _ _ _ _ _ Hwait), Hd.
    destruct Hp as [Hp|Hp]; rewrite Hp; reflexivity.
  - intros p d Hp Hne Hdec. rewrite (result_after_wait_eq _ _ _ _ _ _ _ _ _ Hwait), Hd.
    subst dec. rewrite Hp. unfold truthy, py_str.
    destruct (String.eqb_spec p ""); [contradiction|reflexivity].
  - intros p Hp Hne Hdec. rewrite (result_after_wait_eq _ _ _ _ _ _ _ _ _ Hwait), Hd.
    subst dec. rewrite Hp. unfold truthy, py_str.
    destruct (String.eqb_spec p ""); [contradiction|reflexivity].
Qed.

Lemma result_decodes_payload_witness :
  wait_for_final_state (tr_done (Some "payload")) 1 None (new_job 0) =
    (inl tt, mk_job "DONE" None None None 1 0) /\
  "DONE" <> "ERROR" /\ "DONE" <> "CANCELLED" /\
  fst (result (tr_done (Some "payload")) "job-1" string id_decoder 1 None None (new_job 0))
    = inl (Some "payload").
Proof.
  assert (W : wait_for_final_state (tr_done (Some "payload")) 1 None (new_job 0) =
                (inl tt, mk_job "DONE" None None None 1 0)) by reflexivity.
  assert (N1 : _status (mk_job "DONE" None None None 1 0) <> "ERROR") by discriminate.
  assert (N2 : _status (mk_job "DONE" None None None 1 0) <> "CANCELLED") by discriminate.
  destruct (result_decodes_payload (tr_done (Some "payload")) "job-1" string id_decoder
              1 None None (new_job 0) _ W N1 N2) as [_ [_ H3]].
  split; [exact W|]. split; [exact N1|]. split; [exact N2|].
  rewrite (H3 "payload" eq_refl ltac:(discriminate) eq_refl). reflexivity.
Defined.

End JobFacts.

(** ** Properties of the backend configuration model *)
Module ConfigFacts.

Import BackendConfiguration ConfigFixtures.
Local Open Scope string_scope.

(** *** Dictionary operations *)

Lemma dget_dset d k v k' :
  dget (dset d k v) k' = if String.eqb k' k then Some v else dget d k'.
Proof.
  induction d as [|[k0 v0] d IH]; simpl.
  - destruct (String.eqb k' k); reflexivity.
  - destruct (String.eqb_spec k k0) as [->|Hne]; simpl.
    + destruct (String.eqb k' k0); reflexivity.
    + rewrite IH. destruct (String.eqb_spec k' k0) as [->|]; [|reflexivity].
      destruct (String.eqb_spec k0 k); [congruence|reflexivity].
Qed.

Lemma dget_ddel d k k' : k' <> k -> dget (ddel d k) k' = dget d k'.
Proof.
  intros Hne; induction d as [|[k0 v0] d IH]; simpl; [reflexivity|].
  destruct (String.eqb_spec k k0) as [->|]; simpl.
  - destruct (String.eqb_spec k' k0); [congruence|reflexivity].
  - rewrite IH; reflexivity.
Qed.

Lemma dget_dupdate_None d e k : dget e k = None -> dget (dupdate d e) k = dget d k.
Proof.
  unfold dupdate; revert d; induction e as [|[k0 v0] e IH]; intros d H; simpl in *; [reflexivity|].
  destruct (String.eqb_spec k k0); [discriminate|].
  rewrite IH by exact H. rewrite dget_dset.
  destruct (String.eqb_spec k k0); [congruence|reflexivity].
Qed.

Lemma dget_extra_kwargs params kw k : In k params -> dget (extra_kwargs params kw) k = None.
Proof.
  intros Hin; unfold extra_kwargs; induction kw as [|[k0 v0] kw IH]; simpl; [reflexivity|].
  destruct (existsb (String.eqb k0) params) eqn:E; simpl; [exact IH|].
  destruct (String.eqb_spec k k0) as [->|]; [|exact IH].
  exfalso. assert (existsb (String.eqb k0) params = true) by
    (apply existsb_exists; exists k0; split; [exact Hin|apply String.eqb_refl]).
  congruence.
Qed.

Lemma conv_kwarg_None d k c d' k' :
  conv_kwarg d k c = inl d' -> dget d k' = None -> dget d' k' = None.
Proof.
  unfold conv_kwarg; destruct (dget d k) eqn:E; simpl; [|congruence].
  destruct (c p); simpl; [|discriminate]. intros H; injection H as <-.
  rewrite dget_dset. destruct (String.eqb_spec k' k) as [->|]; congruence.
Qed.

(** *** Attribute frames: a step that sets another attribute keeps this one *)

Lemma attrs_setattr o k v : attrs (setattr o k v) = dset (attrs o) k v.
Proof. reflexivity. Qed.

Lemma set_if_frame b o k' v k : (k = k' -> b = false) ->
  dget (attrs (set_if b o k' v)) k = dget (attrs o) k.
Proof.
  unfold set_if; destruct b; [|reflexivity]. intros H.
  cbn [attrs setattr]; rewrite dget_dset.
  destruct (String.eqb_spec k k'); [specialize (H e); discriminate|reflexivity].
Qed.

Lemma set_conv_if_frame b o k' c o1 k : set_conv_if b o k' c = inl o1 ->
  (k = k' -> b = false) -> dget (attrs o1) k = dget (attrs o) k.
Proof.
  unfold set_conv_if; destruct b.
  - destruct c as [v|]; simpl; [|discriminate]. intros H; injection H as <-. intros Hk.
    cbn [attrs setattr]; rewrite dget_dset.
    destruct (String.eqb_spec k k'); [specialize (Hk e); discriminate|reflexivity].
  - intros H; injection H as <-; reflexivity.
Qed.

Lemma fold_set_if_frame (cond : string -> bool) (f : string -> pyval) ks o k :
  (In k ks -> cond k = false) ->
  dget (attrs (fold_left (fun o k => set_if (cond k) o k (f k)) ks o)) k = dget (attrs o) k.
Proof.
  revert o; induction ks as [|k0 ks IH]; intros o H; simpl; [reflexivity|].
  rewrite IH by (intros; apply H; right; assumption).
  apply set_if_frame. intros ->; apply H; left; reflexivity.
Qed.

Lemma fold_setattr_frame (f : string -> pyval) ks o k : ~ In k ks ->
  dget (attrs (fold_left (fun o k => setattr o k (f k)) ks o)) k = dget (attrs o) k.
Proof.
  revert o; induction ks as [|k0 ks IH]; intros o H; simpl; [reflexivity|].
  rewrite IH by (intros Hin; apply H; right; exact Hin).
  cbn [attrs setattr]; rewrite dget_dset.
  destruct (String.eqb_spec k k0); [exfalso; apply H; left; congruence|reflexivity].
Qed.

Ltac peel H :=
  repeat match type of H with
  | rbind ?m _ = inl _ =>
      let E := fresh "E" in
      destruct m eqn:E; cbn [rbind] in H; [|discriminate H]
  end.

Lemma Qasm_init_frame kw o o' k :
  Qasm_init kw o = inl o' ->
  ~ In k Qasm_required -> k <> "dynamic_reprate_enabled" -> arg kw k = PNone ->
  dget (attrs o') k = dget (attrs o) k.
Proof.
  intros H Hreq Hdyn Hk. unfold Qasm_init in H. peel H.
  injection H as <-. cbn [attrs].
  rewrite !set_if_frame by (intros Heq; subst k; rewrite Hk; reflexivity).
  rewrite (set_conv_if_frame _ _ _ _ _ _ E3) by (intros Heq; subst k; rewrite Hk; reflexivity).
  rewrite (set_conv_if_frame _ _ _ _ _ _ E2) by (intros Heq; subst k; rewrite Hk; reflexivity).
  rewrite (fold_set_if_frame (fun k => negb (is_None (arg kw k))) (arg kw))
    by (intros _; rewrite Hk; reflexivity).
  rewrite !set_if_frame by (intros Heq; subst k; rewrite Hk; reflexivity).
  rewrite (set_conv_if_frame _ _ _ _ _ _ E1) by (intros Heq; subst k; rewrite Hk; reflexivity).
  rewrite (set_conv_if_frame _ _ _ _ _ _ E0) by (intros Heq; subst k; rewrite Hk; reflexivity).
  cbn [attrs setattr]; rewrite dget_dset.
  destruct (String.eqb_spec k "dynamic_reprate_enabled"); [contradiction|].
  rewrite set_if_frame by (intros Heq; subst k; rewrite Hk; reflexivity).
  rewrite fold_setattr_frame by exact Hreq. reflexivity.
Qed.

Lemma Qasm_init_n_registers kw o o' :
  Qasm_init kw o = inl o' ->
  dget (attrs o') "n_registers" =
    if py_truthy (arg kw "n_registers") then Some (PInt 1) else dget (attrs o) "n_registers".
Proof.
  intros H. unfold Qasm_init in H. peel H. injection H as <-. cbn [attrs].
  rewrite !set_if_frame by (intros Heq; discriminate Heq).
  rewrite (set_conv_if_frame _ _ _ _ _ _ E3) by (intros Heq; discriminate Heq).
  rewrite (set_conv_if_frame _ _ _ _ _ _ E2) by (intros Heq; discriminate Heq).
  rewrite fold_set_if_frame by (intros Hin; simpl in Hin; intuition discriminate).
  rewrite set_if_frame by (intros Heq; discriminate Heq).
  unfold set_if at 1. destruct (py_truthy (arg kw "n_registers")).
  - cbn [attrs setattr]; rewrite dget_dset; reflexivity.
  - rewrite !set_if_frame by (intros Heq; discriminate Heq).
    rewrite (set_conv_if_frame _ _ _ _ _ _ E1) by (intros Heq; discriminate Heq).
    rewrite (set_conv_if_frame _ _ _ _ _ _ E0) by (intros Heq; discriminate Heq).
    cbn [attrs setattr]; rewrite dget_dset.
    destruct (String.eqb_spec "n_registers" "dynamic_reprate_enabled"); [discriminate|].
    rewrite set_if_frame by (intros Heq; discriminate Heq).
    rewrite fold_setattr_frame by (simpl; intuition discriminate). reflexivity.
Qed.


Lemma rest_set_if b o k v : rest (set_if b o k v) = rest o.
Proof. unfold set_if; destruct b; reflexivity. Qed.

Lemma rest_setattr o k v : rest (setattr o k v) = rest o.
Proof. reflexivity. Qed.

Lemma rest_set_conv_if b o k c o1 : set_conv_if b o k c = inl o1 -> rest o1 = rest o.
Proof.
  unfold set_conv_if; destruct b; [destruct c; simpl; [|discriminate]|];
    intros H; injection H as <-; reflexivity.
Qed.

Lemma rest_fold_set_if (cond : string -> bool) (f : string -> pyval) ks o :
  rest (fold_left (fun o k => set_if (cond k) o k (f k)) ks o) = rest o.
Proof.
  revert o; induction ks as [|k0 ks IH]; intros o; simpl; [reflexivity|].
  rewrite IH; apply rest_set_if.
Qed.

Lemma rest_fold_setattr (f : string -> pyval) ks o :
  rest (fold_left (fun o k => setattr o k (f k)) ks o) = rest o.
Proof.
  revert o; induction ks as [|k0 ks IH]; intros o; simpl; [reflexivity|].
  rewrite IH; reflexivity.
Qed.

Lemma Qasm_init_rest kw o o' :
  Qasm_init kw o = inl o' ->
  _control_channels o' = _control_channels o /\
  exists kwargs, _data o' = dupdate [] kwargs /\
    forall k, In k Qasm_params -> dget kwargs k = None.
Proof.
  intros H. unfold Qasm_init in H. peel H. injection H as <-. cbn [_control_channels _data].
  assert (R : rest (set_if (negb (is_None (arg kw "parametric_pulses")))
               (set_if (negb (is_None (arg kw "processor_type"))) o3
                  "processor_type" (arg kw "processor_type"))
               "parametric_pulses" (arg kw "parametric_pulses")) =
              (([] : dict), _qubit_channel_map o, _channel_qubit_map o, _control_channels o, cls o)).
  { rewrite !rest_set_if, (rest_set_conv_if _ _ _ _ _ E3), (rest_set_conv_if _ _ _ _ _ E2),
      rest_fold_set_if, !rest_set_if, (rest_set_conv_if _ _ _ _ _ E1),
      (rest_set_conv_if _ _ _ _ _ E0).
    rewrite rest_setattr.
    rewrite rest_set_if, rest_fold_setattr. reflexivity. }
  unfold rest in R. injection R as -> _ _ -> _. split; [reflexivity|].
  exists d1. split; [reflexivity|]. intros k Hk.
  apply (conv_kwarg_None _ _ _ _ _ E6), (conv_kwarg_None _ _ _ _ _ E5),
    (conv_kwarg_None _ _ _ _ _ E4), dget_extra_kwargs, Hk.
Qed.

Lemma Qasm_init_cls kw o o' : Qasm_init kw o = inl o' -> cls o' = cls o.
Proof.
  intros H. unfold Qasm_init in H. peel H. injection H as <-. cbn [cls].
  change (cls ?X) with (snd (rest X)).
  rewrite !rest_set_if, (rest_set_conv_if _ _ _ _ _ E3), (rest_set_conv_if _ _ _ _ _ E2),
    rest_fold_set_if, !rest_set_if, (rest_set_conv_if _ _ _ _ _ E1),
    (rest_set_conv_if _ _ _ _ _ E0).
  rewrite rest_setattr.
  rewrite rest_set_if, rest_fold_setattr. reflexivity.
Qed.

Lemma dget_app (l1 l2 : dict) k :
  dget (l1 ++ l2)%list k = match dget l1 k with Some v => Some v | None => dget l2 k end.
Proof.
  induction l1 as [|[k0 v0] l1 IH]; simpl; [reflexivity|].
  destruct (String.eqb k k0); [reflexivity|exact IH].
Qed.


Lemma getattrs_map o ks r :
  getattrs o ks = inl r -> r = map (fun k => (k, attr_value o k)) ks.
Proof.
  revert r; induction ks as [|k ks IH]; intros r H; simpl in H.
  - injection H as <-; reflexivity.
  - destruct (getattr o k) as [v|] eqn:Eg; simpl in H; [|discriminate].
    destruct (getattrs o ks) as [rs|]; simpl in H; [|discriminate].
    injection H as <-; rewrite (IH rs eq_refl); simpl.
    replace (attr_value o k) with v by (unfold attr_value; rewrite Eg; reflexivity).
    reflexivity.
Qed.

Lemma conv_kwarg_frame d k c d' k' :
  conv_kwarg d k c = inl d' -> k' <> k -> dget d' k' = dget d k'.
Proof.
  unfold conv_kwarg; destruct (dget d k) eqn:E; simpl.
  - destruct (c p); simpl; [|discriminate]. intros H Hne; injection H as <-.
    rewrite dget_dset. destruct (String.eqb_spec k' k); [contradiction|reflexivity].
  - intros H _; injection H as <-; reflexivity.
Qed.

(** *** Attribute lookup of ordinary names *)

Lemma not_special k x :
  plain_name k = true -> existsb (String.eqb x) special_names = true -> String.eqb k x = false.
Proof.
  intros H Hx. destruct (String.eqb_spec k x) as [->|]; [|reflexivity].
  unfold plain_name in H. rewrite Hx in H. discriminate.
Qed.

Lemma class_attrs_special c x : In x (class_attrs c) -> In x special_names.
Proof.
  unfold class_attrs, special_names. rewrite !in_app_iff.
  destruct c; [simpl|]; tauto.
Qed.

Lemma plain_not_class_attr k c : plain_name k = true -> existsb (String.eqb k) (class_attrs c) = false.
Proof.
  intros H. destruct (existsb (String.eqb k) (class_attrs c)) eqn:E; [|reflexivity].
  apply existsb_exists in E as (x & Hx & Hk). apply String.eqb_eq in Hk; subst x.
  apply class_attrs_special in Hx. unfold plain_name in H.
  assert (existsb (String.eqb k) special_names = true) by
    (apply existsb_exists; exists k; split; [exact Hx|apply String.eqb_refl]).
  rewrite H0 in H; discriminate.
Qed.

Ltac plain_eqb H :=
  repeat match goal with
  | |- context [String.eqb ?k ?x] => rewrite (not_special k x H) by reflexivity
  end.

(** The lookup of an ordinary name reads the attributes, then [_data]. *)
Lemma getattr_plain_name o k : plain_name k = true -> getattr o k = getattr_plain o k.
Proof.
  intros H. unfold getattr, data_descriptor. plain_eqb H. cbn [orb andb].
  assert (Hi : getattr_instance o k = getattr_plain o k).
  { unfold getattr_instance, instance_dict_get. plain_eqb H. cbn [andb].
    rewrite (plain_not_class_attr k (cls o) H). unfold getattr_plain.
    destruct (dget (attrs o) k); reflexivity. }
  destruct (cls o); plain_eqb H; exact Hi.
Qed.

Lemma hasattr_plain_name o k : plain_name k = true -> hasattr o k = inl (has_plain o k).
Proof.
  intros H. unfold hasattr. rewrite getattr_plain_name by exact H.
  unfold getattr_plain, py__getattr__, has_plain, dmem.
  destruct (dget (attrs o) k); [reflexivity|]. destruct (dget (_data o) k); reflexivity.
Qed.

Lemma getattr_hasattr o k : hasattr o k = inl true -> getattr o k = inl (attr_value o k).
Proof.
  unfold hasattr, attr_value. destruct (getattr o k) as [v|[]]; congruence.
Qed.

Lemma emit_attr_spec o out k c out' k' :
  emit_attr o out k c = inl out' -> plain_name k = true ->
  dget out' k' = if String.eqb k' k && has_plain o k
                 then match c (attr_value o k) with inl v => Some v | inr _ => None end
                 else dget out k'.
Proof.
  intros H Hk. unfold emit_attr in H. rewrite (hasattr_plain_name _ _ Hk) in H.
  cbn [rbind] in H. destruct (has_plain o k) eqn:Hh.
  - rewrite getattr_hasattr in H by (rewrite hasattr_plain_name, Hh by exact Hk; reflexivity).
    cbn [rbind] in H.
    destruct (c (attr_value o k)) as [v|]; cbn [rbind] in H; [|discriminate].
    injection H as <-. rewrite dget_dset, andb_true_r. reflexivity.
  - injection H as <-. rewrite andb_false_r; reflexivity.
Qed.

Lemma emit_attr_frame o out k c out' k' :
  emit_attr o out k c = inl out' -> k' <> k -> dget out' k' = dget out k'.
Proof.
  intros H Hne. unfold emit_attr in H.
  destruct (hasattr o k) as [[]|]; cbn [rbind] in H; [|injection H as <-; reflexivity|discriminate].
  destruct (getattr o k) as [v|]; cbn [rbind] in H; [|discriminate].
  destruct (c v) as [v'|]; cbn [rbind] in H; [|discriminate].
  injection H as <-. rewrite dget_dset.
  destruct (String.eqb_spec k' k); [contradiction|reflexivity].
Qed.

Lemma emit_attrs_spec o out ks out' k :
  emit_attrs o out ks = inl out' -> forallb plain_name ks = true ->
  dget out' k = if existsb (String.eqb k) ks && has_plain o k
                then Some (attr_value o k) else dget out k.
Proof.
  revert out; induction ks as [|k0 ks IH]; intros out H Hp; simpl in H.
  - injection H as <-; reflexivity.
  - cbn [forallb] in Hp. apply andb_prop in Hp as [Hp0 Hp].
    destruct (emit_attr o out k0 inl) as [out1|] eqn:E1; simpl in H; [|discriminate].
    rewrite (IH _ H Hp), (emit_attr_spec _ _ _ _ _ k E1 Hp0). cbn [existsb].
    destruct (String.eqb_spec k k0) as [->|Hne].
    + cbn [orb andb].
      destruct (has_plain o k0); rewrite ?andb_true_r, ?andb_false_r; [|reflexivity].
      destruct (existsb (String.eqb k0) ks); reflexivity.
    + reflexivity.
Qed.

Lemma Qasm_to_dict_n_registers o out :
  Qasm_to_dict o = inl out -> dget (_data o) "n_registers" = None ->
  dget out "n_registers" = dget (attrs o) "n_registers".
Proof.
  intros H Hd. unfold Qasm_to_dict in H. peel H. unfold conv_key in *.
  rewrite (conv_kwarg_frame _ _ _ _ _ H) by discriminate.
  rewrite (conv_kwarg_frame _ _ _ _ _ E9) by discriminate.
  rewrite (conv_kwarg_frame _ _ _ _ _ E8) by discriminate.
  rewrite (conv_kwarg_frame _ _ _ _ _ E7) by discriminate.
  rewrite dget_dupdate_None by exact Hd.
  rewrite (emit_attrs_spec _ _ _ _ _ E6 eq_refl). cbn [existsb].
  unfold has_plain, attr_value, dmem. rewrite getattr_plain_name by reflexivity.
  unfold getattr_plain. rewrite Hd.
  destruct (dget (attrs o) "n_registers") eqn:Ha; simpl; [reflexivity|].
  rewrite (emit_attr_frame _ _ _ _ _ _ E5) by discriminate.
  rewrite (emit_attr_frame _ _ _ _ _ _ E4) by discriminate.
  rewrite (emit_attr_frame _ _ _ _ _ _ E3) by discriminate.
  rewrite (getattrs_map _ _ _ E), (getattrs_map _ _ _ E2). reflexivity.
Qed.

Lemma in_of_existsb k l : existsb (String.eqb k) l = true -> In k l.
Proof.
  intros H; apply existsb_exists in H as (x & Hx & Hk).
  apply String.eqb_eq in Hk; subst; exact Hx.
Qed.

Lemma notin_of_existsb k l : existsb (String.eqb k) l = false -> ~ In k l.
Proof.
  intros H Hin. assert (existsb (String.eqb k) l = true) by
    (apply existsb_exists; exists k; split; [exact Hin|apply String.eqb_refl]).
  congruence.
Qed.

Lemma Qasm_from_dict_init data o :
  Qasm_from_dict data = inl o ->
  exists kw, Qasm_init kw empty_obj = inl o /\ forall k, k <> "gates" -> dget kw k = dget data k.
Proof.
  unfold Qasm_from_dict, pop. intros H; peel H. destruct p as [g d]; simpl in *.
  unfold getitem in E; destruct (dget data "gates"); simpl in E; [|discriminate].
  injection E as <- <-.
  eexists; split; [exact H|]. intros k Hk.
  rewrite dget_dset. destruct (String.eqb_spec k "gates"); [contradiction|].
  apply dget_ddel; exact Hk.
Qed.

Lemma Qasm_data_n_registers kw o o' :
  Qasm_init kw o = inl o' -> dget (_data o') "n_registers" = None.
Proof.
  intros H. destruct (Qasm_init_rest _ _ _ H) as (_ & kwargs & -> & Hk).
  rewrite dget_dupdate_None; [reflexivity|].
  apply Hk, in_of_existsb; reflexivity.
Qed.

(** Claim C10: a [QasmBackendConfiguration] built by [from_dict] from a
    dictionary whose [n_registers] is truthy stores [n_registers = 1] and
    [to_dict] emits [1], whatever the input value; when [n_registers] is
    falsy (0, None or absent) the instance has no such attribute and the
    output dictionary has no such key. *)
Theorem Qasm_n_registers_normalised (data : dict) (o : obj) :
  Qasm_from_dict data = inl o ->
  (py_truthy (arg data "n_registers") = true ->
     getattr o "n_registers" = inl (PInt 1) /\
     forall out, Qasm_to_dict o = inl out -> dget out "n_registers" = Some (PInt 1)) /\
  (py_truthy (arg data "n_registers") = false ->
     hasattr o "n_registers" = inl false /\
     forall out, Qasm_to_dict o = inl out -> dget out "n_registers" = None).
Proof.
  intros H. destruct (Qasm_from_dict_init _ _ H) as (kw & Hi & Hkw).
  assert (Ha : arg kw "n_registers" = arg data "n_registers")
    by (unfold arg; rewrite Hkw by discriminate; reflexivity).
  pose proof (Qasm_init_n_registers _ _ _ Hi) as Hn. rewrite Ha in Hn.
  pose proof (Qasm_data_n_registers _ _ _ Hi) as Hd.
  split; intros Ht; rewrite Ht in Hn.
  - split.
    + rewrite getattr_plain_name by reflexivity. unfold getattr_plain; rewrite Hn; reflexivity.
    + intros out Ho. rewrite (Qasm_to_dict_n_registers _ _ Ho Hd). exact Hn.
  - split.
    + rewrite hasattr_plain_name by reflexivity. unfold has_plain, dmem. rewrite Hn, Hd.
      reflexivity.
    + intros out Ho. rewrite (Qasm_to_dict_n_registers _ _ Ho Hd). exact Hn.
Qed.

Lemma dget_map_keys (f : string -> pyval) ks k :
  ~ In k ks -> dget (map (fun k => (k, f k)) ks) k = None.
Proof.
  induction ks as [|k0 ks IH]; intros Hn; simpl; [reflexivity|].
  destruct (String.eqb_spec k k0); [exfalso; apply Hn; left; congruence|].
  apply IH; intros Hin; apply Hn; right; exact Hin.
Qed.

Lemma Pulse_super_arg kw k :
  In k Pulse_params -> ~ In k Pulse_super_args ->
  arg (map (fun k => (k, arg kw k)) Pulse_super_args ++ extra_kwargs Pulse_params kw)%list k
  = PNone.
Proof.
  intros Hp Hs. unfold arg. rewrite dget_app, dget_map_keys by exact Hs.
  rewrite dget_extra_kwargs by exact Hp. reflexivity.
Qed.

(** The steps of [Pulse_init] after the attributes it converts itself leave
    the attributes outside [Pulse_super_args] unchanged. *)
Lemma Pulse_tail_frame kw o5 o6 o7 o k :
  match arg kw "channels" with
  | PNone =>
      inl (mk_obj (attrs o5) (_data o5) (_qubit_channel_map o5) (_channel_qubit_map o5)
             (Some (DefaultDictList [])) (cls o5))
  | PDict channels =>
      rbind (_parse_channels channels)
        (fun '(qcm, cqm, cc) =>
           inl (mk_obj (attrs (setattr o5 "channels" (PDict channels)))
                  (_data (setattr o5 "channels" (PDict channels)))
                  (Some qcm) (Some cqm) (Some (PlainDict cc))
                  (cls (setattr o5 "channels" (PDict channels)))))
  | _ => inr (AttributeError "object has no attribute 'items'")
  end = inl o6 ->
  set_conv_if (negb (is_None (arg kw "channel_bandwidth"))) o6 "channel_bandwidth"
    (scale_pairs 1e9 (arg kw "channel_bandwidth")) = inl o7 ->
  Qasm_init (map (fun k => (k, arg kw k)) Pulse_super_args ++ extra_kwargs Pulse_params kw)%list
    (fold_left (fun o k => set_if (negb (is_None (arg kw k))) o k (arg kw k))
       ["acquisition_latency"; "conditional_latency"; "meas_map"] o7) = inl o ->
  In k Pulse_params -> ~ In k Pulse_super_args -> k <> "dynamic_reprate_enabled" ->
  ~ In k ["channels"; "channel_bandwidth"; "acquisition_latency"; "conditional_latency";
          "meas_map"] ->
  dget (attrs o) k = dget (attrs o5) k.
Proof.
  intros E6 E7 H Hp Hs Hdyn Hn.
  rewrite (Qasm_init_frame _ _ _ k H).
  2:{ intros Hin; apply Hs; unfold Pulse_super_args; apply in_or_app; left; exact Hin. }
  2:{ exact Hdyn. }
  2:{ apply Pulse_super_arg; assumption. }
  rewrite fold_set_if_frame
    by (intros Hin; exfalso; apply Hn; right; right; exact Hin).
  rewrite (set_conv_if_frame _ _ _ _ _ _ E7)
    by (intros ->; exfalso; apply Hn; right; left; reflexivity).
  destruct (arg kw "channels"); try discriminate E6.
  - injection E6 as <-; reflexivity.
  - destruct (_parse_channels d) as [[[qcm cqm] cc]|]; cbn [rbind] in E6; [|discriminate].
    injection E6 as <-. cbn [attrs setattr]. rewrite dget_dset.
    destruct (String.eqb_spec k "channels"); [exfalso; apply Hn; left; congruence|reflexivity].
Qed.

Lemma Pulse_init_dt kw o x :
  Pulse_init kw = inl o -> arg kw "dt" = PFloat x ->
  dget (attrs o) "dt" = Some (PFloat (x * 1e-9)%float).
Proof.
  intros H Hx. unfold Pulse_init in H; peel H.
  rewrite (Pulse_tail_frame _ _ _ _ _ _ E6 E7 H); cycle 1.
  { apply in_of_existsb; reflexivity. }
  { apply notin_of_existsb; reflexivity. }
  { discriminate. }
  { apply notin_of_existsb; reflexivity. }
  rewrite (set_conv_if_frame _ _ _ _ _ _ E5) by discriminate.
  rewrite Hx in E4; cbn in E4. injection E4 as <-.
  cbn [attrs setattr]; rewrite dget_dset; reflexivity.
Qed.

Lemma scale_pairs_float_pairs c l :
  scale_pairs c (float_pairs l) = inl (float_pairs (scale_float_pairs c l)).
Proof.
  unfold scale_pairs, float_pairs, scale_float_pairs.
  induction l as [|[a b] l IH]; [reflexivity|].
  cbn [map mapM fst snd py_mul rbind].
  destruct (mapM _ (map _ l)) as [l'|e] eqn:Hm; cbn [rbind] in IH |- *; [|discriminate].
  injection IH as IH. rewrite IH. reflexivity.
Qed.

Lemma Pulse_init_qubit_lo_range kw o l :
  Pulse_init kw = inl o -> arg kw "qubit_lo_range" = float_pairs l ->
  dget (attrs o) "qubit_lo_range" = Some (float_pairs (scale_float_pairs 1e9 l)).
Proof.
  intros H Hl. unfold Pulse_init in H; peel H.
  rewrite (Pulse_tail_frame _ _ _ _ _ _ E6 E7 H); cycle 1.
  { apply in_of_existsb; reflexivity. }
  { apply notin_of_existsb; reflexivity. }
  { discriminate. }
  { apply notin_of_existsb; reflexivity. }
  rewrite (set_conv_if_frame _ _ _ _ _ _ E5) by discriminate.
  rewrite (set_conv_if_frame _ _ _ _ _ _ E4) by discriminate.
  rewrite (set_conv_if_frame _ _ _ _ _ _ E3) by discriminate.
  assert (Hh : dget (attrs o2) "qubit_lo_range" = dget (attrs o1) "qubit_lo_range").
  { destruct (arg kw "hamiltonian"); try discriminate E2.
    - injection E2 as <-. cbn [attrs setattr]. rewrite !dget_dset. reflexivity.
    - peel E2. injection E2 as <-. cbn [attrs setattr]. rewrite !dget_dset. reflexivity. }
  rewrite Hh, (set_conv_if_frame _ _ _ _ _ _ E1) by discriminate.
  rewrite Hl, scale_pairs_float_pairs in E0. cbn in E0. injection E0 as <-.
  cbn [attrs setattr]; rewrite dget_dset; reflexivity.
Qed.

Lemma Pulse_init_control kw o :
  Pulse_init kw = inl o -> arg kw "channels" = PNone ->
  _control_channels o = Some (DefaultDictList []).
Proof.
  intros H Hc. unfold Pulse_init in H; peel H.
  destruct (Qasm_init_rest _ _ _ H) as [-> _].
  change (_control_channels (fold_left (fun o k => set_if (negb (is_None (arg kw k))) o k (arg kw k))
       ["acquisition_latency"; "conditional_latency"; "meas_map"] o7))
    with (snd (fst (rest (fold_left (fun o k => set_if (negb (is_None (arg kw k))) o k (arg kw k))
       ["acquisition_latency"; "conditional_latency"; "meas_map"] o7)))).
  rewrite rest_fold_set_if, (rest_set_conv_if _ _ _ _ _ E7).
  rewrite Hc in E6. injection E6 as <-. reflexivity.
Qed.

Lemma dget_dupdate d e k :
  dget (dupdate d e) k = match dget (rev e) k with Some v => Some v | None => dget d k end.
Proof.
  unfold dupdate; revert d; induction e as [|[k0 v0] e IH]; intros d; [reflexivity|].
  cbn [fold_left fst snd rev]. rewrite IH, dget_app, dget_dset. cbn [dget].
  destruct (dget (rev e) k); [reflexivity|]. destruct (String.eqb k k0); reflexivity.
Qed.

Lemma dset_if_frame (b : bool) m d k d' k' :
  (if b then rbind m (fun v => inl (dset d k v)) else inl d) = inl d' -> k' <> k ->
  dget d' k' = dget d k'.
Proof.
  destruct b; [destruct m; cbn [rbind]; [|discriminate]|];
    intros H Hne; injection H as <-; [|reflexivity].
  rewrite dget_dset. destruct (String.eqb_spec k' k); [contradiction|reflexivity].
Qed.

Lemma pop_frame d k p k' : pop d k = inl p -> k' <> k -> dget (snd p) k' = dget d k'.
Proof.
  unfold pop, getitem. destruct (dget d k); cbn [rbind]; [|discriminate].
  intros H Hne; injection H as <-. apply dget_ddel; exact Hne.
Qed.

Lemma mul_key_frame d k c d' k' : mul_key d k c = inl d' -> k' <> k -> dget d' k' = dget d k'.
Proof.
  unfold mul_key, getitem. destruct (dget d k); cbn [rbind]; [|discriminate].
  destruct (py_mul p c); cbn [rbind]; [|discriminate].
  intros H Hne; injection H as <-. rewrite dget_dset.
  destruct (String.eqb_spec k' k); [contradiction|reflexivity].
Qed.

Lemma mul_key_spec d k c d' v w :
  mul_key d k c = inl d' -> dget d k = Some v -> py_mul v c = inl w -> dget d' k = Some w.
Proof.
  unfold mul_key, getitem. intros H Hv Hw. rewrite Hv in H. cbn [rbind] in H.
  rewrite Hw in H. cbn [rbind] in H. injection H as <-. rewrite dget_dset, String.eqb_refl. reflexivity.
Qed.

Lemma channels_pops_frame d2 d3 k :
  (if dmem d2 "channels"
   then rbind (pop d2 "_qubit_channel_map")
          (fun p => rbind (pop (snd p) "_channel_qubit_map")
             (fun p0 => rbind (pop (snd p0) "_control_channels") (fun p1 => inl (snd p1))))
   else inl d2) = inl d3 ->
  ~ In k ["_qubit_channel_map"; "_channel_qubit_map"; "_control_channels"] ->
  dget d3 k = dget d2 k.
Proof.
  intros E Hn. destruct (dmem d2 "channels"); [|injection E as <-; reflexivity].
  peel E. injection E as <-.
  rewrite (pop_frame _ _ _ _ E2) by (intros ->; apply Hn; simpl; tauto).
  rewrite (pop_frame _ _ _ _ E1) by (intros ->; apply Hn; simpl; tauto).
  rewrite (pop_frame _ _ _ _ E0) by (intros ->; apply Hn; simpl; tauto).
  reflexivity.
Qed.

Lemma hamiltonian_out_frame (b : bool) p4 d9 d10 k :
  (if b then
     match p4 with
     | PDict hd =>
         rbind (getitem hd "vars") (fun vars => rbind (scale_vars 1e-9 vars)
           (fun vars' => inl (dset d9 "hamiltonian" (PDict (dset hd "vars" vars')))))
     | _ => inr (TypeError "'hamiltonian' is not a dict")
     end
   else inl d9) = inl d10 -> k <> "hamiltonian" -> dget d10 k = dget d9 k.
Proof.
  intros E Hne. destruct b; [|injection E as <-; reflexivity].
  destruct p4; try discriminate E. peel E. injection E as <-.
  rewrite dget_dset. destruct (String.eqb_spec k "hamiltonian"); [contradiction|reflexivity].
Qed.

Lemma Pulse_to_dict_dt o out w :
  Pulse_to_dict o = inl out -> py_mul (attr_value o "dt") 1e9 = inl w ->
  dget out "dt" = Some w.
Proof.
  intros H Hw. unfold Pulse_to_dict in H; peel H.
  rewrite (emit_attr_frame _ _ _ _ _ _ H) by discriminate.
  rewrite (hamiltonian_out_frame _ _ _ _ _ E16) by discriminate.
  rewrite (emit_attr_frame _ _ _ _ _ _ E14) by discriminate.
  rewrite (mul_key_frame _ _ _ _ _ E13) by discriminate.
  apply (mul_key_spec _ _ _ _ (attr_value o "dt") _ E12); [|exact Hw].
  rewrite (dset_if_frame _ _ _ _ _ _ E11) by discriminate.
  rewrite (dset_if_frame _ _ _ _ _ _ E9) by discriminate.
  rewrite (dset_if_frame _ _ _ _ _ _ E7) by discriminate.
  rewrite (channels_pops_frame _ _ _ E5) by (simpl; intuition discriminate).
  rewrite (emit_attrs_spec _ _ _ _ _ E4 eq_refl); simpl existsb; cbn iota.
  rewrite dget_dupdate, (getattrs_map _ _ _ E2), (getattrs_map _ _ _ E3). reflexivity.
Qed.

Lemma Pulse_to_dict_qubit_lo_range o out l :
  Pulse_to_dict o = inl out -> attr_value o "qubit_lo_range" = float_pairs l ->
  dget out "qubit_lo_range" = Some (float_pairs (scale_float_pairs 1e-9 l)).
Proof.
  intros H Hl. unfold Pulse_to_dict in H; peel H.
  rewrite (emit_attr_frame _ _ _ _ _ _ H) by discriminate.
  rewrite (hamiltonian_out_frame _ _ _ _ _ E16) by discriminate.
  rewrite (emit_attr_frame _ _ _ _ _ _ E14) by discriminate.
  rewrite (mul_key_frame _ _ _ _ _ E13) by discriminate.
  rewrite (mul_key_frame _ _ _ _ _ E12) by discriminate.
  rewrite (dset_if_frame _ _ _ _ _ _ E11) by discriminate.
  rewrite (dset_if_frame _ _ _ _ _ _ E9) by discriminate.
  assert (Hp1 : p1 = float_pairs l)
    by (rewrite <- Hl; unfold attr_value; rewrite E6; reflexivity).
  subst p1. rewrite scale_pairs_float_pairs in E7.
  destruct (py_truthy (float_pairs l)) eqn:Ht; cbn [rbind] in E7; injection E7 as <-.
  - rewrite dget_dset; reflexivity.
  - destruct l; [|discriminate Ht].
    rewrite (channels_pops_frame _ _ _ E5) by (simpl; intuition discriminate).
    rewrite (emit_attrs_spec _ _ _ _ _ E4 eq_refl); simpl existsb; cbn iota.
    rewrite dget_dupdate, (getattrs_map _ _ _ E2), (getattrs_map _ _ _ E3). simpl.
    unfold attr_value; rewrite E6. reflexivity.
Qed.

Lemma Pulse_from_dict_init D o :
  Pulse_from_dict D = inl o ->
  exists kw, Pulse_init kw = inl o /\
    forall k, k <> "gates" -> k <> "u_channel_lo" -> dget kw k = dget D k.
Proof.
  unfold Pulse_from_dict. intros H; peel H.
  eexists; split; [exact H|]. intros k Hg Hu.
  rewrite dget_dset. destruct (String.eqb_spec k "u_channel_lo"); [contradiction|].
  rewrite (pop_frame _ _ _ _ E1 n), dget_dset.
  destruct (String.eqb_spec k "gates"); [contradiction|].
  exact (pop_frame _ _ _ _ E Hg).
Qed.

Lemma attr_value_of o k v : plain_name k = true -> dget (attrs o) k = Some v -> attr_value o k = v.
Proof.
  intros Hk H; unfold attr_value; rewrite getattr_plain_name by exact Hk.
  unfold getattr_plain; rewrite H; reflexivity.
Qed.

(** Claim C7, the configuration without channel map: a
    [PulseBackendConfiguration] built by [from_dict] from a dictionary with
    no [channels] gets a [defaultdict(list)] as [_control_channels], so
    [control] returns the empty list for every qubit tuple instead of raising
    [BackendConfigurationError]. *)
Theorem control_without_channels (D : dict) (o : obj) (qubits : list Z) :
  Pulse_from_dict D = inl o -> arg D "channels" = PNone ->
  fst (control o qubits) = inl [].
Proof.
  intros Hf Hc. destruct (Pulse_from_dict_init _ _ Hf) as (kw & Hi & Hkw).
  unfold control. rewrite (Pulse_init_control _ _ Hi).
  - reflexivity.
  - unfold arg in *; rewrite Hkw by discriminate; exact Hc.
Qed.

Lemma qubit_index_channel_spec mk what o n q :
  getattr o "n_qubits" = inl (PInt n) ->
  qubit_index_channel mk what o q =
  if (0 <=? q)%Z && (q <? n)%Z then inl (mk q)
  else inr (BackendConfigurationError ("Invalid index for " ++ z_str q ++ what)).
Proof.
  intros Hn. unfold qubit_index_channel. destruct (0 <=? q)%Z; [|reflexivity].
  rewrite Hn. reflexivity.
Qed.

(** Claim C9: for a configuration whose [n_qubits] is [n], [drive],
    [measure] and [acquire] return the typed channel of [q] when
    [0 <= q < n] and raise [BackendConfigurationError] otherwise; in
    particular [drive] raises at [-1] and at [n], and [drive 0] succeeds
    when [n >= 1]. *)
Theorem channel_lookup_range (o : obj) (n q : Z) :
  getattr o "n_qubits" = inl (PInt n) ->
  ((0 <= q < n)%Z ->
     drive o q = inl (DriveChannel q) /\ measure o q = inl (MeasureChannel q) /\
     acquire o q = inl (AcquireChannel q)) /\
  (~ (0 <= q < n)%Z ->
     (exists m, drive o q = inr (BackendConfigurationError m)) /\
     (exists m, measure o q = inr (BackendConfigurationError m)) /\
     (exists m, acquire o q = inr (BackendConfigurationError m))) /\
  (exists m, drive o (-1) = inr (BackendConfigurationError m)) /\
  (exists m, drive o n = inr (BackendConfigurationError m)) /\
  ((1 <= n)%Z -> drive o 0 = inl (DriveChannel 0)).
Proof.
  intros Hn. unfold drive, measure, acquire.
  repeat rewrite (qubit_index_channel_spec _ _ _ n _ Hn).
  split; [|split; [|split; [|split]]].
  - intros Hq. replace ((0 <=? q) && (q <? n))%Z with true; [repeat split|].
    symmetry; apply andb_true_iff; split; [apply Z.leb_le|apply Z.ltb_lt]; lia.
  - intros Hq. destruct ((0 <=? q) && (q <? n))%Z eqn:Hb.
    + exfalso; apply Hq. apply andb_true_iff in Hb as [H1 H2].
      apply Z.leb_le in H1; apply Z.ltb_lt in H2; lia.
    + repeat split; eexists; reflexivity.
  - eexists; reflexivity.
  - rewrite Z.ltb_irrefl, andb_false_r. eexists; reflexivity.
  - intros H1. rewrite (proj2 (Z.ltb_lt 0 n)) by lia. reflexivity.
Qed.

(** With the channel map [d0 -> (0)], [u1 -> (0, 1)], [control([0, 1])]
    returns the channel of [u1], and a pair without entry raises
    [BackendConfigurationError] naming the pair. *)
Example control_u1 : fst (control cfg_channels [0; 1]%Z) = inl [ControlChannel 1].
Proof. vm_compute. reflexivity. Qed.

Example control_missing_pair :
  fst (control cfg_channels [2; 3]%Z) =
  inr (BackendConfigurationError
         "Couldn't find the ControlChannel operating on qubits (2, 3) on 2-qubit system. The ControlChannel information is retrieved from the backend.").
Proof. vm_compute. reflexivity. Qed.

Lemma control_without_channels_witness :
  Pulse_from_dict wire_dt_0222 = inl cfg_plain /\ arg wire_dt_0222 "channels" = PNone /\
  fst (control cfg_plain [0; 1]%Z) = inl [].
Proof.
  assert (H1 : Pulse_from_dict wire_dt_0222 = inl cfg_plain) by (vm_compute; reflexivity).
  assert (H2 : arg wire_dt_0222 "channels" = PNone) by (vm_compute; reflexivity).
  split; [exact H1|split; [exact H2|]].
  exact (control_without_channels wire_dt_0222 cfg_plain [0; 1]%Z H1 H2).
Defined.

(** A [dt] of [0.1] ns does not survive the round trip: it comes back as
    [0.10000000000000002]. *)
Lemma Pulse_round_trip_counterexample :
  Pulse_from_dict wire_dt_01 = inl cfg_dt_01 /\
  dget wire_dt_01 "dt" = Some (PFloat 0.1) /\
  dget (dict_of (Pulse_to_dict cfg_dt_01)) "dt" = Some (PFloat 0.10000000000000002) /\
  PrimFloat.eqb 0.10000000000000002 0.1 = false.
Proof. vm_compute. repeat split; reflexivity. Qed.

Lemma channel_lookup_range_witness :
  getattr cfg_plain "n_qubits" = inl (PInt 2) /\ drive cfg_plain 0 = inl (DriveChannel 0) /\
  (exists m, drive cfg_plain 2 = inr (BackendConfigurationError m)).
Proof.
  assert (H : getattr cfg_plain "n_qubits" = inl (PInt 2)) by (vm_compute; reflexivity).
  destruct (channel_lookup_range cfg_plain 2 0 H) as (Hin & _ & _ & Hn & _).
  split; [exact H|split; [apply Hin; lia|exact Hn]].
Defined.

Lemma Qasm_n_registers_normalised_witness :
  Qasm_from_dict (qasm_wire (PInt 5)) = inl qasm_cfg_5 /\
  getattr qasm_cfg_5 "n_registers" = inl (PInt 1) /\
  dget (dict_of (Qasm_to_dict qasm_cfg_5)) "n_registers" = Some (PInt 1).
Proof.
  assert (H : Qasm_from_dict (qasm_wire (PInt 5)) = inl qasm_cfg_5) by (vm_compute; reflexivity).
  destruct (Qasm_n_registers_normalised _ _ H) as [Ht _].
  destruct (Ht eq_refl) as [Hg Ho].
  split; [exact H|split; [exact Hg|]].
  apply Ho. vm_compute; reflexivity.
Defined.

End ConfigFacts.

Module JobExtras.

Import RuntimeJobV2 JobFixtures JobFacts.
Local Open Scope string_scope.

(** [logs] refreshes the status once, then returns the log text whatever
    the job's state: the empty string when the logs endpoint answers 404
    and [IBMRuntimeError] on any other API error; for a job already in a
    final state it leaves the job unchanged. *)
Theorem logs_outcomes (tr : transport) (j : job) :
  let j1 := _set_status_and_error_message tr j in
  (forall text, logs tr (LogsOk text) j = (inl text, j1)) /\
  (forall ex, logs tr (LogsError 404 ex) j = (inl "", j1)) /\
  (forall code ex, code <> 404%Z ->
     logs tr (LogsError code ex) j = (inr (IBMRuntimeError ("Failed to get job logs: " ++ ex)), j1)) /\
  (in_final_states (_status j) = true -> forall lo, snd (logs tr lo j) = j).
Proof.
  intros j1. unfold logs, bind. rewrite status_eq. fold j1.
  split; [reflexivity|]. split; [reflexivity|]. split.
  - intros code ex Hc. cbn. destruct (Z.eqb_spec code 404); [contradiction|reflexivity].
  - intros Hf lo. subst j1. rewrite set_status_final by exact Hf.
    destruct lo as [t|code ex]; [reflexivity|]. cbn. destruct (Z.eqb code 404); reflexivity.
Qed.

(** After [wait_for_final_state] returns, [in_final_state] is true,
    [running] is false and exactly one of [done], [errored] and
    [cancelled] is true, all answered without a round trip to the server. *)
Theorem final_state_queries (tr : transport) fuel timeout (j j' : job) :
  wait_for_final_state tr fuel timeout j = (inl tt, j') ->
  in_final_state tr j' = (inl true, j') /\ running tr j' = (inl false, j') /\
  exists d e c, done tr j' = (inl d, j') /\ errored tr j' = (inl e, j') /\
    cancelled tr j' = (inl c, j') /\ (Nat.b2n d + Nat.b2n e + Nat.b2n c = 1)%nat.
Proof.
  intros H. pose proof (wait_final _ _ _ _ _ H) as Hf.
  unfold in_final_state, running, done, errored, cancelled, bind, ret.
  rewrite status_eq, (set_status_final _ _ Hf), Hf.
  split; [reflexivity|].
  destruct (in_final_states_cases _ Hf) as [Hs|[Hs|Hs]]; rewrite Hs;
    (split; [reflexivity|]); do 3 eexists; (split; [reflexivity|]);
    (split; [reflexivity|]); (split; [reflexivity|]); reflexivity.
Qed.

Lemma final_state_queries_witness :
  wait_for_final_state (tr_done None) 1 None (new_job 0) =
    (inl tt, mk_job "DONE" None None None 1 0) /\
  done (tr_done None) (mk_job "DONE" None None None 1 0) =
    (inl true, mk_job "DONE" None None None 1 0).
Proof.
  assert (W : wait_for_final_state (tr_done None) 1 None (new_job 0) =
                (inl tt, mk_job "DONE" None None None 1 0)) by reflexivity.
  destruct (final_state_queries _ _ _ _ _ W) as (_ & _ & d & e & c & Hd & _ & _ & _).
  split; [exact W|]. rewrite Hd. f_equal. f_equal.
  revert Hd. vm_compute. intros Hd. injection Hd as <-. reflexivity.
Defined.

End JobExtras.

Module ConfigExtras.

Import BackendConfiguration ConfigFixtures ConfigFacts.
Local Open Scope string_scope.
Local Notation "x <- m ;; k" := (rbind m (fun x => k))
  (at level 61, m at next level, right associativity).

(** The keywords [check_call] accepts whatever their position. *)
Definition ok_keyword (params : list string) (var_kw : bool) (k : string) : Prop :=
  k <> "self" /\ (var_kw = false -> In k params).

Lemma check_call_find_false params var_kw (kv : string * pyval) :
  ok_keyword params var_kw (fst kv) ->
  (String.eqb (fst kv) "self" ||
     negb var_kw && negb (existsb (String.eqb (fst kv)) params)) = false.
Proof.
  intros [Hs Hp]. destruct (String.eqb_spec (fst kv) "self") as [|_]; [contradiction|].
  destruct var_kw; [reflexivity|]. cbn [orb negb andb].
  destruct (existsb (String.eqb (fst kv)) params) eqn:E; [reflexivity|].
  exfalso; exact (notin_of_existsb _ _ E (Hp eq_refl)).
Qed.

Lemma find_all_false {A} (f : A -> bool) (l : list A) :
  (forall x, In x l -> f x = false) -> find f l = None.
Proof.
  induction l as [|x l IH]; intros H; [reflexivity|]. cbn [find].
  rewrite (H x (or_introl eq_refl)). apply IH. intros y Hy; apply H; right; exact Hy.
Qed.

Lemma check_call_ok params required var_kw kw :
  check_call params required var_kw kw = inl tt ->
  (forall k, In k required -> dmem kw k = true) /\
  (var_kw = false -> forall kv, In kv kw -> In (fst kv) params).
Proof.
  unfold check_call.
  destruct (find _ kw) as [[k v]|] eqn:Ef; [destruct (String.eqb k "self"); discriminate|].
  destruct (existsb (fun k => negb (dmem kw k)) required) eqn:E1; [discriminate|].
  intros _. split.
  - intros k Hk. destruct (dmem kw k) eqn:Hm; [reflexivity|].
    assert (existsb (fun k => negb (dmem kw k)) required = true)
      by (apply existsb_exists; exists k; rewrite Hm; auto).
    congruence.
  - intros -> kv Hkv. pose proof (find_none _ _ Ef kv Hkv) as Hf. cbn beta in Hf.
    apply orb_false_iff in Hf as [_ Hf]. cbn [negb andb] in Hf.
    destruct (existsb (String.eqb (fst kv)) params) eqn:Hp; [|discriminate].
    apply in_of_existsb; exact Hp.
Qed.

(** A call whose keywords are all accepted and cover the required
    parameters binds. *)
Lemma check_call_pass params required var_kw kw :
  (forall kv, In kv kw -> ok_keyword params var_kw (fst kv)) ->
  (forall k, In k required -> dmem kw k = true) ->
  check_call params required var_kw kw = inl tt.
Proof.
  intros Hkw Hr. unfold check_call.
  rewrite find_all_false by (intros kv Hkv; apply check_call_find_false, Hkw, Hkv).
  replace (existsb (fun k => negb (dmem kw k)) required) with false; [reflexivity|].
  symmetry; apply not_true_iff_false; intros Hx; apply existsb_exists in Hx as (k & Hk & Hx).
  rewrite Hr in Hx by exact Hk; discriminate.
Qed.

(** With every keyword accepted, a missing required parameter raises. *)
Lemma check_call_missing params required var_kw kw k :
  (forall kv, In kv kw -> ok_keyword params var_kw (fst kv)) ->
  In k required -> dmem kw k = false ->
  check_call params required var_kw kw = inr (TypeError "missing required positional argument").
Proof.
  intros Hkw Hk Hm. unfold check_call.
  rewrite find_all_false by (intros kv Hkv; apply check_call_find_false, Hkw, Hkv).
  replace (existsb (fun k => negb (dmem kw k)) required) with true; [reflexivity|].
  symmetry; apply existsb_exists; exists k; rewrite Hm; auto.
Qed.

(** The first keyword that is [self] or, without [**kwargs], not a
    parameter raises, before any missing parameter is reported. *)
Lemma check_call_first params required var_kw pre kv post :
  (forall kv', In kv' pre -> ok_keyword params var_kw (fst kv')) ->
  ~ ok_keyword params var_kw (fst kv) ->
  check_call params required var_kw (pre ++ kv :: post)%list =
    inr (TypeError (if String.eqb (fst kv) "self" then "got multiple values for argument 'self'"
                    else "got an unexpected keyword argument '" ++ fst kv ++ "'")).
Proof.
  intros Hpre Hkv. unfold check_call.
  assert (Hf : find (fun kv => String.eqb (fst kv) "self" ||
                        negb var_kw && negb (existsb (String.eqb (fst kv)) params))
                 (pre ++ kv :: post)%list = Some kv).
  { induction pre as [|kv' pre IH]; cbn [app find].
    - destruct (String.eqb (fst kv) "self" ||
                  negb var_kw && negb (existsb (String.eqb (fst kv)) params)) eqn:E;
        [reflexivity|].
      exfalso; apply Hkv. apply orb_false_iff in E as [E1 E2]. split.
      + intros Hs; rewrite Hs in E1; discriminate.
      + intros ->. cbn [negb andb] in E2.
        destruct (existsb (String.eqb (fst kv)) params) eqn:Hp; [|discriminate].
        apply in_of_existsb; exact Hp.
    - rewrite check_call_find_false by (apply Hpre; left; reflexivity).
      apply IH. intros kv'' Hin; apply Hpre; right; exact Hin. }
  rewrite Hf. destruct kv as [k v]. cbn [fst]. destruct (String.eqb k "self"); reflexivity.
Qed.

Lemma dget_if_dset (b : bool) a k v k' :
  dget (if b then dset a k v else a) k' = if b && String.eqb k' k then Some v else dget a k'.
Proof. destruct b; simpl; [apply dget_dset|reflexivity]. Qed.

Lemma fold_dmem_dset (a : dict) (get : string -> pyval) ks out k :
  dget (fold_left (fun out k => if dmem a k then dset out k (get k) else out) ks out) k =
  if existsb (String.eqb k) ks && dmem a k then Some (get k) else dget out k.
Proof.
  revert out; induction ks as [|k0 ks IH]; intros out; simpl; [reflexivity|].
  rewrite IH, dget_if_dset.
  destruct (String.eqb_spec k k0) as [->|]; simpl.
  - destruct (dmem a k0); rewrite ?andb_true_r, ?andb_false_r, ?String.eqb_refl; simpl;
      destruct (existsb (String.eqb k0) ks); reflexivity.
  - rewrite andb_false_r. reflexivity.
Qed.

Lemma dmem_dget d k : dmem d k = true -> exists v, dget d k = Some v.
Proof. unfold dmem; destruct (dget d k); [eauto|discriminate]. Qed.

Ltac rewrite_eqb_false :=
  repeat match goal with
  | H : ?k <> ?l |- context [String.eqb ?k ?l] => rewrite (proj2 (String.eqb_neq k l) H)
  end.

Ltac gate_case :=
  cbn -[arg py_truthy is_None]; rewrite ?andb_false_r, ?andb_true_r;
  repeat match goal with
  | |- context [py_truthy ?x] => let E := fresh "E" in destruct (py_truthy x) eqn:E
  | |- context [is_None ?x] => let E := fresh "E" in destruct (is_None x) eqn:E
  end;
  cbn -[arg] in *; try reflexivity; unfold arg in *;
  match goal with |- context [dget ?d ?k] => destruct (dget d k) end; try reflexivity; discriminate.

(** [GateConfig.from_dict] followed by [to_dict] gives back [name],
    [parameters] and [qasm_def] as read, [coupling_map] and [latency_map]
    only when they are truthy, [conditional] and [description] only when
    they are not [None], and no other key. *)
Theorem GateConfig_round_trip (d : dict) (g : pyval) :
  GateConfig_from_dict (PDict d) = inl g ->
  exists out, GateConfig_to_dict g = inl (PDict out) /\
  forall k, dget out k =
    if existsb (String.eqb k) ["name"; "parameters"; "qasm_def"] then dget d k
    else if existsb (String.eqb k) ["coupling_map"; "latency_map"] then
      (if py_truthy (arg d k) then dget d k else None)
    else if existsb (String.eqb k) ["conditional"; "description"] then
      (if is_None (arg d k) then None else dget d k)
    else None.
Proof.
  intros H. cbn [GateConfig_from_dict] in H. unfold GateConfig_init in H.
  destruct (check_call GateConfig_params ["name"; "parameters"; "qasm_def"] false d) as [[]|]
    eqn:Hc; cbn [rbind] in H; [|discriminate].
  destruct (check_call_ok _ _ _ _ Hc) as [Hreq _].
  injection H as <-. eexists; split; [reflexivity|]. intros k.
  rewrite fold_dmem_dset. unfold dmem. rewrite !dget_if_dset. cbn [dget].
  destruct (String.eqb_spec k "name") as [->|].
  { cbn. rewrite ?dget_if_dset. cbn. rewrite ?andb_false_r. cbn. destruct (dmem_dget d "name" (Hreq "name" ltac:(simpl; tauto))) as [v Hv].
    repeat match goal with |- context [if ?b then _ else _] => destruct b end;
      cbn; unfold arg; rewrite Hv; reflexivity. }
  destruct (String.eqb_spec k "parameters") as [->|].
  { cbn. rewrite ?dget_if_dset. cbn. rewrite ?andb_false_r. cbn. destruct (dmem_dget d "parameters" (Hreq "parameters" ltac:(simpl; tauto))) as [v Hv].
    repeat match goal with |- context [if ?b then _ else _] => destruct b end;
      cbn; unfold arg; rewrite Hv; reflexivity. }
  destruct (String.eqb_spec k "qasm_def") as [->|].
  { cbn. rewrite ?dget_if_dset. cbn. rewrite ?andb_false_r. cbn. destruct (dmem_dget d "qasm_def" (Hreq "qasm_def" ltac:(simpl; tauto))) as [v Hv].
    repeat match goal with |- context [if ?b then _ else _] => destruct b end;
      cbn; unfold arg; rewrite Hv; reflexivity. }
  destruct (String.eqb_spec k "coupling_map") as [->|Hcm]; [gate_case|].
  destruct (String.eqb_spec k "latency_map") as [->|Hlm]; [gate_case|].
  destruct (String.eqb_spec k "conditional") as [->|Hco]; [gate_case|].
  destruct (String.eqb_spec k "description") as [->|Hde]; [gate_case|].
  repeat (rewrite_eqb_false; cbn; rewrite ?andb_false_r).
  repeat match goal with |- context [if ?b then _ else _] => destruct b end; cbn;
    rewrite_eqb_false; reflexivity.
Qed.


Lemma GateConfig_param_ok k : In k GateConfig_params -> ok_keyword GateConfig_params false k.
Proof.
  intros H. split; [|intros _; exact H].
  intros ->. cbn in H. intuition discriminate.
Qed.

(** [GateConfig.from_dict] raises [TypeError] for the first key of the
    dictionary, in order, that is not a parameter of [GateConfig.__init__]
    (for a key [self], that it got multiple values for [self]); when every
    key is a parameter, it raises [TypeError] when [name], [parameters] or
    [qasm_def] is missing. *)
Theorem GateConfig_from_dict_rejects (d : dict) :
  ((forall kv, In kv d -> In (fst kv) GateConfig_params) ->
   (exists k, In k ["name"; "parameters"; "qasm_def"] /\ dget d k = None) ->
     GateConfig_from_dict (PDict d) = inr (TypeError "missing required positional argument")) /\
  (forall pre kv post, d = (pre ++ kv :: post)%list ->
     (forall kv', In kv' pre -> In (fst kv') GateConfig_params) ->
     ~ In (fst kv) GateConfig_params ->
     GateConfig_from_dict (PDict d) =
       inr (TypeError (if String.eqb (fst kv) "self" then "got multiple values for argument 'self'"
                       else "got an unexpected keyword argument '" ++ fst kv ++ "'"))).
Proof.
  split.
  - intros Hd (k & Hk & Hn). cbn [GateConfig_from_dict]; unfold GateConfig_init.
    rewrite (check_call_missing _ _ _ _ k) by
      (try (intros kv Hkv; apply GateConfig_param_ok, Hd, Hkv); try exact Hk;
       unfold dmem; rewrite Hn; reflexivity).
    reflexivity.
  - intros pre kv post -> Hpre Hkv. cbn [GateConfig_from_dict]; unfold GateConfig_init.
    rewrite check_call_first.
    + reflexivity.
    + intros kv' Hin; apply GateConfig_param_ok, Hpre, Hin.
    + intros [_ Hp]; exact (Hkv (Hp eq_refl)).
Qed.

Lemma dget_None_notin (d : dict) k : dget d k = None <-> ~ In k (map fst d).
Proof.
  induction d as [|[k0 v0] d IH]; simpl; [tauto|].
  destruct (String.eqb_spec k k0) as [->|Hne]; [split; [discriminate|tauto]|].
  rewrite IH. split; [intros H [H1|H1]; [congruence|tauto]|tauto].
Qed.

Lemma dget_keys_params (d : dict) params k :
  (forall kv, In kv d -> In (fst kv) params) -> ~ In k params -> dget d k = None.
Proof.
  intros Hd Hk. apply dget_None_notin. intros Hin.
  apply in_map_iff in Hin as (kv & <- & Hkv). exact (Hk (Hd kv Hkv)).
Qed.

Lemma uchan_dict_round_trip (d : dict) (u : pyval) :
  UchannelLO_from_dict (PDict d) = inl u ->
  exists out, UchannelLO_to_dict u = inl (PDict out) /\ (forall k, dget out k = dget d k).
Proof.
  intros H. cbn [UchannelLO_from_dict] in H. unfold UchannelLO_init in H.
  destruct (check_call ["q"; "scale"] ["q"; "scale"] false d) as [[]|] eqn:Hc;
    cbn [rbind] in H; [|discriminate].
  destruct (check_call_ok _ _ _ _ Hc) as [Hreq Hkeys]. specialize (Hkeys eq_refl).
  destruct (dmem_dget d "q" (Hreq "q" ltac:(simpl; tauto))) as [q Hq].
  destruct (dmem_dget d "scale" (Hreq "scale" ltac:(simpl; tauto))) as [sc Hs].
  unfold arg in H; rewrite Hq, Hs in H.
  assert (Hu : u = PUchan q sc).
  { destruct q; cbn [rbind] in H; try discriminate H.
    - injection H as <-. reflexivity.
    - destruct (z <? 0)%Z; cbn [rbind] in H; [discriminate|]. injection H as <-. reflexivity.
    - destruct (PrimFloat.ltb f 0); cbn [rbind] in H; [discriminate|]. injection H as <-.
      reflexivity. }
  subst u. eexists; split; [reflexivity|].
  intros k; cbn [dget].
  destruct (String.eqb_spec k "q") as [->|Hnq]; [rewrite Hq; reflexivity|].
  destruct (String.eqb_spec k "scale") as [->|Hns]; [rewrite Hs; reflexivity|].
  symmetry; apply (dget_keys_params d ["q"; "scale"]); [exact Hkeys|].
  simpl; intuition congruence.
Qed.

(** [UchannelLO.from_dict] followed by [to_dict] gives back the input
    dictionary, key for key, and the [q] it accepted is never a negative
    integer. *)
Theorem UchannelLO_round_trip (d : dict) (u : pyval) :
  UchannelLO_from_dict (PDict d) = inl u ->
  exists out, UchannelLO_to_dict u = inl (PDict out) /\
    (forall k, dget out k = dget d k) /\
    (forall z, dget d "q" = Some (PInt z) -> (0 <= z)%Z).
Proof.
  intros H. destruct (uchan_dict_round_trip d u H) as (out & Ho & Hk).
  exists out; split; [exact Ho|split; [exact Hk|]].
  intros z Hz. cbn [UchannelLO_from_dict] in H. unfold UchannelLO_init in H.
  destruct (check_call ["q"; "scale"] ["q"; "scale"] false d); cbn [rbind] in H; [|discriminate].
  unfold arg in H; rewrite Hz in H. cbn [rbind] in H.
  destruct (z <? 0)%Z eqn:Hz0; [discriminate|]. apply Z.ltb_ge; exact Hz0.
Qed.

(** [UchannelLO.from_dict] raises [QiskitError] for a negative integer
    [q], whatever the [scale]. *)
Theorem UchannelLO_negative_q (d : dict) (z : Z) :
  dget d "q" = Some (PInt z) -> (z < 0)%Z -> dget d "scale" <> None ->
  (forall kv, In kv d -> In (fst kv) ["q"; "scale"]) ->
  UchannelLO_from_dict (PDict d) = inr (QiskitError "q must be >=0").
Proof.
  intros Hq Hz Hs Hk. destruct (dget d "scale") as [sc|] eqn:Es; [|contradiction].
  cbn [UchannelLO_from_dict]; unfold UchannelLO_init. rewrite check_call_pass.
  - cbn [rbind]. unfold arg. rewrite Hq. cbn. rewrite (proj2 (Z.ltb_lt z 0) Hz). reflexivity.
  - intros kv Hkv. pose proof (Hk kv Hkv) as Hin. split; [|intros _; exact Hin].
    intros E; rewrite E in Hin; cbn in Hin; intuition discriminate.
  - intros k Hk'. unfold dmem. destruct Hk' as [<-|[<-|[]]]; [rewrite Hq|rewrite Es]; reflexivity.
Qed.


(** *** Keys of a dict: Python keeps each key once *)

Lemma in_keys_dset (d : dict) k v a : In a (map fst (dset d k v)) <-> a = k \/ In a (map fst d).
Proof.
  induction d as [|[k0 v0] d IH]; simpl; [intuition congruence|].
  destruct (String.eqb_spec k k0) as [->|]; simpl; [intuition congruence|].
  rewrite IH; intuition congruence.
Qed.

Lemma NoDup_dset (d : dict) k v : NoDup (map fst d) -> NoDup (map fst (dset d k v)).
Proof.
  induction d as [|[k0 v0] d IH]; intros Hd; simpl; [constructor; [tauto|constructor]|].
  inversion Hd as [|? ? Hn Hd']; subst.
  destruct (String.eqb_spec k k0) as [->|Hne]; simpl; [exact Hd|].
  constructor; [|exact (IH Hd')]. rewrite in_keys_dset. intros [->|]; [congruence|tauto].
Qed.

Lemma in_keys_ddel (d : dict) k a : In a (map fst (ddel d k)) -> In a (map fst d).
Proof.
  induction d as [|[k0 v0] d IH]; simpl; [tauto|].
  destruct (String.eqb k k0); simpl; tauto.
Qed.

Lemma NoDup_ddel (d : dict) k : NoDup (map fst d) -> NoDup (map fst (ddel d k)).
Proof.
  induction d as [|[k0 v0] d IH]; intros Hd; simpl; [constructor|].
  inversion Hd as [|? ? Hn Hd']; subst.
  destruct (String.eqb k k0); simpl; [exact Hd'|].
  constructor; [|exact (IH Hd')]. intros Hin; apply Hn, (in_keys_ddel _ _ _ Hin).
Qed.

Lemma NoDup_filter_keys (p : string * pyval -> bool) (d : dict) :
  NoDup (map fst d) -> NoDup (map fst (filter p d)).
Proof.
  induction d as [|[k0 v0] d IH]; intros Hd; simpl; [constructor|].
  inversion Hd as [|? ? Hn Hd']; subst.
  destruct (p (k0, v0)); simpl; [|exact (IH Hd')].
  constructor; [|exact (IH Hd')]. intros Hin; apply Hn.
  apply in_map_iff in Hin as (kv & Hk & Hkv). apply filter_In in Hkv as [Hkv _].
  apply in_map_iff; exists kv; tauto.
Qed.

Lemma NoDup_dupdate (d e : dict) : NoDup (map fst d) -> NoDup (map fst (dupdate d e)).
Proof.
  unfold dupdate; revert d; induction e as [|[k0 v0] e IH]; intros d Hd; simpl; [exact Hd|].
  apply IH, NoDup_dset, Hd.
Qed.

Lemma dget_rev (e : dict) k : NoDup (map fst e) -> dget (rev e) k = dget e k.
Proof.
  induction e as [|[k0 v0] e IH]; intros He; simpl; [reflexivity|].
  inversion He as [|? ? Hn He']; subst. rewrite dget_app, IH by exact He'. cbn [dget].
  destruct (String.eqb_spec k k0) as [->|].
  - replace (dget e k0) with (@None pyval) by (symmetry; apply dget_None_notin, Hn). reflexivity.
  - destruct (dget e k); reflexivity.
Qed.

Lemma dget_dupdate_nil (e : dict) k : NoDup (map fst e) -> dget (dupdate [] e) k = dget e k.
Proof.
  intros He. rewrite dget_dupdate, dget_rev by exact He. destruct (dget e k); reflexivity.
Qed.

Lemma dget_extra_kwargs_notin params kw k :
  ~ In k params -> dget (extra_kwargs params kw) k = dget kw k.
Proof.
  intros Hk; unfold extra_kwargs; induction kw as [|[k0 v0] kw IH]; simpl; [reflexivity|].
  destruct (existsb (String.eqb k0) params) eqn:E; simpl.
  - rewrite IH. destruct (String.eqb_spec k k0) as [->|]; [|reflexivity].
    exfalso; apply Hk, in_of_existsb, E.
  - rewrite IH; reflexivity.
Qed.

Lemma conv_kwarg_keys d k c d' : conv_kwarg d k c = inl d' -> map fst d' = map fst d.
Proof.
  unfold conv_kwarg. destruct (dget d k) eqn:E; [|intros H; injection H as <-; reflexivity].
  destruct (c p); cbn [rbind]; [|discriminate]. intros H; injection H as <-.
  revert E; induction d as [|[k0 v0] d IH]; simpl; [discriminate|].
  destruct (String.eqb k k0); simpl; [reflexivity|]. intros E; rewrite (IH E); reflexivity.
Qed.

Lemma conv_kwarg_spec d k c d' v w :
  conv_kwarg d k c = inl d' -> dget d k = Some v -> c v = inl w -> dget d' k = Some w.
Proof.
  unfold conv_kwarg. intros H Hv Hw. rewrite Hv, Hw in H. cbn [rbind] in H.
  injection H as <-. rewrite dget_dset, String.eqb_refl. reflexivity.
Qed.

(** *** [QasmBackendConfiguration.__init__]: [_data] and the attributes *)

Lemma Qasm_init_data kw o o' :
  Qasm_init kw o = inl o' ->
  exists d1 d2 d3,
    conv_kwarg (extra_kwargs Qasm_params kw) "qubit_lo_range" (scale_pairs 1e9) = inl d1 /\
    conv_kwarg d1 "meas_lo_range" (scale_pairs 1e9) = inl d2 /\
    conv_kwarg d2 "rep_times" (scale_list 1e-6) = inl d3 /\
    _data o' = dupdate [] d3 /\
    _qubit_channel_map o' = _qubit_channel_map o /\
    _channel_qubit_map o' = _channel_qubit_map o /\
    _control_channels o' = _control_channels o.
Proof.
  intros H. unfold Qasm_init in H. peel H. injection H as <-.
  cbn [_data _qubit_channel_map _channel_qubit_map _control_channels].
  assert (R : rest (set_if (negb (is_None (arg kw "parametric_pulses")))
               (set_if (negb (is_None (arg kw "processor_type"))) o3
                  "processor_type" (arg kw "processor_type"))
               "parametric_pulses" (arg kw "parametric_pulses")) =
              (([] : dict), _qubit_channel_map o, _channel_qubit_map o, _control_channels o, cls o)).
  { rewrite !rest_set_if, (rest_set_conv_if _ _ _ _ _ E3), (rest_set_conv_if _ _ _ _ _ E2),
      rest_fold_set_if, !rest_set_if, (rest_set_conv_if _ _ _ _ _ E1),
      (rest_set_conv_if _ _ _ _ _ E0).
    rewrite rest_setattr.
    rewrite rest_set_if, rest_fold_setattr. reflexivity. }
  unfold rest in R. injection R as R1 R2 R3 R4 _.
  exists d, d0, d1. rewrite R1, R2, R3, R4. repeat split; assumption.
Qed.

Lemma Qasm_init_attrs_frame kw o o' k :
  Qasm_init kw o = inl o' -> ~ In k Qasm_params -> dget (attrs o') k = dget (attrs o) k.
Proof.
  intros H Hp.
  unfold Qasm_init in H. peel H. injection H as <-. cbn [attrs].
  rewrite !set_if_frame by (intros ->; exfalso; apply Hp; simpl; tauto).
  rewrite (set_conv_if_frame _ _ _ _ _ _ E3) by (intros ->; exfalso; apply Hp; simpl; tauto).
  rewrite (set_conv_if_frame _ _ _ _ _ _ E2) by (intros ->; exfalso; apply Hp; simpl; tauto).
  rewrite fold_set_if_frame by (intros Hin; exfalso; apply Hp; simpl in Hin |- *; tauto).
  rewrite !set_if_frame by (intros ->; exfalso; apply Hp; simpl; tauto).
  rewrite (set_conv_if_frame _ _ _ _ _ _ E1) by (intros ->; exfalso; apply Hp; simpl; tauto).
  rewrite (set_conv_if_frame _ _ _ _ _ _ E0) by (intros ->; exfalso; apply Hp; simpl; tauto).
  cbn [attrs setattr]; rewrite dget_dset.
  destruct (String.eqb_spec k "dynamic_reprate_enabled") as [->|];
    [exfalso; apply Hp; simpl; tauto|].
  rewrite set_if_frame by (intros ->; exfalso; apply Hp; simpl; tauto).
  rewrite fold_setattr_frame by (intros Hin; apply Hp, in_or_app; left; exact Hin).
  reflexivity.
Qed.

Lemma Qasm_from_dict_NoDup data o :
  Qasm_from_dict data = inl o -> NoDup (map fst data) ->
  exists kw, Qasm_init kw empty_obj = inl o /\ NoDup (map fst kw) /\
    forall k, k <> "gates" -> dget kw k = dget data k.
Proof.
  unfold Qasm_from_dict, pop. intros H Hd; peel H. destruct p as [g d]; simpl in *.
  unfold getitem in E; destruct (dget data "gates"); simpl in E; [|discriminate].
  injection E as <- <-.
  eexists; split; [exact H|]. split; [apply NoDup_dset, NoDup_ddel, Hd|]. intros k Hk.
  rewrite dget_dset. destruct (String.eqb_spec k "gates"); [contradiction|].
  apply dget_ddel; exact Hk.
Qed.

(** The [_data] of a [QasmBackendConfiguration] built by [from_dict]: the
    keys that are not parameters of [__init__], with [qubit_lo_range] and
    [meas_lo_range] scaled by [1e9] and [rep_times] by [1e-6]. *)
Lemma Qasm_from_dict_data data o :
  Qasm_from_dict data = inl o -> NoDup (map fst data) ->
  NoDup (map fst (_data o)) /\
  (forall k, ~ In k Qasm_params -> ~ In k ["qubit_lo_range"; "meas_lo_range"; "rep_times"] ->
     dget (_data o) k = dget data k) /\
  (forall v w, dget data "qubit_lo_range" = Some v -> scale_pairs 1e9 v = inl w ->
     dget (_data o) "qubit_lo_range" = Some w) /\
  (forall v w, dget data "rep_times" = Some v -> scale_list 1e-6 v = inl w ->
     dget (_data o) "rep_times" = Some w) /\
  (forall k, ~ In k Qasm_params -> dget (attrs o) k = None).
Proof.
  intros H Hd. destruct (Qasm_from_dict_NoDup _ _ H Hd) as (kw & Hi & Hkw & Hk).
  destruct (Qasm_init_data _ _ _ Hi) as (d1 & d2 & d3 & E1 & E2 & E3 & Hdata & _).
  assert (N3 : NoDup (map fst d3)).
  { rewrite (conv_kwarg_keys _ _ _ _ E3), (conv_kwarg_keys _ _ _ _ E2),
      (conv_kwarg_keys _ _ _ _ E1). apply NoDup_filter_keys, Hkw. }
  assert (Hg : ~ In "gates" Qasm_params -> False) by (intros Hn; apply Hn; simpl; tauto).
  rewrite Hdata. split; [apply NoDup_dupdate; constructor|].
  split; [|split; [|split]].
  - intros k Hp Hc. rewrite dget_dupdate_nil by exact N3.
    rewrite (conv_kwarg_frame _ _ _ _ _ E3) by (intros ->; apply Hc; simpl; tauto).
    rewrite (conv_kwarg_frame _ _ _ _ _ E2) by (intros ->; apply Hc; simpl; tauto).
    rewrite (conv_kwarg_frame _ _ _ _ _ E1) by (intros ->; apply Hc; simpl; tauto).
    rewrite dget_extra_kwargs_notin by exact Hp.
    apply Hk. intros ->; exact (Hg Hp).
  - intros v w Hv Hw. rewrite dget_dupdate_nil by exact N3.
    rewrite (conv_kwarg_frame _ _ _ _ _ E3) by discriminate.
    rewrite (conv_kwarg_frame _ _ _ _ _ E2) by discriminate.
    apply (conv_kwarg_spec _ _ _ _ v w E1); [|exact Hw].
    rewrite dget_extra_kwargs_notin by (apply notin_of_existsb; reflexivity).
    rewrite Hk by discriminate. exact Hv.
  - intros v w Hv Hw. rewrite dget_dupdate_nil by exact N3.
    apply (conv_kwarg_spec _ _ _ _ v w E3); [|exact Hw].
    rewrite (conv_kwarg_frame _ _ _ _ _ E2) by discriminate.
    rewrite (conv_kwarg_frame _ _ _ _ _ E1) by discriminate.
    rewrite dget_extra_kwargs_notin by (apply notin_of_existsb; reflexivity).
    rewrite Hk by discriminate. exact Hv.
  - intros k Hp. rewrite (Qasm_init_attrs_frame _ _ _ _ Hi Hp). reflexivity.
Qed.


Lemma Qasm_to_dict_data o out :
  Qasm_to_dict o = inl out -> NoDup (map fst (_data o)) ->
  (forall k v, ~ In k ["dt"; "dtm"; "qubit_lo_range"; "meas_lo_range"] ->
     dget (_data o) k = Some v -> dget out k = Some v) /\
  (forall v w, dget (_data o) "qubit_lo_range" = Some v -> scale_pairs 1e-9 v = inl w ->
     dget out "qubit_lo_range" = Some w).
Proof.
  intros H Hd. unfold Qasm_to_dict in H. peel H. unfold conv_key in *. split.
  - intros k v Hk Hv.
    rewrite (conv_kwarg_frame _ _ _ _ _ H) by (intros ->; apply Hk; simpl; tauto).
    rewrite (conv_kwarg_frame _ _ _ _ _ E9) by (intros ->; apply Hk; simpl; tauto).
    rewrite (conv_kwarg_frame _ _ _ _ _ E8) by (intros ->; apply Hk; simpl; tauto).
    rewrite (conv_kwarg_frame _ _ _ _ _ E7) by (intros ->; apply Hk; simpl; tauto).
    rewrite dget_dupdate, dget_rev, Hv by exact Hd. reflexivity.
  - intros v w Hv Hw.
    rewrite (conv_kwarg_frame _ _ _ _ _ H) by discriminate.
    apply (conv_kwarg_spec _ _ _ _ v w E9); [|exact Hw].
    rewrite (conv_kwarg_frame _ _ _ _ _ E8) by discriminate.
    rewrite (conv_kwarg_frame _ _ _ _ _ E7) by discriminate.
    rewrite dget_dupdate, dget_rev, Hv by exact Hd. reflexivity.
Qed.

Lemma Qasm_from_dict_maps data o :
  Qasm_from_dict data = inl o ->
  _qubit_channel_map o = None /\ _channel_qubit_map o = None /\ _control_channels o = None.
Proof.
  intros H. destruct (Qasm_from_dict_init _ _ H) as (kw & Hi & _).
  destruct (Qasm_init_data _ _ _ Hi) as (d1 & d2 & d3 & _ & _ & _ & _ & -> & -> & ->).
  repeat split.
Qed.

Lemma Qasm_from_dict_cls data o : Qasm_from_dict data = inl o -> cls o = QasmClass.
Proof.
  intros H. destruct (Qasm_from_dict_init _ _ H) as (kw & Hi & _).
  exact (Qasm_init_cls _ _ _ Hi).
Qed.

Lemma notin_eqb k x l : ~ In k l -> In x l -> String.eqb k x = false.
Proof. intros Hk Hx. destruct (String.eqb_spec k x) as [->|]; [contradiction|reflexivity]. Qed.

(** On a [QasmBackendConfiguration] without channel maps, [getattr] of a
    name that is neither a class attribute nor [_data] reads the
    attributes, then [_data]. *)
Lemma getattr_qasm o k :
  cls o = QasmClass -> _qubit_channel_map o = None -> _channel_qubit_map o = None ->
  _control_channels o = None -> ~ In k (class_attrs QasmClass) -> k <> "_data" ->
  getattr o k = getattr_plain o k.
Proof.
  intros Hc M1 M2 M3 Hk Hd. unfold getattr, data_descriptor, getattr_instance, instance_dict_get.
  repeat match goal with
  | |- context [String.eqb k ?x] => rewrite (notin_eqb k x _ Hk) by (cbn; tauto)
  end.
  rewrite Hc, M1, M2, M3. cbn [orb andb is_set].
  rewrite (proj2 (String.eqb_neq k "_data") Hd), !andb_false_r.
  destruct (existsb (String.eqb k) (class_attrs QasmClass)) eqn:E.
  - exfalso; exact (Hk (in_of_existsb _ _ E)).
  - unfold getattr_plain. destruct (dget (attrs o) k); reflexivity.
Qed.


Lemma scale_list_float_list c r :
  scale_list c (float_list r) = inl (float_list (map (fun x => x * c)%float r)).
Proof.
  unfold scale_list, float_list. induction r as [|x r IH]; [reflexivity|].
  cbn [map mapM py_mul rbind].
  destruct (mapM _ (map PFloat r)) as [l'|e]; cbn [rbind] in IH |- *; [|discriminate].
  injection IH as IH. rewrite IH. reflexivity.
Qed.

(** A [QasmBackendConfiguration] keeps [qubit_lo_range] and [rep_times]
    (not parameters of its [__init__]) in [_data], converted to Hz and to
    seconds. [to_dict] converts [qubit_lo_range] back, giving each bound
    [b] as [(b * 1e9) * 1e-9], but emits [rep_times] still in seconds,
    [r * 1e-6] for an input of [r] microseconds. *)
Theorem Qasm_units_round_trip (data : dict) (o : obj) (out : dict)
  (l : list (float * float)) (r : list float) :
  Qasm_from_dict data = inl o -> NoDup (map fst data) -> Qasm_to_dict o = inl out ->
  dget data "qubit_lo_range" = Some (float_pairs l) -> dget data "rep_times" = Some (float_list r) ->
  getattr o "qubit_lo_range" = inl (float_pairs (scale_float_pairs 1e9 l)) /\
  dget out "qubit_lo_range" = Some (float_pairs (scale_float_pairs 1e-9 (scale_float_pairs 1e9 l))) /\
  getattr o "rep_times" = inl (float_list (map (fun x => x * 1e-6)%float r)) /\
  dget out "rep_times" = Some (float_list (map (fun x => x * 1e-6)%float r)).
Proof.
  intros H Hd Ho Hl Hr.
  destruct (Qasm_from_dict_data _ _ H Hd) as (Nd & _ & Hq & Ht & Hattr).
  pose proof (Hq _ _ Hl (scale_pairs_float_pairs _ _)) as Hq'.
  pose proof (Ht _ _ Hr (scale_list_float_list _ _)) as Ht'.
  destruct (Qasm_to_dict_data _ _ Ho Nd) as [Hpass Hback].
  assert (Np : forall k, In k ["qubit_lo_range"; "rep_times"] -> ~ In k Qasm_params).
  { intros k Hk Hin. simpl in Hk. apply notin_of_existsb with (k := k) (l := Qasm_params); [|exact Hin].
    destruct Hk as [<-|[<-|[]]]; reflexivity. }
  split; [|split; [|split]].
  - rewrite getattr_plain_name by reflexivity. unfold getattr_plain, py__getattr__.
    rewrite (Hattr "qubit_lo_range" (Np "qubit_lo_range" ltac:(simpl; tauto))), Hq'. reflexivity.
  - exact (Hback _ _ Hq' (scale_pairs_float_pairs _ _)).
  - rewrite getattr_plain_name by reflexivity. unfold getattr_plain, py__getattr__.
    rewrite (Hattr "rep_times" (Np "rep_times" ltac:(simpl; tauto))), Ht'. reflexivity.
  - apply Hpass; [simpl; intuition discriminate|exact Ht'].
Qed.

Lemma fold_setattr_In (f : string -> pyval) ks o k :
  In k ks -> dget (attrs (fold_left (fun o k => setattr o k (f k)) ks o)) k = Some (f k).
Proof.
  revert o; induction ks as [|k0 ks IH]; intros o Hk; [destruct Hk|].
  simpl. destruct (in_dec String.string_dec k ks) as [Hin|Hn]; [apply IH, Hin|].
  destruct Hk as [<-|Hk]; [|contradiction].
  rewrite fold_setattr_frame by exact Hn. cbn [attrs setattr]; rewrite dget_dset, String.eqb_refl.
  reflexivity.
Qed.

Lemma Qasm_init_required kw o o' k :
  Qasm_init kw o = inl o' -> In k Qasm_required -> dget (attrs o') k = Some (arg kw k).
Proof.
  intros H Hk. unfold Qasm_init in H. peel H. injection H as <-. cbn [attrs].
  rewrite !set_if_frame by (intros ->; exfalso; simpl in Hk; intuition discriminate).
  rewrite (set_conv_if_frame _ _ _ _ _ _ E3) by (intros ->; exfalso; simpl in Hk; intuition discriminate).
  rewrite (set_conv_if_frame _ _ _ _ _ _ E2) by (intros ->; exfalso; simpl in Hk; intuition discriminate).
  rewrite fold_set_if_frame by (intros Hin; exfalso; simpl in Hk, Hin; intuition congruence).
  rewrite !set_if_frame by (intros ->; exfalso; simpl in Hk; intuition discriminate).
  rewrite (set_conv_if_frame _ _ _ _ _ _ E1) by (intros ->; exfalso; simpl in Hk; intuition discriminate).
  rewrite (set_conv_if_frame _ _ _ _ _ _ E0) by (intros ->; exfalso; simpl in Hk; intuition discriminate).
  cbn [attrs setattr]; rewrite dget_dset.
  destruct (String.eqb_spec k "dynamic_reprate_enabled") as [->|];
    [exfalso; simpl in Hk; intuition discriminate|].
  rewrite set_if_frame by (intros ->; exfalso; simpl in Hk; intuition discriminate).
  apply fold_setattr_In, Hk.
Qed.

(** The required fields of a [QasmBackendConfiguration] other than [gates]
    are stored as read by [from_dict], and [key in config] holds for
    them. *)
Theorem Qasm_required_fields (data : dict) (o : obj) (k : string) :
  Qasm_from_dict data = inl o -> In k Qasm_required -> k <> "gates" ->
  exists v, dget data k = Some v /\ getattr o k = inl v /\ contains o k = true.
Proof.
  intros H Hk Hg. destruct (Qasm_from_dict_init _ _ H) as (kw & Hi & Hkw).
  pose proof (Qasm_init_required _ _ _ _ Hi Hk) as Ha.
  unfold Qasm_init in Hi. destruct (check_call Qasm_params Qasm_required true kw) as [[]|] eqn:Hc;
    cbn [rbind] in Hi; [|discriminate].
  destruct (check_call_ok _ _ _ _ Hc) as [Hreq _].
  destruct (dmem_dget _ _ (Hreq k Hk)) as [v Hv].
  exists v. rewrite <- (Hkw k Hg). split; [exact Hv|].
  unfold arg in Ha; rewrite Hv in Ha. split.
  - assert (Hpl : plain_name k = true)
      by (clear -Hk; repeat (destruct Hk as [<-|Hk]; [reflexivity|]); destruct Hk).
    rewrite getattr_plain_name by exact Hpl. unfold getattr_plain; rewrite Ha; reflexivity.
  - unfold contains, dmem; rewrite Ha; reflexivity.
Qed.

Section Group.

Variables (K V : Type) (eqb : K -> K -> bool).
Hypothesis eqb_spec : forall a b, eqb a b = true <-> a = b.

Lemma eqb_refl_K a : eqb a a = true.
Proof. apply eqb_spec; reflexivity. Qed.

Lemma mlookup_mextend (m : list (K * list V)) k vs k' :
  mlookup eqb (mextend eqb m k vs) k' =
  if eqb k' k then Some (match mlookup eqb m k with Some v => (v ++ vs)%list | None => vs end)
  else mlookup eqb m k'.
Proof.
  induction m as [|[k0 v0] m IH]; simpl.
  - destruct (eqb k' k); reflexivity.
  - destruct (eqb k k0) eqn:E1; simpl.
    + apply eqb_spec in E1; subst k0. destruct (eqb k' k); reflexivity.
    + rewrite IH. destruct (eqb k' k0) eqn:E2; [|reflexivity].
      apply eqb_spec in E2; subst k0. destruct (eqb k' k) eqn:E3; [|reflexivity].
      apply eqb_spec in E3; subst k'. rewrite eqb_refl_K in E1; discriminate.
Qed.

Lemma mlookup_fold (E : Type) (p : E -> bool) (key : E -> K) (val : E -> list V) (es : list E) (m : list (K * list V)) k :
  mlookup eqb (fold_left (fun m e => if p e then mextend eqb m (key e) (val e) else m) es m) k =
  match mlookup eqb m k with
  | Some v => Some (v ++ concat (map val (filter (fun e => p e && eqb k (key e)) es)))%list
  | None =>
      match filter (fun e => p e && eqb k (key e)) es with
      | [] => None
      | l => Some (concat (map val l))
      end
  end.
Proof.
  revert m; induction es as [|e es IH]; intros m; cbn [fold_left filter map concat].
  - destruct (mlookup eqb m k); [rewrite app_nil_r|]; reflexivity.
  - rewrite IH. destruct (p e) eqn:Hp; cbn [andb]; [|reflexivity].
    rewrite mlookup_mextend. destruct (eqb k (key e)) eqn:Hk; [|reflexivity].
    apply eqb_spec in Hk; subst k.
    destruct (mlookup eqb m (key e)); cbn [map concat]; [rewrite app_assoc|]; reflexivity.
Qed.

Lemma in_mextend (P : K -> Prop) (c : V) (m : list (K * list V)) k vs :
  (exists kv, In kv (mextend eqb m k vs) /\ P (fst kv) /\ In c (snd kv)) <->
  (exists kv, In kv m /\ P (fst kv) /\ In c (snd kv)) \/ (P k /\ In c vs).
Proof.
  induction m as [|[k0 v0] m IH]; cbn [mextend].
  - split.
    + intros (kv & [<-|[]] & H1 & H2); right; auto.
    + intros [(kv & [] & _)|[H1 H2]]. exists (k, vs); simpl; auto.
  - destruct (eqb k k0) eqn:E1.
    + apply eqb_spec in E1; subst k0. split.
      * intros (kv & [<-|Hin] & H1 & H2).
        -- cbn [fst snd] in *. apply in_app_iff in H2 as [H2|H2].
           ++ left; exists (k, v0); simpl; auto.
           ++ right; auto.
        -- left; exists kv; simpl; auto.
      * intros [(kv & [<-|Hin] & H1 & H2)|[H1 H2]].
        -- exists (k, (v0 ++ vs)%list); simpl in *; split; [auto|split; [auto|apply in_app_iff; auto]].
        -- exists kv; simpl; auto.
        -- exists (k, (v0 ++ vs)%list); simpl; split; [auto|split; [auto|apply in_app_iff; auto]].
    + split.
      * intros (kv & [<-|Hin] & H1 & H2).
        -- left; exists (k0, v0); simpl; auto.
        -- assert (Hx : exists kv, In kv (mextend eqb m k vs) /\ P (fst kv) /\ In c (snd kv))
             by (exists kv; auto).
           apply IH in Hx as [(kv' & H3 & H4 & H5)|Hx]; [left; exists kv'; simpl; auto|right; exact Hx].
      * intros [(kv & [<-|Hin] & H1 & H2)|Hx].
        -- exists (k0, v0); simpl; auto.
        -- destruct (proj2 IH (or_introl (ex_intro _ kv (conj Hin (conj H1 H2)))))
             as (kv' & H3 & H4 & H5).
           exists kv'; simpl; auto.
        -- destruct (proj2 IH (or_intror Hx)) as (kv' & H3 & H4 & H5).
           exists kv'; simpl; auto.
Qed.

Lemma in_fold_mextend (E : Type) (P : K -> Prop) (key : E -> K) (val : E -> list V) (c : V) (es : list E) (m : list (K * list V)) :
  (exists kv, In kv (fold_left (fun m e => mextend eqb m (key e) (val e)) es m) /\
              P (fst kv) /\ In c (snd kv)) <->
  (exists kv, In kv m /\ P (fst kv) /\ In c (snd kv)) \/
  (exists e, In e es /\ P (key e) /\ In c (val e)).
Proof.
  revert m; induction es as [|e es IH]; intros m; cbn [fold_left].
  - split; [intros H; left; exact H|intros [H|(e & [] & _)]; exact H].
  - rewrite IH, in_mextend. split.
    + intros [[H|[H1 H2]]|(e' & H1 & H2 & H3)].
      * left; exact H.
      * right; exists e; simpl; auto.
      * right; exists e'; simpl; auto.
    + intros [H|(e' & [<-|H1] & H2 & H3)].
      * left; left; exact H.
      * left; right; auto.
      * right; exists e'; auto.
Qed.

End Group.

Lemma Pulse_init_maps kw o :
  Pulse_init kw = inl o ->
  (arg kw "channels" = PNone /\ _qubit_channel_map o = None /\ _channel_qubit_map o = None /\
   _control_channels o = Some (DefaultDictList [])) \/
  (exists ch qcm cqm cc, arg kw "channels" = PDict ch /\ _parse_channels ch = inl (qcm, cqm, cc) /\
     _qubit_channel_map o = Some qcm /\ _channel_qubit_map o = Some cqm /\
     _control_channels o = Some (PlainDict cc)).
Proof.
  intros H. unfold Pulse_init in H; peel H.
  destruct (Qasm_init_data _ _ _ H) as (d1 & d2 & d3 & _ & _ & _ & _ & -> & -> & ->).
  remember (fold_left (fun o k => set_if (negb (is_None (arg kw k))) o k (arg kw k))
                ["acquisition_latency"; "conditional_latency"; "meas_map"] o7) as o8 eqn:Ho8.
  assert (R1 : rest o8 = rest o6)
    by (rewrite Ho8, rest_fold_set_if; exact (rest_set_conv_if _ _ _ _ _ E7)).
  unfold rest in R1. injection R1 as _ -> -> -> _.
  destruct (arg kw "channels") eqn:Hc; try discriminate E6.
  - injection E6 as <-. left. cbn [_qubit_channel_map _channel_qubit_map _control_channels].
    assert (R : rest o2 = rest o1).
    { destruct (arg kw "hamiltonian"); try discriminate E2.
      - injection E2 as <-; reflexivity.
      - peel E2. injection E2 as <-; reflexivity. }
    assert (R5 : rest o5 = rest empty_pulse_obj).
    { rewrite (rest_set_conv_if _ _ _ _ _ E5), (rest_set_conv_if _ _ _ _ _ E4),
        (rest_set_conv_if _ _ _ _ _ E3), R, (rest_set_conv_if _ _ _ _ _ E1),
        (rest_set_conv_if _ _ _ _ _ E0), rest_fold_setattr. reflexivity. }
    unfold rest in R5; injection R5 as _ -> -> _ _. auto.
  - right. destruct (_parse_channels d) as [[[qcm cqm] cc]|] eqn:Hp; cbn [rbind] in E6;
      [|discriminate]. injection E6 as <-.
    exists d, qcm, cqm, cc. auto.
Qed.

Lemma Pulse_init_data_None kw o k :
  Pulse_init kw = inl o -> ~ In k Pulse_params -> ~ In k Qasm_params ->
  ~ In k ["qubit_lo_range"; "meas_lo_range"; "rep_times"] ->
  dget kw k = None -> dget (_data o) k = None.
Proof.
  intros H Hp Hq Hc Hk. unfold Pulse_init in H; peel H.
  destruct (Qasm_init_data _ _ _ H) as (d1 & d2 & d3 & C1 & C2 & C3 & -> & _).
  rewrite dget_dupdate.
  assert (Hd : dget d3 k = None).
  { rewrite (conv_kwarg_frame _ _ _ _ _ C3) by (intros ->; apply Hc; simpl; tauto).
    rewrite (conv_kwarg_frame _ _ _ _ _ C2) by (intros ->; apply Hc; simpl; tauto).
    rewrite (conv_kwarg_frame _ _ _ _ _ C1) by (intros ->; apply Hc; simpl; tauto).
    rewrite dget_extra_kwargs_notin by exact Hq.
    rewrite dget_app, dget_map_keys.
    2:{ intros Hin; apply Hp; unfold Pulse_params, Pulse_required, Pulse_super_args in *.
        apply in_app_iff in Hin as [Hin|Hin]; apply in_app_iff; [left; apply in_app_iff; left; exact Hin|].
        right; simpl in Hin |- *; tauto. }
    rewrite dget_extra_kwargs_notin by exact Hp. exact Hk. }
  apply dget_None_notin in Hd. assert (Hr : dget (rev d3) k = None).
  { apply dget_None_notin. rewrite map_rev. intros Hin; apply Hd, in_rev; exact Hin. }
  rewrite Hr. reflexivity.
Qed.

Lemma zlist_eqb_spec a b : zlist_eqb a b = true <-> a = b.
Proof.
  revert b; induction a as [|x a IH]; intros [|y b]; simpl; try (split; congruence).
  rewrite andb_true_iff, Z.eqb_eq, IH. split; [intros [-> ->]; reflexivity|].
  intros H; injection H as -> ->; split; reflexivity.
Qed.

Lemma channel_eqb_spec a b : channel_eqb a b = true <-> a = b.
Proof.
  destruct a, b; simpl; try (split; congruence); rewrite Z.eqb_eq; split; congruence.
Qed.

Lemma parse_step_inr ch e :
  fold_left
    (fun acc (entry : string * pyval) =>
       maps <- acc ;;
       let '(qubit_channel_map, channel_qubit_map, control_channels) := maps in
       let (channel, config) := entry in
       pi <- _get_channel_prefix_index channel ;;
       let (channel_prefix, index) := pi in
       channel_type <- channels_dict channel_prefix ;;
       qubits <- operates_qubits config ;;
       let qubit_channel_map :=
         mextend zlist_eqb qubit_channel_map qubits [channel_type index] in
       let channel_qubit_map :=
         mextend channel_eqb channel_qubit_map (channel_type index) qubits in
       let control_channels :=
         if String.eqb channel_prefix "u"
         then mextend zlist_eqb control_channels qubits [channel_type index]
         else control_channels in
       inl (qubit_channel_map, channel_qubit_map, control_channels))
    ch (inr e) = inr e.
Proof. induction ch as [|x ch IH]; [reflexivity|exact IH]. Qed.

Lemma parse_step_fold ch a b c maps :
  fold_left
    (fun acc (entry : string * pyval) =>
       maps <- acc ;;
       let '(qubit_channel_map, channel_qubit_map, control_channels) := maps in
       let (channel, config) := entry in
       pi <- _get_channel_prefix_index channel ;;
       let (channel_prefix, index) := pi in
       channel_type <- channels_dict channel_prefix ;;
       qubits <- operates_qubits config ;;
       let qubit_channel_map :=
         mextend zlist_eqb qubit_channel_map qubits [channel_type index] in
       let channel_qubit_map :=
         mextend channel_eqb channel_qubit_map (channel_type index) qubits in
       let control_channels :=
         if String.eqb channel_prefix "u"
         then mextend zlist_eqb control_channels qubits [channel_type index]
         else control_channels in
       inl (qubit_channel_map, channel_qubit_map, control_channels))
    ch (inl (a, b, c)) = inl maps ->
  exists es, mapM parse_entry ch = inl es /\
    maps = (fold_left (fun m e => mextend zlist_eqb m (snd e) [snd (fst e)]) es a,
            fold_left (fun m e => mextend channel_eqb m (snd (fst e)) (snd e)) es b,
            fold_left (fun m e => if String.eqb (fst (fst e)) "u"
                                  then mextend zlist_eqb m (snd e) [snd (fst e)] else m) es c).
Proof.
  revert a b c; induction ch as [|[name cfg] ch IH]; intros a b c H; cbn [fold_left] in H.
  - injection H as <-. exists []. split; reflexivity.
  - cbn [mapM]. unfold parse_entry at 1.
    cbn [rbind] in H.
    destruct (_get_channel_prefix_index name) as [[p i]|e]; cbn [rbind] in H |- *;
      [|rewrite parse_step_inr in H; discriminate].
    destruct (channels_dict p) as [ct|e]; cbn [rbind] in H |- *;
      [|rewrite parse_step_inr in H; discriminate].
    destruct (operates_qubits cfg) as [qs|e]; cbn [rbind] in H |- *;
      [|rewrite parse_step_inr in H; discriminate].
    destruct (IH _ _ _ H) as (es & -> & ->). cbn [rbind].
    exists ((p, ct i, qs) :: es). split; reflexivity.
Qed.

Lemma parse_channels_entries ch maps :
  _parse_channels ch = inl maps ->
  exists es, mapM parse_entry ch = inl es /\
    maps = (fold_left (fun m e => mextend zlist_eqb m (snd e) [snd (fst e)]) es [],
            fold_left (fun m e => mextend channel_eqb m (snd (fst e)) (snd e)) es [],
            fold_left (fun m e => if String.eqb (fst (fst e)) "u"
                                  then mextend zlist_eqb m (snd e) [snd (fst e)] else m) es []).
Proof. intros H. exact (parse_step_fold ch [] [] [] maps H). Qed.

Lemma mapM_In {A B} (f : A -> Res B) l l' y :
  mapM f l = inl l' -> In y l' -> exists x, In x l /\ f x = inl y.
Proof.
  revert l'; induction l as [|x l IH]; intros l' H Hy; cbn [mapM] in H.
  - injection H as <-; destruct Hy.
  - destruct (f x) as [y0|e] eqn:Ef; cbn [rbind] in H; [|discriminate].
    destruct (mapM f l) as [l0|e] eqn:El; cbn [rbind] in H; [|discriminate].
    injection H as <-. destruct Hy as [<-|Hy].
    + exists x; split; [left; reflexivity|exact Ef].
    + destruct (IH l0 eq_refl Hy) as (x' & H1 & H2). exists x'; split; [right; exact H1|exact H2].
Qed.

Lemma mapM_In_ok {A B} (f : A -> Res B) l l' x :
  mapM f l = inl l' -> In x l -> exists y, In y l' /\ f x = inl y.
Proof.
  revert l'; induction l as [|x0 l IH]; intros l' H Hx; cbn [mapM] in H; [destruct Hx|].
  destruct (f x0) as [y0|e] eqn:Ef; cbn [rbind] in H; [|discriminate].
  destruct (mapM f l) as [l0|e] eqn:El; cbn [rbind] in H; [|discriminate].
  injection H as <-. destruct Hx as [<-|Hx].
  - exists y0; split; [left; reflexivity|exact Ef].
  - destruct (IH l0 eq_refl Hx) as (y & H1 & H2). exists y; split; [right; exact H1|exact H2].
Qed.

Lemma existsb_channel_In c s : existsb (channel_eqb c) s = true <-> In c s.
Proof.
  rewrite existsb_exists. split.
  - intros (x & Hx & E). apply channel_eqb_spec in E; subst; exact Hx.
  - intros H; exists c; split; [exact H|apply channel_eqb_spec; reflexivity].
Qed.

Lemma existsb_Z_In q l : existsb (Z.eqb q) l = true <-> In q l.
Proof.
  rewrite existsb_exists. split.
  - intros (x & Hx & E). apply Z.eqb_eq in E; subst; exact Hx.
  - intros H; exists q; split; [exact H|apply Z.eqb_refl].
Qed.

Lemma in_set_update s cs c : In c (set_update s cs) <-> In c s \/ In c cs.
Proof.
  unfold set_update; revert s; induction cs as [|a cs IH]; intros s; cbn [fold_left].
  - split; [auto|intros [H|[]]; exact H].
  - rewrite IH. destruct (existsb (channel_eqb a) s) eqn:E.
    + apply existsb_channel_In in E. split.
      * intros [H|H]; [left; exact H|right; right; exact H].
      * intros [H|[<-|H]]; [left; exact H|left; exact E|right; exact H].
    + rewrite in_app_iff. cbn [In]. split.
      * intros [[H|[<-|[]]]|H]; [left; exact H|right; left; reflexivity|right; right; exact H].
      * intros [H|[<-|H]]; [left; left; exact H|left; right; left; reflexivity|right; exact H].
Qed.

Lemma NoDup_set_update s cs : NoDup s -> NoDup (set_update s cs).
Proof.
  unfold set_update; revert s; induction cs as [|a cs IH]; intros s Hs; cbn [fold_left];
    [exact Hs|].
  apply IH. destruct (existsb (channel_eqb a) s) eqn:E; [exact Hs|].
  apply (Permutation_NoDup (Permutation_cons_append s a)). constructor; [|exact Hs].
  intros Hin; apply existsb_channel_In in Hin; congruence.
Qed.

Lemma in_qubit_fold q (m : list (list Z * list channel)) s c :
  In c (fold_left (fun s kv => if existsb (Z.eqb q) (fst kv) then set_update s (snd kv) else s)
          m s) <->
  In c s \/ exists kv, In kv m /\ In q (fst kv) /\ In c (snd kv).
Proof.
  revert s; induction m as [|kv m IH]; intros s; cbn [fold_left].
  - split; [auto|intros [H|(kv & [] & _)]; exact H].
  - rewrite IH. destruct (existsb (Z.eqb q) (fst kv)) eqn:E.
    + rewrite in_set_update. apply existsb_Z_In in E. split.
      * intros [[H|H]|(kv' & H1 & H2 & H3)].
        -- left; exact H.
        -- right; exists kv; split; [left; reflexivity|auto].
        -- right; exists kv'; split; [right; exact H1|auto].
      * intros [H|(kv' & [<-|H1] & H2 & H3)].
        -- left; left; exact H.
        -- left; right; exact H3.
        -- right; exists kv'; auto.
    + split.
      * intros [H|(kv' & H1 & H2 & H3)]; [left; exact H|right; exists kv'; split; [right|]; auto].
      * intros [H|(kv' & [<-|H1] & H2 & H3)].
        -- left; exact H.
        -- apply existsb_Z_In in H2; congruence.
        -- right; exists kv'; auto.
Qed.

Lemma NoDup_qubit_fold q (m : list (list Z * list channel)) s :
  NoDup s ->
  NoDup (fold_left (fun s kv => if existsb (Z.eqb q) (fst kv) then set_update s (snd kv) else s)
           m s).
Proof.
  revert s; induction m as [|kv m IH]; intros s Hs; cbn [fold_left]; [exact Hs|].
  apply IH. destruct (existsb (Z.eqb q) (fst kv)); [apply NoDup_set_update|]; exact Hs.
Qed.

Lemma concat_map_single {A B} (f : A -> B) l : concat (map (fun e => [f e]) l) = map f l.
Proof. induction l as [|x l IH]; [reflexivity|cbn; rewrite IH; reflexivity]. Qed.

Lemma Pulse_from_dict_channels D o ch :
  Pulse_from_dict D = inl o -> dget D "channels" = Some (PDict ch) ->
  exists es, mapM parse_entry ch = inl es /\
    _qubit_channel_map o =
      Some (fold_left (fun m e => mextend zlist_eqb m (snd e) [snd (fst e)]) es []) /\
    _channel_qubit_map o =
      Some (fold_left (fun m e => mextend channel_eqb m (snd (fst e)) (snd e)) es []) /\
    _control_channels o =
      Some (PlainDict (fold_left (fun m e => if String.eqb (fst (fst e)) "u"
                                   then mextend zlist_eqb m (snd e) [snd (fst e)] else m) es [])).
Proof.
  intros H Hc. destruct (Pulse_from_dict_init _ _ H) as (kw & Hi & Hkw).
  assert (Ha : arg kw "channels" = PDict ch)
    by (unfold arg; rewrite Hkw, Hc by discriminate; reflexivity).
  destruct (Pulse_init_maps _ _ Hi) as [(Hn & _)|(ch' & qcm & cqm & cc & Ha' & Hp & -> & -> & ->)];
    [congruence|].
  rewrite Ha in Ha'; injection Ha' as <-.
  destruct (parse_channels_entries _ _ Hp) as (es & Hes & Hm). injection Hm as -> -> ->.
  exists es; auto.
Qed.

Lemma Pulse_from_dict_no_channels D o :
  Pulse_from_dict D = inl o -> arg D "channels" = PNone ->
  _qubit_channel_map o = None /\ _channel_qubit_map o = None /\
  _control_channels o = Some (DefaultDictList []).
Proof.
  intros H Hc. destruct (Pulse_from_dict_init _ _ H) as (kw & Hi & Hkw).
  assert (Ha : arg kw "channels" = PNone) by (unfold arg in *; rewrite Hkw by discriminate; exact Hc).
  destruct (Pulse_init_maps _ _ Hi) as [(_ & H1 & H2 & H3)|(ch' & qcm & cqm & cc & Ha' & _)];
    [auto|congruence].
Qed.


(** On a configuration built with [channels], [get_channel_qubits c] returns
    the qubits of every entry naming [c], concatenated in the order of the
    entries, and raises [BackendConfigurationError] when no entry names [c]. *)
Theorem get_channel_qubits_from_channels D o ch :
  Pulse_from_dict D = inl o -> dget D "channels" = Some (PDict ch) ->
  exists es, mapM parse_entry ch = inl es /\
  forall c, get_channel_qubits o c =
    match filter (fun e => channel_eqb c (snd (fst e))) es with
    | [] => inr (BackendConfigurationError ("Couldn't find the Channel - " ++ channel_str c))
    | l => inl (concat (map snd l))
    end.
Proof.
  intros H Hc. destruct (Pulse_from_dict_channels _ _ _ H Hc) as (es & Hes & _ & Hm & _).
  exists es; split; [exact Hes|]. intros c. unfold get_channel_qubits; rewrite Hm.
  pose proof (mlookup_fold _ _ channel_eqb channel_eqb_spec _ (fun _ => true)
                (fun e => snd (fst e)) snd es [] c) as L.
  cbv beta iota in L. cbn [mlookup] in L. rewrite L. cbn [andb].
  destruct (filter _ es); reflexivity.
Qed.

(** On a configuration built with [channels], [get_qubit_channels] of an
    integer qubit returns, without duplicates, exactly the channels of the
    entries whose qubits contain it; of a list or a tuple (which give the same
    answer), exactly the channels of the entries whose qubits equal it. When
    no entry matches it raises [BackendConfigurationError]. *)
Theorem get_qubit_channels_from_channels D o ch :
  Pulse_from_dict D = inl o -> dget D "channels" = Some (PDict ch) ->
  exists es, mapM parse_entry ch = inl es /\
  (forall q,
     ((exists e, In e es /\ In q (snd e)) ->
      exists cs, get_qubit_channels o (QInt q) = inl cs /\ NoDup cs /\
        forall c, In c cs <-> exists e, In e es /\ In q (snd e) /\ snd (fst e) = c) /\
     (~ (exists e, In e es /\ In q (snd e)) ->
      get_qubit_channels o (QInt q) =
        inr (BackendConfigurationError ("Couldn't find the qubit - " ++ z_str q)))) /\
  (forall qs,
     get_qubit_channels o (QList qs) = get_qubit_channels o (QTuple qs) /\
     ((exists e, In e es /\ snd e = qs) ->
      exists cs, get_qubit_channels o (QTuple qs) = inl cs /\ NoDup cs /\
        forall c, In c cs <-> exists e, In e es /\ snd e = qs /\ snd (fst e) = c) /\
     (~ (exists e, In e es /\ snd e = qs) ->
      get_qubit_channels o (QTuple qs) =
        inr (BackendConfigurationError ("Couldn't find the qubit - " ++ tuple_str qs)))).
Proof.
  intros H Hc. destruct (Pulse_from_dict_channels _ _ _ H Hc) as (es & Hes & Hq & _).
  exists es; split; [exact Hes|split].
  - intros q.
    set (cs := fold_left (fun s kv => if existsb (Z.eqb q) (fst kv) then set_update s (snd kv) else s)
                 (fold_left (fun m e => mextend zlist_eqb m (snd e) [snd (fst e)]) es []) []).
    assert (Hin : forall c, In c cs <-> exists e, In e es /\ In q (snd e) /\ snd (fst e) = c).
    { intros c. unfold cs. rewrite in_qubit_fold.
      rewrite (in_fold_mextend _ _ zlist_eqb zlist_eqb_spec _ (fun k => In q k) snd
                 (fun e => [snd (fst e)]) c es []).
      split.
      - intros [[]|[(kv & [] & _)|(e & H1 & H2 & [H3|[]])]]. exists e; auto.
      - intros (e & H1 & H2 & H3). right; right; exists e; repeat split; auto. left; exact H3. }
    assert (Hnd : NoDup cs) by (apply NoDup_qubit_fold; constructor).
    unfold get_qubit_channels; rewrite Hq. fold cs. split.
    + intros (e & H1 & H2). exists cs.
      destruct cs as [|c0 cs'] eqn:Ecs.
      * exfalso. apply (proj2 (Hin (snd (fst e)))). exists e; auto.
      * cbn [length Nat.eqb]. auto.
    + intros Hn. destruct cs as [|c0 cs'] eqn:Ecs; [reflexivity|].
      exfalso. destruct (proj1 (Hin c0) (or_introl eq_refl)) as (e & H1 & H2 & _).
      apply Hn; exists e; auto.
  - intros qs. split; [reflexivity|].
    unfold get_qubit_channels; rewrite Hq.
    pose proof (mlookup_fold _ _ zlist_eqb zlist_eqb_spec _ (fun _ => true)
                  snd (fun e => [snd (fst e)]) es [] qs) as L.
    cbv beta iota in L. cbn [mlookup andb] in L. rewrite L.
    assert (Hf : forall e, In e (filter (fun e => zlist_eqb qs (snd e)) es) <-> In e es /\ snd e = qs).
    { intros e. rewrite filter_In, zlist_eqb_spec. split; intros [H1 H2]; auto. }
    destruct (filter (fun e => zlist_eqb qs (snd e)) es) as [|e0 l] eqn:Ef; split.
    + intros (e & H1 & H2). exfalso. apply (proj2 (Hf e)); auto.
    + intros _; reflexivity.
    + intros _. eexists; split; [reflexivity|split; [apply NoDup_set_update; constructor|]].
      intros c. rewrite in_set_update, concat_map_single, <- Ef. split.
      * intros [[]|Hc']. apply in_map_iff in Hc' as (e & <- & He). apply filter_In in He as [He1 He2].
        apply zlist_eqb_spec in He2. exists e; auto.
      * intros (e & H1 & H2 & H3). right. apply in_map_iff. exists e; split; [exact H3|].
        apply filter_In; split; [exact H1|apply zlist_eqb_spec; symmetry; exact H2].
    + intros Hn. exfalso. apply Hn. exists e0. apply Hf. left; reflexivity.
Qed.

(** On a configuration built with [channels], [control(qubits)] returns the
    channels of the [u] entries operating on exactly these qubits, in order,
    raises [BackendConfigurationError] when there is none, and never changes
    the object. *)
Theorem control_from_channels D o ch :
  Pulse_from_dict D = inl o -> dget D "channels" = Some (PDict ch) ->
  exists es, mapM parse_entry ch = inl es /\
  forall qs, snd (control o qs) = o /\
    (filter (fun e => String.eqb (fst (fst e)) "u" && zlist_eqb qs (snd e)) es = [] ->
     exists msg, fst (control o qs) = inr (BackendConfigurationError msg)) /\
    (filter (fun e => String.eqb (fst (fst e)) "u" && zlist_eqb qs (snd e)) es <> [] ->
     fst (control o qs) =
       inl (map (fun e => snd (fst e))
              (filter (fun e => String.eqb (fst (fst e)) "u" && zlist_eqb qs (snd e)) es))).
Proof.
  intros H Hc. destruct (Pulse_from_dict_channels _ _ _ H Hc) as (es & Hes & _ & _ & Hcc).
  exists es; split; [exact Hes|]. intros qs. unfold control; rewrite Hcc.
  rewrite (mlookup_fold _ _ zlist_eqb zlist_eqb_spec _ (fun e => String.eqb (fst (fst e)) "u")
             snd (fun e => [snd (fst e)]) es [] qs).
  cbn [mlookup].
  destruct (filter _ es) as [|e0 l] eqn:Ef.
  - cbn [fst snd]. split; [reflexivity|split; [intros _; eexists; reflexivity|intros []; reflexivity]].
  - rewrite concat_map_single. cbn [fst snd].
    split; [reflexivity|split; [intros Hx; discriminate Hx|intros _; reflexivity]].
Qed.

(** On a configuration built without [channels] (and without the private
    map keys in its input), [get_channel_qubits] and [get_qubit_channels]
    raise the "does not provide channel information" error for every
    argument. *)
Theorem channel_queries_without_channels D o :
  Pulse_from_dict D = inl o -> arg D "channels" = PNone ->
  dget D "_channel_qubit_map" = None -> dget D "_qubit_channel_map" = None ->
  forall c q, get_channel_qubits o c = inr (no_channel_information o) /\
              get_qubit_channels o q = inr (no_channel_information o).
Proof.
  intros H Hc H1 H2 c q.
  destruct (Pulse_from_dict_no_channels _ _ H Hc) as (Q1 & Q2 & _).
  destruct (Pulse_from_dict_init _ _ H) as (kw & Hi & Hkw).
  assert (N1 : dget (_data o) "_channel_qubit_map" = None).
  { apply (Pulse_init_data_None _ _ _ Hi);
      [apply notin_of_existsb; reflexivity|apply notin_of_existsb; reflexivity|simpl; intuition discriminate|].
    rewrite Hkw by discriminate; exact H1. }
  assert (N2 : dget (_data o) "_qubit_channel_map" = None).
  { apply (Pulse_init_data_None _ _ _ Hi);
      [apply notin_of_existsb; reflexivity|apply notin_of_existsb; reflexivity|simpl; intuition discriminate|].
    rewrite Hkw by discriminate; exact H2. }
  unfold get_channel_qubits, get_qubit_channels. rewrite Q1, Q2, N1, N2.
  split; [reflexivity|destruct q; reflexivity].
Qed.

(** On a configuration built without [channels], [control(qubits)] returns
    an empty list instead of raising, and the [defaultdict] records the qubits
    with no channel; a second call returns the empty list and changes
    nothing. *)
Theorem control_without_channels_records D o qs :
  Pulse_from_dict D = inl o -> arg D "channels" = PNone ->
  fst (control o qs) = inl [] /\
  _control_channels (snd (control o qs)) = Some (DefaultDictList [(qs, [])]) /\
  attrs (snd (control o qs)) = attrs o /\ _data (snd (control o qs)) = _data o /\
  control (snd (control o qs)) qs = (inl [], snd (control o qs)).
Proof.
  intros H Hc. destruct (Pulse_from_dict_no_channels _ _ H Hc) as (_ & _ & Q3).
  assert (E : control o qs =
              (inl [], mk_obj (attrs o) (_data o) (_qubit_channel_map o) (_channel_qubit_map o)
                         (Some (DefaultDictList [(qs, [])])) (cls o))).
  { unfold control; rewrite Q3; reflexivity. }
  rewrite E; cbn [fst snd attrs _data _control_channels].
  split; [reflexivity|split; [reflexivity|split; [reflexivity|split; [reflexivity|]]]].
  unfold control; cbn [_control_channels mlookup].
  rewrite (proj2 (zlist_eqb_spec qs qs) eq_refl). reflexivity.
Qed.

Lemma Pulse_init_u_channel_lo kw o :
  Pulse_init kw = inl o -> dget (attrs o) "u_channel_lo" = Some (arg kw "u_channel_lo").
Proof.
  intros H. unfold Pulse_init in H; peel H.
  rewrite (Pulse_tail_frame _ _ _ _ _ _ E6 E7 H); cycle 1.
  { apply in_of_existsb; reflexivity. }
  { apply notin_of_existsb; reflexivity. }
  { discriminate. }
  { apply notin_of_existsb; reflexivity. }
  rewrite (set_conv_if_frame _ _ _ _ _ _ E5) by discriminate.
  rewrite (set_conv_if_frame _ _ _ _ _ _ E4) by discriminate.
  rewrite (set_conv_if_frame _ _ _ _ _ _ E3) by discriminate.
  assert (Hh : dget (attrs o2) "u_channel_lo" = dget (attrs o1) "u_channel_lo").
  { destruct (arg kw "hamiltonian"); try discriminate E2.
    - injection E2 as <-. cbn [attrs setattr]. rewrite !dget_dset. reflexivity.
    - peel E2. injection E2 as <-. cbn [attrs setattr]. rewrite !dget_dset. reflexivity. }
  rewrite Hh, (set_conv_if_frame _ _ _ _ _ _ E1) by discriminate.
  rewrite (set_conv_if_frame _ _ _ _ _ _ E0) by discriminate.
  cbn [fold_left attrs setattr empty_obj]. rewrite !dget_dset. reflexivity.
Qed.

Lemma Pulse_from_dict_u_channel_lo D o v :
  Pulse_from_dict D = inl o -> dget D "u_channel_lo" = Some v ->
  exists v', map_iter (map_iter UchannelLO_from_dict) v = inl v' /\
             getattr o "u_channel_lo" = inl v'.
Proof.
  intros H Hv. unfold Pulse_from_dict in H; peel H.
  unfold pop, getitem in E1. rewrite dget_dset in E1. cbn [String.eqb] in E1.
  rewrite (pop_frame _ _ _ _ E) in E1 by discriminate. rewrite Hv in E1.
  cbn [rbind] in E1. injection E1 as <-. cbn [fst snd] in E2, H.
  eexists; split; [exact E2|].
  rewrite getattr_plain_name by reflexivity. unfold getattr_plain.
  rewrite (Pulse_init_u_channel_lo _ _ H).
  unfold arg; rewrite dget_dset, String.eqb_refl. reflexivity.
Qed.

Lemma mapM_length {A B} (f : A -> Res B) l l' : mapM f l = inl l' -> length l' = length l.
Proof.
  revert l'; induction l as [|x l IH]; intros l' H; cbn [mapM] in H.
  - injection H as <-; reflexivity.
  - destruct (f x); cbn [rbind] in H; [|discriminate].
    destruct (mapM f l) as [l0|]; cbn [rbind] in H; [|discriminate].
    injection H as <-. cbn [length]. rewrite (IH l0 eq_refl). reflexivity.
Qed.

Lemma mapM_nth_error {A B} (f : A -> Res B) l l' n :
  mapM f l = inl l' ->
  match nth_error l n with
  | None => nth_error l' n = None
  | Some x => exists y, nth_error l' n = Some y /\ f x = inl y
  end.
Proof.
  revert l' n; induction l as [|x l IH]; intros l' n H; cbn [mapM] in H.
  - injection H as <-. destruct n; reflexivity.
  - destruct (f x) as [y|] eqn:Ef; cbn [rbind] in H; [|discriminate].
    destruct (mapM f l) as [l0|]; cbn [rbind] in H; [|discriminate].
    injection H as <-. destruct n as [|n]; cbn [nth_error].
    + exists y; auto.
    + exact (IH l0 n eq_refl).
Qed.

Lemma list_index_mapM {A B} (f : A -> Res B) l l' i :
  mapM f l = inl l' ->
  match list_index l i with
  | None => list_index l' i = None
  | Some x => exists y, list_index l' i = Some y /\ f x = inl y
  end.
Proof.
  intros H. unfold list_index. rewrite (mapM_length _ _ _ H).
  destruct (_ || _); [reflexivity|]. apply mapM_nth_error; exact H.
Qed.

Lemma UchannelLO_init_q d u :
  UchannelLO_init d = inl u ->
  u = PUchan (arg d "q") (arg d "scale") /\
  ((exists z, arg d "q" = PInt z /\ (0 <= z)%Z) \/ (exists f, arg d "q" = PFloat f) \/
   (exists b, arg d "q" = PBool b)).
Proof.
  unfold UchannelLO_init. intros H; peel H.
  destruct b; [discriminate|]. injection H as <-. split; [reflexivity|].
  destruct (arg d "q") as [|bb|z|f|s0|l0|d0|g0|q0 s1|nm]; cbn [rbind] in E0; try discriminate E0.
  - right; right; exists bb; reflexivity.
  - left; exists z; split; [reflexivity|]. injection E0 as E0. apply Z.ltb_ge; congruence.
  - right; left; exists f; reflexivity.
Qed.

Lemma mapM_uchan ds us :
  mapM UchannelLO_from_dict (map PDict ds) = inl us ->
  us = map (fun d => PUchan (arg d "q") (arg d "scale")) ds /\
  Forall (fun d => (exists z, arg d "q" = PInt z /\ (0 <= z)%Z) \/
                   (exists f, arg d "q" = PFloat f) \/ (exists b, arg d "q" = PBool b)) ds.
Proof.
  revert us; induction ds as [|d ds IH]; intros us H; cbn [map mapM] in H.
  - injection H as <-. split; [reflexivity|constructor].
  - destruct (UchannelLO_from_dict (PDict d)) as [u|] eqn:Eu; cbn [rbind] in H; [|discriminate].
    destruct (mapM UchannelLO_from_dict (map PDict ds)) as [l0|]; cbn [rbind] in H; [|discriminate].
    injection H as <-. destruct (IH l0 eq_refl) as [-> Hf].
    destruct (UchannelLO_init_q _ _ Eu) as [-> Hq].
    split; [reflexivity|constructor; assumption].
Qed.

Lemma clookup_cset m c v c' :
  clookup (cset m c v) c' = if channel_eqb c' c then Some v else clookup m c'.
Proof.
  induction m as [|[c0 v0] m IH]; cbn [cset clookup]; [reflexivity|].
  destruct (channel_eqb c c0) eqn:E1; cbn [clookup].
  - apply channel_eqb_spec in E1; subst c0. destruct (channel_eqb c' c); reflexivity.
  - rewrite IH. destruct (channel_eqb c' c0) eqn:E2; [|reflexivity].
    apply channel_eqb_spec in E2; subst c0. destruct (channel_eqb c' c) eqn:E3; [|reflexivity].
    apply channel_eqb_spec in E3; subst c'. rewrite (proj2 (channel_eqb_spec c c) eq_refl) in E1.
    discriminate.
Qed.

Lemma describe_fold_inr us e :
  fold_left (fun acc u =>
        match acc with
        | inr e => inr e
        | inl result =>
            match u with
            | PUchan q scale =>
                match drive_channel_of q with
                | Some d => inl (cset result d scale)
                | None => inr (PulseError "Channel index must be a nonnegative integer")
                end
            | _ => inr (DescribeError (AttributeError "object has no attribute 'q'"))
            end
        end) us (inr e) = inr e.
Proof. induction us as [|u us IH]; [reflexivity|exact IH]. Qed.

Lemma describe_fold_float ds r :
  Forall (fun d => (exists z, arg d "q" = PInt z /\ (0 <= z)%Z) \/
                   (exists f, arg d "q" = PFloat f) \/ (exists b, arg d "q" = PBool b)) ds ->
  (exists d f, In d ds /\ arg d "q" = PFloat f) ->
  fold_left (fun acc u =>
        match acc with
        | inr e => inr e
        | inl result =>
            match u with
            | PUchan q scale =>
                match drive_channel_of q with
                | Some d => inl (cset result d scale)
                | None => inr (PulseError "Channel index must be a nonnegative integer")
                end
            | _ => inr (DescribeError (AttributeError "object has no attribute 'q'"))
            end
        end) (map (fun d => PUchan (arg d "q") (arg d "scale")) ds) (inl r) =
  inr (PulseError "Channel index must be a nonnegative integer").
Proof.
  revert r; induction ds as [|x ds IH]; intros r Hsh (d & f & Hin & Hd); [destruct Hin|].
  inversion Hsh as [|? ? Hx Hsh']; subst. cbn [map fold_left].
  destruct Hin as [<-|Hin].
  - rewrite Hd. apply describe_fold_inr.
  - destruct Hx as [(z & Hz & Hz0)|[(f' & Hf')|(b & Hb)]].
    + rewrite Hz. cbn [drive_channel_of]. rewrite (proj2 (Z.leb_le 0 z) Hz0).
      apply IH; [exact Hsh'|exists d, f; auto].
    + rewrite Hf'. apply describe_fold_inr.
    + rewrite Hb. cbn [drive_channel_of]. apply IH; [exact Hsh'|exists d, f; auto].
Qed.

Lemma last_entry_snoc (ds : list dict) x q s zx :
  dget x "q" = Some (PInt zx) ->
  ((exists pre d post, (ds ++ [x])%list = (pre ++ d :: post)%list /\ dget d "q" = Some (PInt q) /\
     arg d "scale" = s /\ Forall (fun d' => dget d' "q" <> Some (PInt q)) post) <->
   if Z.eqb q zx then s = arg x "scale" else (exists pre d post, ds = (pre ++ d :: post)%list /\ dget d "q" = Some (PInt q) /\
     arg d "scale" = s /\ Forall (fun d' => dget d' "q" <> Some (PInt q)) post)).
Proof.
  intros Hx. split.
  - intros (pre & d & post & Heq & Hq & Hs & Hf).
    induction post as [|y post' _] using rev_ind.
    + apply app_inj_tail in Heq as [-> ->]. rewrite Hx in Hq. injection Hq as ->.
      rewrite Z.eqb_refl. symmetry; exact Hs.
    + rewrite app_comm_cons, app_assoc in Heq. apply app_inj_tail in Heq as [-> ->].
      apply Forall_app in Hf as [Hf1 Hf2]. inversion Hf2 as [|? ? Hy _]; subst.
      destruct (Z.eqb_spec q zx) as [->|Hne]; [exfalso; apply Hy; exact Hx|].
      exists pre, d, post'. auto.
  - destruct (Z.eqb_spec q zx) as [->|Hne].
    + intros ->. exists ds, x, []. split; [reflexivity|]. split; [exact Hx|split; [reflexivity|constructor]].
    + intros (pre & d & post & -> & Hq & Hs & Hf). exists pre, d, (post ++ [x])%list.
      split; [rewrite <- app_assoc; reflexivity|]. split; [exact Hq|split; [exact Hs|]].
      apply Forall_app; split; [exact Hf|]. constructor; [|constructor].
      rewrite Hx. intros E; injection E as E; apply Hne; symmetry; exact E.
Qed.

Lemma describe_fold_ints (ds : list dict) :
  Forall (fun d => exists z, dget d "q" = Some (PInt z) /\ (0 <= z)%Z) ds ->
  exists r, fold_left (fun acc u =>
        match acc with
        | inr e => inr e
        | inl result =>
            match u with
            | PUchan q scale =>
                match drive_channel_of q with
                | Some d => inl (cset result d scale)
                | None => inr (PulseError "Channel index must be a nonnegative integer")
                end
            | _ => inr (DescribeError (AttributeError "object has no attribute 'q'"))
            end
        end) (map (fun d => PUchan (arg d "q") (arg d "scale")) ds) (inl []) = inl r /\
    (forall c, clookup r c <> None -> exists q, c = DriveChannel q) /\
    forall q s, clookup r (DriveChannel q) = Some s <-> (exists pre d post, ds = (pre ++ d :: post)%list /\ dget d "q" = Some (PInt q) /\
     arg d "scale" = s /\ Forall (fun d' => dget d' "q" <> Some (PInt q)) post).
Proof.
  induction ds as [|x ds IH] using rev_ind; intros HF.
  - exists []. split; [reflexivity|split].
    + intros c Hc; exfalso; apply Hc; reflexivity.
    + intros q s; split; [discriminate|]. intros (pre & d & post & Heq & _).
      destruct pre; discriminate.
  - apply Forall_app in HF as [HF1 HF2]. inversion HF2 as [|? ? (zx & Hx & Hz) _]; subst.
    destruct (IH HF1) as (r & Hr & Hk & Hl).
    exists (cset r (DriveChannel zx) (arg x "scale")).
    rewrite map_app, fold_left_app, Hr. cbn [fold_left map].
    assert (Ha : arg x "q" = PInt zx) by (unfold arg; rewrite Hx; reflexivity).
    rewrite Ha. cbn [drive_channel_of]. rewrite (proj2 (Z.leb_le 0 zx) Hz).
    split; [reflexivity|split].
    + intros c Hc. rewrite clookup_cset in Hc.
      destruct (channel_eqb c (DriveChannel zx)) eqn:E.
      * apply channel_eqb_spec in E; subst c; exists zx; reflexivity.
      * apply Hk; exact Hc.
    + intros q s. rewrite clookup_cset, (last_entry_snoc ds x q s zx Hx). cbn [channel_eqb].
      destruct (Z.eqb q zx); [split; congruence|apply Hl].
Qed.

(** [describe(ControlChannel(i))] on a configuration from [from_dict]
    raises [IndexError] when [i] is outside [u_channel_lo], and [PulseError]
    when an entry of the selected list has a float [q]. With integer [q]s it
    maps only drive channels: [DriveChannel(q)] goes to the [scale] of the
    last entry with that [q]. *)
Theorem describe_from_dict D o ucl i :
  Pulse_from_dict D = inl o -> dget D "u_channel_lo" = Some (PList ucl) ->
  (list_index ucl i = None ->
   describe o (ControlChannel i) = inr (IndexError "list index out of range")) /\
  (forall ds, list_index ucl i = Some (PList (map PDict ds)) ->
   ((exists d f, In d ds /\ dget d "q" = Some (PFloat f)) ->
    describe o (ControlChannel i) = inr (PulseError "Channel index must be a nonnegative integer")) /\
   (Forall (fun d => exists z, dget d "q" = Some (PInt z)) ds ->
    exists result, describe o (ControlChannel i) = inl result /\
      (forall c, clookup result c <> None -> exists q, c = DriveChannel q) /\
      forall q s, clookup result (DriveChannel q) = Some s <-> (exists pre d post, ds = (pre ++ d :: post)%list /\ dget d "q" = Some (PInt q) /\
     arg d "scale" = s /\ Forall (fun d' => dget d' "q" <> Some (PInt q)) post))).
Proof.
  intros H Hu. destruct (Pulse_from_dict_u_channel_lo _ _ _ H Hu) as (v' & Hm & Hg).
  cbn [map_iter] in Hm.
  destruct (mapM (map_iter UchannelLO_from_dict) ucl) as [ucl'|] eqn:Hm'; cbn [rbind] in Hm;
    [|discriminate]. injection Hm as <-.
  pose proof (list_index_mapM _ _ _ i Hm') as Li.
  split.
  - intros Hn. rewrite Hn in Li. unfold describe. rewrite Hg, Li. reflexivity.
  - intros ds Hs. rewrite Hs in Li. destruct Li as (y & Hy & Hfy). cbn [map_iter] in Hfy.
    destruct (mapM UchannelLO_from_dict (map PDict ds)) as [us|] eqn:Hus; cbn [rbind] in Hfy;
      [|discriminate]. injection Hfy as <-.
    destruct (mapM_uchan _ _ Hus) as [-> Hshape].
    unfold describe; rewrite Hg, Hy. split.
    + intros (d & f & Hin & Hd). apply describe_fold_float; [exact Hshape|].
      exists d, f; split; [exact Hin|unfold arg; rewrite Hd; reflexivity].
    + intros Hi. apply describe_fold_ints.
      rewrite Forall_forall in Hi, Hshape |- *. intros d Hd.
      destruct (Hi d Hd) as (z & Hz). exists z; split; [exact Hz|].
      assert (Ha : arg d "q" = PInt z) by (unfold arg; rewrite Hz; reflexivity).
      destruct (Hshape d Hd) as [(z' & Hz' & H0)|[(f & Hf)|(b & Hb)]]; congruence.
Qed.

Lemma span_spec p s a b :
  span p s = (a, b) <->
  s = (a ++ b)%string /\ all_chars p a = true /\
  match b with EmptyString => True | String c _ => p c = false end.
Proof.
  revert a b; induction s as [|c s IH]; intros a b; cbn [span].
  - split.
    + intros H; injection H as <- <-; cbn; auto.
    + intros (Hs & Ha & Hb). destruct a; [|discriminate]. cbn in Hs. subst b. reflexivity.
  - destruct (p c) eqn:Hc.
    + destruct (span p s) as [a' b'] eqn:Hs. split.
      * intros H; injection H as <- <-. destruct (proj1 (IH a' b') eq_refl) as (-> & Ha & Hb).
        cbn [all_chars append]. rewrite Hc, Ha. auto.
      * intros (Hs' & Ha & Hb). destruct a as [|c' a].
        -- cbn in Hs'. subst b. cbn in Hb. congruence.
        -- cbn in Hs', Ha. injection Hs' as -> Hs'. apply andb_true_iff in Ha as [_ Ha].
           assert (E : (a', b') = (a, b)) by (apply IH; auto). congruence.
    + split.
      * intros H; injection H as <- <-. cbn. auto.
      * intros (Hs' & Ha & Hb). destruct a as [|c' a].
        -- cbn in Hs'; subst b; reflexivity.
        -- cbn in Hs', Ha. injection Hs' as -> _. rewrite Hc in Ha; discriminate.
Qed.

Lemma digit_not_lower c : is_digit c = true -> is_lower c = false.
Proof.
  unfold is_digit, is_lower. intros H. apply andb_true_iff in H as [_ H].
  apply Nat.leb_le in H. destruct (Nat.leb_spec 97 (nat_of_ascii c)); [lia|reflexivity].
Qed.

(** [_get_channel_prefix_index name] returns [(p, i)] exactly when [name]
    is a non-empty run [p] of lower-case letters, then a non-empty run [ds]
    of digits, then a rest that does not start with a digit, and [i] is
    [int(ds)]. *)
Theorem get_channel_prefix_index_spec name p i :
  _get_channel_prefix_index name = inl (p, i) <->
  exists ds rest, name = (p ++ ds ++ rest)%string /\ p <> "" /\ all_chars is_lower p = true /\
    ds <> "" /\ all_chars is_digit ds = true /\
    match rest with EmptyString => True | String c _ => is_digit c = false end /\
    i = int_of_digits ds.
Proof.
  unfold _get_channel_prefix_index. split.
  - destruct (span is_lower name) as [l r] eqn:H1. destruct (span is_digit r) as [ds rest] eqn:H2.
    apply span_spec in H1, H2. intros H.
    destruct (String.eqb l "" || String.eqb ds "") eqn:E; [discriminate|].
    injection H as <- <-. apply orb_false_iff in E as [E1 E2].
    apply String.eqb_neq in E1, E2. destruct H1 as (-> & Hl & _). destruct H2 as (-> & Hd & Hr).
    exists ds, rest. repeat split; auto.
  - intros (ds & rest & -> & Hp & Hpl & Hds & Hdd & Hr & ->).
    rewrite (proj2 (span_spec is_lower (p ++ ds ++ rest) p (ds ++ rest))).
    2:{ split; [reflexivity|split; [exact Hpl|]].
        destruct ds as [|c ds]; [congruence|]. cbn [append].
        cbn [all_chars] in Hdd. apply andb_true_iff in Hdd as [Hc _].
        apply digit_not_lower; exact Hc. }
    rewrite (proj2 (span_spec is_digit (ds ++ rest) ds rest)) by auto.
    apply String.eqb_neq in Hp, Hds. rewrite Hp, Hds. reflexivity.
Qed.

Lemma Pulse_to_dict_u_channel_lo o out v :
  Pulse_to_dict o = inl out -> getattr o "u_channel_lo" = inl v ->
  exists w, map_iter (map_iter UchannelLO_to_dict) v = inl w /\ dget out "u_channel_lo" = Some w.
Proof.
  intros H Hv. unfold Pulse_to_dict in H; peel H.
  injection Hv as ->. eexists; split; [exact E1|].
  rewrite (emit_attr_frame _ _ _ _ _ _ H) by discriminate.
  rewrite (hamiltonian_out_frame _ _ _ _ _ E16) by discriminate.
  rewrite (emit_attr_frame _ _ _ _ _ _ E14) by discriminate.
  rewrite (mul_key_frame _ _ _ _ _ E13) by discriminate.
  rewrite (mul_key_frame _ _ _ _ _ E12) by discriminate.
  rewrite (dset_if_frame _ _ _ _ _ _ E11) by discriminate.
  rewrite (dset_if_frame _ _ _ _ _ _ E9) by discriminate.
  rewrite (dset_if_frame _ _ _ _ _ _ E7) by discriminate.
  rewrite (channels_pops_frame _ _ _ E5) by (simpl; intuition discriminate).
  rewrite (emit_attrs_spec _ _ _ _ _ E4 eq_refl); simpl existsb; cbn iota.
  rewrite dget_dupdate, (getattrs_map _ _ _ E2), (getattrs_map _ _ _ E3). reflexivity.
Qed.

Lemma uchan_list_round_trip (ds : list dict) us ws :
  mapM UchannelLO_from_dict (map PDict ds) = inl us -> mapM UchannelLO_to_dict us = inl ws ->
  exists ds', ws = map PDict ds' /\ Forall2 (fun d d' => forall k, dget d' k = dget d k) ds ds'.
Proof.
  revert us ws; induction ds as [|d ds IH]; intros us ws H1 H2; cbn [map mapM] in H1.
  - injection H1 as <-. cbn [mapM] in H2. injection H2 as <-. exists []; split; constructor.
  - destruct (UchannelLO_from_dict (PDict d)) as [u|] eqn:Eu; cbn [rbind] in H1; [|discriminate].
    destruct (mapM UchannelLO_from_dict (map PDict ds)) as [us0|]; cbn [rbind] in H1;
      [|discriminate]. injection H1 as <-.
    destruct (uchan_dict_round_trip d u Eu) as (out & Ho & Hk).
    cbn [mapM] in H2. rewrite Ho in H2. cbn [rbind] in H2.
    destruct (mapM UchannelLO_to_dict us0) as [ws0|] eqn:Ews; cbn [rbind] in H2; [|discriminate].
    injection H2 as <-. destruct (IH us0 ws0 eq_refl Ews) as (ds' & -> & HF).
    exists (out :: ds'); split; [reflexivity|constructor; assumption].
Qed.

Lemma uchan_lists_round_trip (dss : list (list dict)) l l' :
  mapM (map_iter UchannelLO_from_dict) (map (fun ds => PList (map PDict ds)) dss) = inl l ->
  mapM (map_iter UchannelLO_to_dict) l = inl l' ->
  exists dss', l' = map (fun ds => PList (map PDict ds)) dss' /\
    Forall2 (Forall2 (fun d d' => forall k, dget d' k = dget d k)) dss dss'.
Proof.
  revert l l'; induction dss as [|ds dss IH]; intros l l' H1 H2; cbn [map mapM] in H1.
  - injection H1 as <-. cbn [mapM] in H2. injection H2 as <-. exists []; split; constructor.
  - cbn [map_iter] in H1.
    destruct (mapM UchannelLO_from_dict (map PDict ds)) as [us|] eqn:Eu; cbn [rbind] in H1;
      [|discriminate].
    destruct (mapM (map_iter UchannelLO_from_dict) (map (fun ds => PList (map PDict ds)) dss))
      as [l0|]; cbn [rbind] in H1; [|discriminate]. injection H1 as <-.
    cbn [mapM map_iter] in H2.
    destruct (mapM UchannelLO_to_dict us) as [ws|] eqn:Ew; cbn [rbind] in H2; [|discriminate].
    destruct (mapM (map_iter UchannelLO_to_dict) l0) as [l1|] eqn:El1; cbn [rbind] in H2;
      [|discriminate].
    injection H2 as <-.
    destruct (uchan_list_round_trip ds us ws Eu Ew) as (ds' & -> & HF).
    destruct (IH l0 l1 eq_refl El1) as (dss' & -> & HFs).
    exists (ds' :: dss'); split; [reflexivity|constructor; assumption].
Qed.

(** [to_dict(from_dict(D))] gives back [u_channel_lo] with the same nesting,
    and each [UchannelLO] dictionary with the same value as the input under
    every key. *)
Theorem Pulse_u_channel_lo_round_trip D o out (dss : list (list dict)) :
  Pulse_from_dict D = inl o -> Pulse_to_dict o = inl out ->
  dget D "u_channel_lo" = Some (PList (map (fun ds => PList (map PDict ds)) dss)) ->
  exists dss', dget out "u_channel_lo" = Some (PList (map (fun ds => PList (map PDict ds)) dss')) /\
    Forall2 (Forall2 (fun d d' => forall k, dget d' k = dget d k)) dss dss'.
Proof.
  intros Hf Ht Hu. destruct (Pulse_from_dict_u_channel_lo _ _ _ Hf Hu) as (v' & Hm & Hg).
  destruct (Pulse_to_dict_u_channel_lo _ _ _ Ht Hg) as (w & Hw & Ho).
  cbn [map_iter] in Hm.
  destruct (mapM (map_iter UchannelLO_from_dict) _) as [l|] eqn:El; cbn [rbind] in Hm;
    [|discriminate]. injection Hm as <-. cbn [map_iter] in Hw.
  destruct (mapM (map_iter UchannelLO_to_dict) l) as [l'|] eqn:El'; cbn [rbind] in Hw;
    [|discriminate]. injection Hw as <-.
  destruct (uchan_lists_round_trip dss l l' El El') as (dss' & -> & HF).
  exists dss'; split; [exact Ho|exact HF].
Qed.

(** *** Keys that are parameters of neither [__init__] *)

Lemma existsb_notin k l : ~ In k l -> existsb (String.eqb k) l = false.
Proof.
  intros Hn. destruct (existsb (String.eqb k) l) eqn:E; [|reflexivity].
  exfalso; apply Hn, in_of_existsb, E.
Qed.

Lemma dget_rev_None (e : dict) k : ~ In k (map fst e) -> dget (rev e) k = None.
Proof.
  intros Hn. apply dget_None_notin. rewrite map_rev. intros Hin; apply Hn, in_rev; exact Hin.
Qed.

Lemma pop_NoDup d k p : pop d k = inl p -> NoDup (map fst d) -> NoDup (map fst (snd p)).
Proof.
  unfold pop. destruct (getitem d k); cbn [rbind]; [|discriminate].
  intros H; injection H as <-. apply NoDup_ddel.
Qed.

Lemma Pulse_from_dict_NoDup D o :
  Pulse_from_dict D = inl o -> NoDup (map fst D) ->
  exists kw, Pulse_init kw = inl o /\ NoDup (map fst kw) /\
    forall k, k <> "gates" -> k <> "u_channel_lo" -> dget kw k = dget D k.
Proof.
  unfold Pulse_from_dict. intros H Hd; peel H.
  eexists; split; [exact H|]. split.
  - apply NoDup_dset, (pop_NoDup _ _ _ E1), NoDup_dset, (pop_NoDup _ _ _ E), Hd.
  - intros k Hg Hu.
    rewrite dget_dset. destruct (String.eqb_spec k "u_channel_lo"); [contradiction|].
    rewrite (pop_frame _ _ _ _ E1 n), dget_dset.
    destruct (String.eqb_spec k "gates"); [contradiction|].
    exact (pop_frame _ _ _ _ E Hg).
Qed.

Lemma super_args_params k : In k Pulse_super_args -> In k Pulse_params.
Proof.
  unfold Pulse_super_args, Pulse_params, Pulse_required. rewrite !in_app_iff.
  intros [H|H]; [left; left; exact H|right; simpl in H |- *; tauto].
Qed.

Lemma NoDup_super_args : NoDup Pulse_super_args.
Proof.
  unfold Pulse_super_args, Qasm_required; cbn [app].
  repeat constructor; simpl; intuition discriminate.
Qed.

(** The [_data] of a [PulseBackendConfiguration]: the keyword arguments that
    are parameters of neither [__init__], and never a [channels] entry. *)
Lemma Pulse_init_data kw o :
  Pulse_init kw = inl o -> NoDup (map fst kw) ->
  NoDup (map fst (_data o)) /\
  (forall k, ~ In k Pulse_params -> ~ In k Qasm_params -> dget (_data o) k = dget kw k) /\
  dget (_data o) "channels" = None.
Proof.
  intros H Hkw. unfold Pulse_init in H; peel H.
  destruct (Qasm_init_data _ _ _ H) as (d1 & d2 & d3 & C1 & C2 & C3 & -> & _).
  assert (Ns : NoDup (map fst (map (fun k => (k, arg kw k)) Pulse_super_args ++
                                extra_kwargs Pulse_params kw)%list)).
  { rewrite map_app, map_map. cbn [fst]. rewrite map_id.
    apply NoDup_app; [exact NoDup_super_args|apply NoDup_filter_keys, Hkw|].
    intros a Ha Hb. apply in_map_iff in Hb as (kv & <- & Hkv).
    unfold extra_kwargs in Hkv. apply filter_In in Hkv as [_ Hf].
    apply negb_true_iff in Hf. exact (notin_of_existsb _ _ Hf (super_args_params _ Ha)). }
  assert (N3 : NoDup (map fst d3)).
  { rewrite (conv_kwarg_keys _ _ _ _ C3), (conv_kwarg_keys _ _ _ _ C2),
      (conv_kwarg_keys _ _ _ _ C1). apply NoDup_filter_keys, Ns. }
  split; [apply NoDup_dupdate; constructor|]. split.
  - intros k Hp Hq. rewrite dget_dupdate_nil by exact N3.
    rewrite (conv_kwarg_frame _ _ _ _ _ C3) by (intros ->; apply Hp; simpl; tauto).
    rewrite (conv_kwarg_frame _ _ _ _ _ C2) by (intros ->; apply Hp; simpl; tauto).
    rewrite (conv_kwarg_frame _ _ _ _ _ C1) by (intros ->; apply Hp; simpl; tauto).
    rewrite dget_extra_kwargs_notin by exact Hq.
    rewrite dget_app, dget_map_keys by (intros Hin; apply Hp, super_args_params, Hin).
    apply dget_extra_kwargs_notin, Hp.
  - rewrite dget_dupdate_nil by exact N3.
    rewrite (conv_kwarg_frame _ _ _ _ _ C3) by discriminate.
    rewrite (conv_kwarg_frame _ _ _ _ _ C2) by discriminate.
    rewrite (conv_kwarg_frame _ _ _ _ _ C1) by discriminate.
    rewrite dget_extra_kwargs_notin by (apply notin_of_existsb; reflexivity).
    rewrite dget_app, dget_map_keys by (apply notin_of_existsb; reflexivity).
    apply dget_extra_kwargs, in_of_existsb; reflexivity.
Qed.

(** [QasmBackendConfiguration.to_dict] gives the entries of [_data] the last
    word on every key it does not convert and does not emit itself. *)
Lemma Qasm_to_dict_other o out k :
  Qasm_to_dict o = inl out -> ~ In k Qasm_params ->
  k <> "qubit_lo_range" -> k <> "meas_lo_range" ->
  dget out k = dget (rev (_data o)) k.
Proof.
  intros H Hq Hl Hm. unfold Qasm_to_dict in H. peel H. unfold conv_key in *.
  rewrite (conv_kwarg_frame _ _ _ _ _ H) by exact Hm.
  rewrite (conv_kwarg_frame _ _ _ _ _ E9) by exact Hl.
  rewrite (conv_kwarg_frame _ _ _ _ _ E8) by (intros ->; apply Hq; simpl; tauto).
  rewrite (conv_kwarg_frame _ _ _ _ _ E7) by (intros ->; apply Hq; simpl; tauto).
  rewrite dget_dupdate. destruct (dget (rev (_data o)) k) as [v|]; [reflexivity|].
  rewrite (emit_attrs_spec _ _ _ _ _ E6 eq_refl).
  rewrite existsb_notin by (intros Hin; apply Hq; simpl in Hin |- *; tauto). cbn [andb].
  rewrite (emit_attr_frame _ _ _ _ _ _ E5) by (intros ->; apply Hq; simpl; tauto).
  rewrite (emit_attr_frame _ _ _ _ _ _ E4) by (intros ->; apply Hq; simpl; tauto).
  rewrite (emit_attr_frame _ _ _ _ _ _ E3) by (intros ->; apply Hq; simpl; tauto).
  rewrite (getattrs_map _ _ _ E), (getattrs_map _ _ _ E2), !dget_app.
  rewrite !dget_map_keys by (intros Hin; apply Hq; simpl in Hin |- *; tauto).
  cbn [dget]. destruct (String.eqb_spec k "gates") as [->|]; [exfalso; apply Hq; simpl; tauto|].
  reflexivity.
Qed.

(** [PulseBackendConfiguration.to_dict] leaves the entries of [_data] that
    are parameters of neither [__init__] as [QasmBackendConfiguration.to_dict]
    put them, when [_data] has no [channels] entry. *)
Lemma Pulse_to_dict_other o out k :
  Pulse_to_dict o = inl out -> ~ In k Pulse_params -> ~ In k Qasm_params ->
  dget (_data o) "channels" = None ->
  dget out k = dget (rev (_data o)) k.
Proof.
  intros H Hp Hq Hch. unfold Pulse_to_dict in H; peel H.
  assert (Hd2 : forall k', ~ In k' Qasm_params ->
            ~ In k' ["n_uchannels"; "u_channel_lo"; "meas_levels"; "qubit_lo_range";
                     "meas_lo_range"; "meas_kernels"; "discriminators"; "rep_times"; "dt"; "dtm";
                     "channel_bandwidth"; "meas_map"; "acquisition_latency";
                     "conditional_latency"] ->
            dget d2 k' = dget (rev (_data o)) k').
  { intros k' Hq' Hn.
    rewrite (emit_attrs_spec _ _ _ _ _ E4 eq_refl).
    rewrite existsb_notin by (intros Hin; apply Hn; simpl in Hin |- *; tauto). cbn [andb].
    rewrite dget_dupdate, dget_rev_None.
    2:{ rewrite (getattrs_map _ _ _ E2), (getattrs_map _ _ _ E3). simpl.
        intros Hin; apply Hn; simpl in Hin |- *; tauto. }
    apply (Qasm_to_dict_other _ _ _ E Hq'); intros ->; apply Hn; simpl; tauto. }
  assert (Hc : dmem d2 "channels" = false).
  { unfold dmem. rewrite Hd2 by (apply notin_of_existsb; reflexivity).
    rewrite dget_rev_None by (apply dget_None_notin, Hch). reflexivity. }
  rewrite Hc in E5; injection E5 as <-.
  rewrite (emit_attr_frame _ _ _ _ _ _ H) by (intros ->; apply Hp; simpl; tauto).
  rewrite (hamiltonian_out_frame _ _ _ _ _ E16) by (intros ->; apply Hp; simpl; tauto).
  rewrite (emit_attr_frame _ _ _ _ _ _ E14) by (intros ->; apply Hp; simpl; tauto).
  rewrite (mul_key_frame _ _ _ _ _ E13) by (intros ->; apply Hp; simpl; tauto).
  rewrite (mul_key_frame _ _ _ _ _ E12) by (intros ->; apply Hp; simpl; tauto).
  rewrite (dset_if_frame _ _ _ _ _ _ E11) by (intros ->; apply Hp; simpl; tauto).
  rewrite (dset_if_frame _ _ _ _ _ _ E9) by (intros ->; apply Hp; simpl; tauto).
  rewrite (dset_if_frame _ _ _ _ _ _ E7) by (intros ->; apply Hp; simpl; tauto).
  apply Hd2; [exact Hq|]. intros Hin; apply Hp; simpl in Hin |- *; tauto.
Qed.

(** Claim C8 (as the code behaves): for a dictionary [D] with distinct keys,
    the round trip [Pulse_to_dict (Pulse_from_dict D)] recomputes [dt] and
    [qubit_lo_range] through both unit conversions in binary64 arithmetic: a
    [dt] of [x] ns comes back as [(x * 1e-9) * 1e9] and each bound [b] of
    [qubit_lo_range] as [(b * 1e9) * 1e-9]; the values are reproduced exactly
    only where these products round back to the input. A key that is a
    parameter of neither [__init__] passes through [_data] and comes back
    verbatim, and such a key absent from [D] stays absent. *)
Theorem Pulse_round_trip_units (D : dict) (o : obj) (out : dict) (x : float)
  (l : list (float * float)) :
  NoDup (map fst D) ->
  Pulse_from_dict D = inl o -> Pulse_to_dict o = inl out ->
  dget D "dt" = Some (PFloat x) -> dget D "qubit_lo_range" = Some (float_pairs l) ->
  dget out "dt" = Some (PFloat ((x * 1e-9) * 1e9)%float) /\
  dget out "qubit_lo_range" = Some (float_pairs (scale_float_pairs 1e-9 (scale_float_pairs 1e9 l))) /\
  (forall k, ~ In k Pulse_params -> ~ In k Qasm_params -> dget out k = dget D k).
Proof.
  intros Hd Hf Ht Hx Hl. destruct (Pulse_from_dict_NoDup _ _ Hf Hd) as (kw & Hi & Hkw & Hk).
  split; [|split].
  - apply (Pulse_to_dict_dt _ _ _ Ht).
    rewrite (attr_value_of _ "dt" _ eq_refl (Pulse_init_dt _ _ x Hi ltac:(unfold arg; rewrite Hk, Hx by discriminate; reflexivity))).
    reflexivity.
  - apply (Pulse_to_dict_qubit_lo_range _ _ _ Ht).
    apply (attr_value_of _ "qubit_lo_range" _ eq_refl), (Pulse_init_qubit_lo_range _ _ _ Hi).
    unfold arg; rewrite Hk, Hl by discriminate; reflexivity.
  - intros k Hp Hq. destruct (Pulse_init_data _ _ Hi Hkw) as (Nd & Hdk & Hch).
    rewrite (Pulse_to_dict_other _ _ _ Ht Hp Hq Hch), dget_rev, Hdk by assumption.
    apply Hk; intros ->; apply Hp; simpl; tauto.
Qed.

Lemma Pulse_round_trip_units_witness :
  dget (dict_of (Pulse_to_dict cfg_custom)) "dt" = Some (PFloat 0.222) /\
  dget (dict_of (Pulse_to_dict cfg_custom)) "qubit_lo_range" = Some (float_pairs [(4.5, 5.5)%float]) /\
  dget (dict_of (Pulse_to_dict cfg_custom)) "custom_field" = Some (PStr "kept").
Proof.
  assert (H0 : NoDup (map fst wire_custom))
    by (vm_compute; repeat constructor; simpl; intuition discriminate).
  assert (H1 : Pulse_from_dict wire_custom = inl cfg_custom) by (vm_compute; reflexivity).
  assert (H2 : Pulse_to_dict cfg_custom = inl (dict_of (Pulse_to_dict cfg_custom)))
    by (vm_compute; reflexivity).
  destruct (Pulse_round_trip_units wire_custom cfg_custom _ 0.222 [(4.5, 5.5)%float] H0 H1 H2
              eq_refl eq_refl) as (Hdt & Hq & Hk).
  rewrite Hdt, Hq, Hk by (apply notin_of_existsb; reflexivity).
  repeat split; vm_compute; reflexivity.
Defined.

Lemma GateConfig_round_trip_witness :
  exists g, GateConfig_from_dict (PDict gate_cx) = inl g /\
    exists out, GateConfig_to_dict g = inl (PDict out) /\
      dget out "coupling_map" = dget gate_cx "coupling_map" /\ dget out "conditional" = None.
Proof.
  assert (H : GateConfig_from_dict (PDict gate_cx) =
              inl (match GateConfig_from_dict (PDict gate_cx) with inl g => g | inr _ => PNone end))
    by (vm_compute; reflexivity).
  eexists; split; [exact H|].
  destruct (GateConfig_round_trip _ _ H) as (out & Ho & Hk).
  exists out; split; [exact Ho|]. rewrite !Hk. split; vm_compute; reflexivity.
Defined.

Lemma UchannelLO_round_trip_witness :
  exists u, UchannelLO_from_dict (PDict uchan_q1) = inl u /\
    exists out, UchannelLO_to_dict u = inl (PDict out) /\
      dget out "q" = Some (PInt 1) /\ dget out "scale" = dget uchan_q1 "scale".
Proof.
  assert (H : UchannelLO_from_dict (PDict uchan_q1) =
              inl (PUchan (PInt 1) (PList [PFloat 1; PFloat 0]))) by (vm_compute; reflexivity).
  eexists; split; [exact H|].
  destruct (UchannelLO_round_trip _ _ H) as (out & Ho & Hk & _).
  exists out; split; [exact Ho|]. rewrite !Hk. split; reflexivity.
Defined.

Lemma UchannelLO_negative_q_witness :
  dget uchan_neg "q" = Some (PInt (-1)) /\
  UchannelLO_from_dict (PDict uchan_neg) = inr (QiskitError "q must be >=0").
Proof.
  split; [reflexivity|].
  apply (UchannelLO_negative_q _ (-1)); [reflexivity|lia|discriminate|].
  intros kv [<-|[<-|[]]]; simpl; tauto.
Defined.


Lemma Qasm_units_round_trip_witness :
  Qasm_from_dict qasm_wire_extra = inl qasm_cfg_extra /\
  Qasm_to_dict qasm_cfg_extra = inl (dict_of (Qasm_to_dict qasm_cfg_extra)) /\
  dget (dict_of (Qasm_to_dict qasm_cfg_extra)) "rep_times" =
    Some (float_list (map (fun x => x * 1e-6)%float [1000%float])).
Proof.
  assert (H : Qasm_from_dict qasm_wire_extra = inl qasm_cfg_extra) by (vm_compute; reflexivity).
  assert (Nd : NoDup (map fst qasm_wire_extra))
    by (vm_compute; repeat constructor; simpl; intuition discriminate).
  assert (Ho : Qasm_to_dict qasm_cfg_extra = inl (dict_of (Qasm_to_dict qasm_cfg_extra)))
    by (vm_compute; reflexivity).
  destruct (Qasm_units_round_trip _ _ _ [(4.5, 5.5)%float] [1000%float] H Nd Ho eq_refl eq_refl)
    as (_ & _ & _ & Hr).
  split; [exact H|split; [exact Ho|exact Hr]].
Defined.

Lemma Qasm_required_fields_witness :
  Qasm_from_dict (qasm_wire (PInt 5)) = inl qasm_cfg_5 /\
  exists v, dget (qasm_wire (PInt 5)) "n_qubits" = Some v /\ getattr qasm_cfg_5 "n_qubits" = inl v /\
    contains qasm_cfg_5 "n_qubits" = true.
Proof.
  assert (H : Qasm_from_dict (qasm_wire (PInt 5)) = inl qasm_cfg_5) by (vm_compute; reflexivity).
  split; [exact H|].
  exact (Qasm_required_fields _ _ "n_qubits" H ltac:(apply in_of_existsb; reflexivity)
           ltac:(discriminate)).
Defined.


Lemma get_channel_qubits_from_channels_witness :
  Pulse_from_dict wire_channels = inl cfg_channels /\
  dget wire_channels "channels" = Some (PDict channels_d0_u1_dict) /\
  get_channel_qubits cfg_channels (ControlChannel 1) = inl [0%Z; 1%Z] /\
  get_channel_qubits cfg_channels (DriveChannel 1) =
    inr (BackendConfigurationError "Couldn't find the Channel - DriveChannel(1)").
Proof.
  assert (H : Pulse_from_dict wire_channels = inl cfg_channels) by (vm_compute; reflexivity).
  assert (Hc : dget wire_channels "channels" = Some (PDict channels_d0_u1_dict)) by (vm_compute; reflexivity).
  split; [exact H|split; [exact Hc|]].
  destruct (get_channel_qubits_from_channels _ _ _ H Hc) as (es & Hes & Hg).
  vm_compute in Hes. injection Hes as <-. rewrite !Hg. split; vm_compute; reflexivity.
Defined.

Lemma get_qubit_channels_from_channels_witness :
  Pulse_from_dict wire_channels = inl cfg_channels /\
  dget wire_channels "channels" = Some (PDict channels_d0_u1_dict) /\
  (exists cs, get_qubit_channels cfg_channels (QInt 0) = inl cs /\ NoDup cs /\
     In (DriveChannel 0) cs /\ In (ControlChannel 1) cs) /\
  get_qubit_channels cfg_channels (QTuple [1%Z; 0%Z]) =
    inr (BackendConfigurationError ("Couldn't find the qubit - " ++ tuple_str [1%Z; 0%Z])).
Proof.
  assert (H : Pulse_from_dict wire_channels = inl cfg_channels) by (vm_compute; reflexivity).
  assert (Hc : dget wire_channels "channels" = Some (PDict channels_d0_u1_dict)) by (vm_compute; reflexivity).
  split; [exact H|split; [exact Hc|]].
  destruct (get_qubit_channels_from_channels _ _ _ H Hc) as (es & Hes & Hq & Hqs).
  vm_compute in Hes. injection Hes as <-. split.
  - destruct (proj1 (Hq 0%Z)) as (cs & Hcs & Hnd & Hin).
    { eexists; split; [left; reflexivity|simpl; auto]. }
    exists cs; split; [exact Hcs|split; [exact Hnd|split]].
    + apply Hin. eexists; split; [left; reflexivity|simpl; auto].
    + apply Hin. eexists; split; [right; left; reflexivity|simpl; auto].
  - destruct (Hqs [1%Z; 0%Z]) as (_ & _ & Hn). apply Hn.
    intros (e & [<-|[<-|[]]] & He); discriminate.
Defined.

Lemma control_from_channels_witness :
  Pulse_from_dict wire_channels = inl cfg_channels /\
  dget wire_channels "channels" = Some (PDict channels_d0_u1_dict) /\
  control cfg_channels [0%Z; 1%Z] = (inl [ControlChannel 1], cfg_channels).
Proof.
  assert (H : Pulse_from_dict wire_channels = inl cfg_channels) by (vm_compute; reflexivity).
  assert (Hc : dget wire_channels "channels" = Some (PDict channels_d0_u1_dict)) by (vm_compute; reflexivity).
  split; [exact H|split; [exact Hc|]].
  destruct (control_from_channels _ _ _ H Hc) as (es & Hes & Hctl).
  vm_compute in Hes. injection Hes as <-.
  destruct (Hctl [0%Z; 1%Z]) as (Hs & _ & Hf).
  rewrite (surjective_pairing (control cfg_channels [0%Z; 1%Z])), Hs, Hf by (vm_compute; discriminate).
  reflexivity.
Defined.

Lemma channel_queries_without_channels_witness :
  Pulse_from_dict wire_dt_0222 = inl cfg_plain /\ arg wire_dt_0222 "channels" = PNone /\
  get_channel_qubits cfg_plain (DriveChannel 0) = inr (no_channel_information cfg_plain) /\
  get_qubit_channels cfg_plain (QInt 0) = inr (no_channel_information cfg_plain).
Proof.
  assert (H : Pulse_from_dict wire_dt_0222 = inl cfg_plain) by (vm_compute; reflexivity).
  assert (Hc : arg wire_dt_0222 "channels" = PNone) by reflexivity.
  split; [exact H|split; [exact Hc|]].
  exact (channel_queries_without_channels _ _ H Hc eq_refl eq_refl (DriveChannel 0) (QInt 0)).
Defined.

Lemma control_without_channels_records_witness :
  Pulse_from_dict wire_dt_0222 = inl cfg_plain /\ arg wire_dt_0222 "channels" = PNone /\
  fst (control cfg_plain [0%Z; 1%Z]) = inl [] /\
  _control_channels (snd (control cfg_plain [0%Z; 1%Z])) =
    Some (DefaultDictList [([0%Z; 1%Z], [])]).
Proof.
  assert (H : Pulse_from_dict wire_dt_0222 = inl cfg_plain) by (vm_compute; reflexivity).
  assert (Hc : arg wire_dt_0222 "channels" = PNone) by reflexivity.
  split; [exact H|split; [exact Hc|]].
  destruct (control_without_channels_records _ _ [0%Z; 1%Z] H Hc) as (H1 & H2 & _).
  split; assumption.
Defined.

Lemma describe_from_dict_witness :
  Pulse_from_dict wire_channels = inl cfg_channels /\
  dget wire_channels "u_channel_lo" = Some (PList ucl_channels) /\
  describe cfg_channels (ControlChannel 5) = inr (IndexError "list index out of range") /\
  exists result, describe cfg_channels (ControlChannel 0) = inl result /\
    clookup result (DriveChannel 1) = Some (PList [PFloat 1; PFloat 0]).
Proof.
  assert (H : Pulse_from_dict wire_channels = inl cfg_channels) by (vm_compute; reflexivity).
  assert (Hu : dget wire_channels "u_channel_lo" = Some (PList ucl_channels)) by (vm_compute; reflexivity).
  split; [exact H|split; [exact Hu|split]].
  - exact (proj1 (describe_from_dict _ _ _ 5 H Hu) eq_refl).
  - assert (HF : Forall (fun d => exists z, dget d "q" = Some (PInt z)) [uchan_q1])
      by (constructor; [exists 1%Z; reflexivity|constructor]).
    destruct (proj2 (proj2 (describe_from_dict _ _ _ 0 H Hu) [uchan_q1] eq_refl) HF)
      as (result & Hd & _ & Hl).
    exists result; split; [exact Hd|]. apply Hl.
    exists [], uchan_q1, []. repeat split; constructor.
Defined.

Lemma Pulse_u_channel_lo_round_trip_witness :
  Pulse_from_dict wire_channels = inl cfg_channels /\
  Pulse_to_dict cfg_channels = inl (dict_of (Pulse_to_dict cfg_channels)) /\
  dget wire_channels "u_channel_lo" =
    Some (PList (map (fun ds => PList (map PDict ds)) [[uchan_q1]])) /\
  exists dss', dget (dict_of (Pulse_to_dict cfg_channels)) "u_channel_lo" =
      Some (PList (map (fun ds => PList (map PDict ds)) dss')) /\
    Forall2 (Forall2 (fun d d' => forall k, dget d' k = dget d k)) [[uchan_q1]] dss'.
Proof.
  assert (H : Pulse_from_dict wire_channels = inl cfg_channels) by (vm_compute; reflexivity).
  assert (Ho : Pulse_to_dict cfg_channels = inl (dict_of (Pulse_to_dict cfg_channels)))
    by (vm_compute; reflexivity).
  assert (Hu : dget wire_channels "u_channel_lo" =
               Some (PList (map (fun ds => PList (map PDict ds)) [[uchan_q1]])))
    by (vm_compute; reflexivity).
  split; [exact H|split; [exact Ho|split; [exact Hu|]]].
  exact (Pulse_u_channel_lo_round_trip _ _ _ _ H Ho Hu).
Defined.

End ConfigExtras.
